(** * Home Assistant state synchroniser: a shallow embedding

    The development follows the TypeScript sources of the repository:

    - [data-manager/data.ts]         the domain model and the value conversions
    - [data-manager/config.ts]       the static per-area dashboard table
    - [hass-ws-client/client.ts]     the WebSocket protocol client
    - [data-manager/data-manager.ts] the synchroniser and command dispatcher

    Conventions of the embedding.

    - A JavaScript [number] is an exact rational ([Q]).  Every arithmetic
      expression of the sources is evaluated exactly; [Math.round] is
      [floor (x + 1/2)].  [NaN], as produced by [parseInt] / [parseFloat],
      is the [None] of an [option]; the sources test it right after the call.
      The module [IEEE] repeats the numeric functions of [data.ts] in
      binary64 arithmetic; the statements about the conversion of
      temperatures are made there, and those about a computed brightness
      or temperature in the manager carry the range of whole numbers on
      which the two agree.
    - [null] and [undefined] are the [None] of an [option].
    - A JavaScript object used as a dictionary ([Record<string, T>]) is an
      association list in insertion order, which is the order [Object.keys]
      enumerates (entity ids are never array indices).
    - Exceptions leave every earlier mutation in place, so a method of a class
      is a function from the instance state to the new state and either a
      value or the error thrown.
    - The [lights] array of an area is a heap object: the object spread of
      [updateAreas] copies the reference, not the array.  Areas therefore
      hold an address into a store of arrays. *)

From Stdlib Require Import ZArith QArith Qround Qabs String Ascii List Lia.
From Stdlib Require PrimFloat FloatOps SpecFloat Uint63.
From stdpp Require Import base option list strings.
Import ListNotations.

Local Open Scope string_scope.
Local Open Scope Z_scope.

(** ** JavaScript built-ins used by the sources *)

Module JS.

Definition number := Q.

(** [Math.round]: the nearest integer, ties towards plus infinity. *)
Definition Math_round (x : number) : number :=
  inject_Z (Qfloor (x + (1 # 2))%Q).

(** [StrWhiteSpaceChar], ASCII part: TAB, LF, VT, FF, CR, SP. *)
Definition isWhiteSpace (c : ascii) : bool :=
  let n := Z.of_nat (nat_of_ascii c) in
  ((9 <=? n) && (n <=? 13)) || (n =? 32).

Fixpoint trimStart (s : string) : string :=
  match s with
  | String c s' => if isWhiteSpace c then trimStart s' else s
  | EmptyString => s
  end.

(** The value of a character as a digit: 0-9, then a-z / A-Z as 10-35. *)
Definition digitValue (c : ascii) : option Z :=
  let n := Z.of_nat (nat_of_ascii c) in
  if (48 <=? n) && (n <=? 57) then Some (n - 48)
  else if (97 <=? n) && (n <=? 122) then Some (n - 87)
  else if (65 <=? n) && (n <=? 90) then Some (n - 55)
  else None.

(** The longest prefix of radix-[radix] digits, accumulated from the left.
    [acc] is [None] until a first digit has been read; the rest of the
    string is returned with the value. *)
Fixpoint parseDigits (radix : Z) (s : string) (acc : option Z) : option Z * string :=
  match s with
  | String c s' =>
      match digitValue c with
      | Some d =>
          if d <? radix
          then parseDigits radix s' (Some (default 0 acc * radix + d))
          else (acc, s)
      | None => (acc, s)
      end
  | EmptyString => (acc, s)
  end.

(** A leading sign: the factor and the rest of the string. *)
Definition takeSign (s : string) : Z * string :=
match s with
| String c s' =>
    if Ascii.eqb c "-" then (-1, s')
    else if Ascii.eqb c "+" then (1, s')
    else (1, s)
| EmptyString => (1, s)
end.

(** A leading [0x] or [0X] removed, when there is one. *)
Definition stripHexPrefix (s : string) : option string :=
match s with
| String c0 (String c1 s') =>
    if Ascii.eqb c0 "0" && (Ascii.eqb c1 "x" || Ascii.eqb c1 "X")
    then Some s' else None
| _ => None
end.

(** [parseInt(string, radix)]; [radix = None] is the call with one
    argument.  [None] is [NaN]. *)
Definition parseInt (s : string) (radix : option Z) : option Z :=
  let '(sign, body) := takeSign (trimStart s) in
  let r := default 0 radix in
  if (r =? 0) || (r =? 16) then
    match stripHexPrefix body with
    | Some hex => (fun v => sign * v) <$> fst (parseDigits 16 hex None)
    | None =>
        (fun v => sign * v) <$>
          fst (parseDigits (if r =? 0 then 10 else 16) body None)
    end
  else if (r <? 2) || (36 <? r) then None
  else (fun v => sign * v) <$> fst (parseDigits r body None).

(** Decimal digits with their count, for the fraction of a literal. *)
Fixpoint parseFraction (s : string) (acc : Z) (len : Z) : Z * Z * string :=
  match s with
  | String c s' =>
      match digitValue c with
      | Some d =>
          if d <? 10 then parseFraction s' (acc * 10 + d) (len + 1)
          else (acc, len, s)
      | None => (acc, len, s)
      end
  | EmptyString => (acc, len, s)
  end.

(** The optional [ExponentPart] of a decimal literal; an [e] that no digit
    follows is not part of the literal. *)
Definition parseExponent (s : string) : Z :=
  match s with
  | String c s' =>
      if (Ascii.eqb c "e" || Ascii.eqb c "E")%bool then
        let '(sign, digits) := takeSign s' in
        match fst (parseDigits 10 digits None) with
        | Some e => sign * e
        | None => 0
        end
      else 0
  | EmptyString => 0
  end.

Definition pow10 (e : Z) : Q :=
  if 0 <=? e then inject_Z (10 ^ e) else (1 # Z.to_pos (10 ^ (- e)))%Q.

(** [parseFloat(string)] on a [StrDecimalLiteral] prefix: sign, digits,
    fraction, exponent.  [None] is [NaN].  The literal [Infinity] has no
    rational value and is read as [None]. *)
Definition parseFloat (s : string) : option number :=
  let '(sign, body) := takeSign (trimStart s) in
  let '(ipart, rest) := parseDigits 10 body None in
  let '(fpart, flen, rest') :=
    match rest with
    | String "." frac => parseFraction frac 0 0
    | _ => (0, 0, rest)
    end in
  if decide (ipart = None /\ flen = 0) then None
  else
    let mantissa := default 0 ipart * 10 ^ flen + fpart in
    Some (inject_Z (sign * mantissa) * pow10 (parseExponent rest' - flen))%Q.

Definition digitChar (d : Z) : ascii := ascii_of_nat (48 + Z.to_nat d).

(** The decimal digits of [n >= 0], most significant first, in front of
    [acc].  [fuel] bounds the number of digits. *)
Fixpoint decimalDigits (fuel : nat) (n : Z) (acc : string) : string :=
  match fuel with
  | O => acc
  | S fuel' =>
      let acc' := String (digitChar (n mod 10)) acc in
      if n <? 10 then acc' else decimalDigits fuel' (n / 10) acc'
  end.

Definition naturalToString (n : Z) : string :=
  decimalDigits (S (Z.to_nat (Z.log2 n))) n "".

(** The digits of the fraction [0 <= f < 1], until it is exhausted. *)
Fixpoint fractionDigits (fuel : nat) (f : Q) : string :=
  match fuel with
  | O => ""
  | S fuel' =>
      if Qeq_bool f 0 then ""
      else
        let f10 := (f * 10)%Q in
        let d := Qfloor f10 in
        String (digitChar d) (fractionDigits fuel' (f10 - inject_Z d)%Q)
  end.

(** [Number::toString] in radix 10, as a template literal applies it: an
    optional minus sign, the integer part and, when there is one, the
    fraction.  It is the ECMAScript rendering of every number below 1e21
    in magnitude whose decimal expansion ends within seventeen digits;
    the exponent forms of larger and of tiny numbers are not produced. *)
Definition numberToString (x : number) : string :=
  let a := Qabs x in
  let i := Qfloor a in
  let f := (a - inject_Z i)%Q in
  ((if Qlt_le_dec x 0 then "-" else "") ++
   naturalToString i ++
   (if Qeq_bool f 0 then "" else String "." (fractionDigits 20 f)))%string.

(** [s.split(" ")[0]]: the text before the first space. *)
Fixpoint splitSpaceHead (s : string) : string :=
  match s with
  | String c s' => if Ascii.eqb c " " then "" else String c (splitSpaceHead s')
  | EmptyString => ""
  end.

(** [s.startsWith(p)]. *)
Definition startsWith (s p : string) : bool := String.prefix p s.

End JS.

(** ** JSON values, as [JSON.parse] delivers them ([unknown] in the sources) *)

#[warnings="-register-all"]
Inductive JsValue : Type :=
| JsNull
| JsBoolean (b : bool)
| JsNumber (n : JS.number)
| JsString (s : string)
| JsArray (items : list JsValue)
| JsObject (fields : list (string * JsValue)).

(** ** Dictionaries: [Record<string, T>] in insertion order *)

Module Dict.

Definition t (A : Type) : Type := list (string * A).

(** [obj[key]] *)
Fixpoint get {A} (obj : t A) (key : string) : option A :=
  match obj with
  | (k, v) :: rest => if String.eqb k key then Some v else get rest key
  | [] => None
  end.

(** [obj[key] = value]: an existing key keeps its place, a new one is
    added last. *)
Fixpoint set {A} (obj : t A) (key : string) (value : A) : t A :=
  match obj with
  | (k, v) :: rest =>
      if String.eqb k key then (k, value) :: rest
      else (k, v) :: set rest key value
  | [] => [(key, value)]
  end.

(** [Object.keys(obj)] *)
Definition keys {A} (obj : t A) : list string := map fst obj.

End Dict.

(** ** hass-ws-client/client.ts: the registry and state types *)

Record HassArea : Type := mkHassArea {
  ha_area_id : string;
  ha_floor_id : option string;
  ha_name : string
}.

Record HassDevice : Type := mkHassDevice {
  hd_area_id : option string;
  hd_id : string;
  hd_manufacturer : option string;
  hd_model : option string;
  hd_name : string;
  hd_name_by_user : option string
}.

Record HassEntity : Type := mkHassEntity {
  he_device_id : option string;
  he_entity_id : string
}.

(** [{ s, a }].  A patch of an [entity_state_change] event carries only the
    fields that changed, and the sources test [a] for presence, so both are
    optional; [a] is the attribute dictionary.  Field names carry a prefix
    per record, since one name space holds them all. *)
Record HassEntityState : Type := mkHassEntityState {
  hs_s : option string;
  hs_a : option (Dict.t JsValue)
}.

(** ** data-manager/data.ts *)

Inductive TemperatureUnitOfMeasurement : Type := Celsius | Fahrenheit.
Inductive HumidityUnitOfMeasurement : Type := Percent.
Inductive CarbonDioxideUnitOfMeasurement : Type := Ppm.

(** The degree sign is U+00B0, two bytes in UTF-8. *)
Definition degree : string :=
  String (ascii_of_nat 194) (String (ascii_of_nat 176) "").

Definition temperatureUnitString (u : TemperatureUnitOfMeasurement) : string :=
  match u with
  | Celsius => degree ++ "C"
  | Fahrenheit => degree ++ "F"
  end.

Definition humidityUnitString (u : HumidityUnitOfMeasurement) : string := "%".
Definition carbonDioxideUnitString (u : CarbonDioxideUnitOfMeasurement) : string := "ppm".

Inductive LightState : Type := On | Off | Unavailable.

(** [number | "unavailable"] *)
Inductive SensorState : Type :=
| Reading (value : JS.number)
| SensorUnavailable.

Record Light : Type := mkLight {
  l_areaId : string;
  l_areaName : string;
  l_deviceId : option string;
  l_deviceName : string;
  l_entityId : string;
  l_state : LightState;
  l_brightnessPercentage : option JS.number;
  l_rgbColor : option (list JsValue)
}.

(** The three sensor types differ in the type of [unitOfMeasurement] only. *)
Record Sensor (U : Type) : Type := mkSensor {
  s_areaId : string;
  s_areaName : string;
  s_deviceId : option string;
  s_deviceName : string;
  s_entityId : string;
  s_state : SensorState;
  s_unitOfMeasurement : U
}.
Arguments mkSensor {U}.
Arguments s_areaId {U}.
Arguments s_areaName {U}.
Arguments s_deviceId {U}.
Arguments s_deviceName {U}.
Arguments s_entityId {U}.
Arguments s_state {U}.
Arguments s_unitOfMeasurement {U}.

Definition HumiditySensor := Sensor HumidityUnitOfMeasurement.
Definition TemperatureSensor := Sensor TemperatureUnitOfMeasurement.
Definition CarbonDioxideSensor := Sensor CarbonDioxideUnitOfMeasurement.

(** The address of a [Light[]] array in the store. *)
Definition ArrayRef := nat.

Record Area : Type := mkArea {
  a_id : string;
  a_name : string;
  a_floorId : option string;
  a_lights : ArrayRef;
  a_humiditySensor : option HumiditySensor;
  a_temperatureSensor : option TemperatureSensor;
  a_carbonDioxideSensor : option CarbonDioxideSensor
}.

Definition EntityTypes_light : string := "light".

Definition getLightState (state : option string) : LightState :=
  match state with
  | Some st =>
      if String.eqb st "on" then On
      else if String.eqb st "off" then Off
      else Unavailable
  | None => Unavailable
  end.

Definition getBrightnessPercentage (brightness : option JsValue) : option JS.number :=
  let maxBrightness := 255%Q in
  match brightness with
  | Some (JsString str) =>
      match JS.parseInt str (Some 10) with
      | Some brightnessValue =>
          Some (JS.Math_round ((inject_Z brightnessValue / maxBrightness) * 100)%Q)
      | None => None
      end
  | Some (JsNumber brightnessValue) =>
      Some (JS.Math_round ((brightnessValue / maxBrightness) * 100)%Q)
  | _ => None
  end.

Definition getBrightnessValue (brightnessPercentage : option JS.number) : JS.number :=
  match brightnessPercentage with
  | None => 0%Q
  | Some p =>
      let maxBrightness := 255%Q in
      JS.Math_round ((p / 100) * maxBrightness)%Q
  end.

Definition getRBGColor (rgbColor : option JsValue) : option (list JsValue) :=
  match rgbColor with
  | Some (JsArray items) => Some items
  | _ => None
  end.

Definition getNumericSensorState (state : option JsValue) : SensorState :=
  match state with
  | Some (JsNumber n) => Reading n
  | Some (JsString str) =>
      match JS.parseFloat str with
      | Some value => Reading value
      | None => SensorUnavailable
      end
  | _ => SensorUnavailable
  end.

Definition getTemperatureUnitOfMeasurement (unitOfMeasurement : option JsValue)
  : option TemperatureUnitOfMeasurement :=
  match unitOfMeasurement with
  | Some (JsString u) =>
      if String.eqb u (temperatureUnitString Celsius) then Some Celsius
      else if String.eqb u (temperatureUnitString Fahrenheit) then Some Fahrenheit
      else None
  | _ => None
  end.

Definition temperatureUnit_eqb (u v : TemperatureUnitOfMeasurement) : bool :=
  match u, v with
  | Celsius, Celsius | Fahrenheit, Fahrenheit => true
  | _, _ => false
  end.

(** The literal [1.8] is the rational 18/10. *)
Definition calcTemperatureValue (value : SensorState)
    (unitOfMeasurement targetUnitOfMeasurement : TemperatureUnitOfMeasurement)
  : SensorState :=
  match value with
  | SensorUnavailable => value
  | Reading v =>
      if temperatureUnit_eqb unitOfMeasurement targetUnitOfMeasurement then value
      else
        let temperatureValue :=
          if temperatureUnit_eqb targetUnitOfMeasurement Fahrenheit
          then (v * (18 # 10) + 32)%Q
          else ((v - 32) / (18 # 10))%Q in
        Reading (JS.Math_round temperatureValue)
  end.


(** ** The same arithmetic in double precision

    The numbers of JavaScript are IEEE 754 binary64 values, and every
    operation rounds its exact result to the nearest one.  This module
    repeats the numeric functions of [data.ts] on the binary64 floats of the
    kernel, operation by operation, so that statements about large or
    fractional numbers can be made of the arithmetic the code runs.  The
    rest of the development computes with [JS.number]; the lemmas on
    [IEEE] say where the two agree. *)

Module IEEE.
Import PrimFloat.

Definition double : Set := float.

(** An integer as a [number]: itself when its magnitude is at most 2^53, the
    nearest double otherwise (magnitudes below 2^63). *)
Definition ofZ (n : Z) : double :=
  if n <? 0 then opp (of_uint63 (Uint63.of_Z (- n)))
  else of_uint63 (Uint63.of_Z n).

(** The integer a double is, when it is one ([-0] is 0). *)
Definition toZ (x : double) : option Z :=
  match FloatOps.Prim2SF x with
  | SpecFloat.S754_zero _ => Some 0
  | SpecFloat.S754_finite s m e =>
      let n := if s then Z.neg m else Z.pos m in
      if 0 <=? e then Some (n * 2 ^ e)
      else if n mod 2 ^ (- e) =? 0 then Some (n / 2 ^ (- e))
      else None
  | _ => None
  end.

(** [Math.round]: the integer nearest to [x], the larger one of two that
    are as near; [-0] for [x] from [-0.5] up to [-0]; [NaN] and the
    infinities are returned as they are.  A double [m * 2^e] with [0 <= e]
    is an integer; otherwise [floor (x + 1/2)] is computed exactly and has
    a magnitude below 2^53. *)
Definition Math_round (x : double) : double :=
  match FloatOps.Prim2SF x with
  | SpecFloat.S754_finite s m e =>
      if 0 <=? e then x
      else
        let n := if s then Z.neg m else Z.pos m in
        let r := (2 * n + 2 ^ (- e)) / (2 * 2 ^ (- e)) in
        if (r =? 0) && s then (-0)%float else ofZ r
  | _ => x
  end.

Inductive SensorState : Set :=
| Reading (value : double)
| SensorUnavailable.

(** [calcTemperatureValue]; the literal [1.8] is the double nearest to
    18/10, [0x1.ccccccccccccdp+0]. *)
#[warnings="-inexact-float"]
Definition calcTemperatureValue (value : SensorState)
    (unitOfMeasurement targetUnitOfMeasurement : TemperatureUnitOfMeasurement)
  : SensorState :=
  match value with
  | SensorUnavailable => value
  | Reading v =>
      if temperatureUnit_eqb unitOfMeasurement targetUnitOfMeasurement then value
      else
        let temperatureValue :=
          if temperatureUnit_eqb targetUnitOfMeasurement Fahrenheit
          then (v * 1.8 + 32)%float
          else ((v - 32) / 1.8)%float in
        Reading (Math_round temperatureValue)
  end.

(** [getBrightnessPercentage] on a [number]. *)
Definition getBrightnessPercentage (brightnessValue : double) : double :=
  let maxBrightness := 255%float in
  Math_round ((brightnessValue / maxBrightness) * 100)%float.

Definition getBrightnessValue (brightnessPercentage : option double) : double :=
  match brightnessPercentage with
  | None => 0%float
  | Some p =>
      let maxBrightness := 255%float in
      Math_round ((p / 100) * maxBrightness)%float
  end.

End IEEE.

(** ** data-manager/config.ts: the static dashboard table *)

Record DashboardConfig : Type := mkDashboardConfig {
  dc_areaId : string;
  dc_temperatureUnitOfMeasurement : TemperatureUnitOfMeasurement;
  dc_temperatureSensorEntityId : option string;
  dc_humiditySensorEntityId : option string;
  dc_carbonDioxideSensorEntityId : option string
}.

Definition dashboardConfigs : list DashboardConfig :=
  [ mkDashboardConfig "living_room" Celsius
      (Some "sensor.aranet4_23eff_temperature")
      (Some "sensor.aranet4_23eff_humidity")
      (Some "sensor.aranet4_23eff_carbon_dioxide");
    mkDashboardConfig "kitchen" Celsius None None None;
    mkDashboardConfig "bedroom" Celsius None None None;
    mkDashboardConfig "office" Celsius
      (Some "sensor.aranet4_23f66_temperature")
      (Some "sensor.aranet4_23f66_humidity")
      (Some "sensor.aranet4_23f66_carbon_dioxide") ].

(** ** Methods: state passing with exceptions *)

(** The [throw] statements of the sources, one constructor per site and
    message; [TypeError] is a property read on [undefined] or [null];
    [SyntaxError] is what [JSON.parse] throws. *)
Inductive Error : Type :=
| SocketAlreadyConnected
| SocketNotConnected
| SendDataRequestsNotConnected
| EntityNotFound (entityId : string)
| DeviceNotFound (deviceId : option string) (entityId : string)
| AreaNotFoundForLight (areaId : option string) (entityId : string)
| DashboardAreaNotFound (areaId : string)
| DashboardNotFound (areaId : string)
| AreaNotFound (areaId : string)
| TypeError
| SyntaxError.

Inductive Result (A : Type) : Type :=
| Ok (value : A)
| Throw (error : Error).
Arguments Ok {A}.
Arguments Throw {A}.

(** A method on an instance of state [S]: the state it leaves, and what it
    returned or threw. *)
Definition Method (S A : Type) : Type := S -> S * Result A.

Definition ret {S A} (x : A) : Method S A := fun st => (st, Ok x).

Definition throw {S A} (e : Error) : Method S A := fun st => (st, Throw e).

Definition bind {S A B} (m : Method S A) (k : A -> Method S B) : Method S B :=
  fun st =>
    match m st with
    | (st', Ok x) => k x st'
    | (st', Throw e) => (st', Throw e)
    end.

Definition getState {S} : Method S S := fun st => (st, Ok st).

Definition modify {S} (f : S -> S) : Method S unit := fun st => (f st, Ok tt).

Definition liftResult {S A} (r : Result A) : Method S A := fun st => (st, r).

Notation "'do' x <- m ; k" := (bind m (fun x => k))
  (at level 10, x pattern, m at level 100, k at level 200,
   format "'[v' 'do'  x  <-  m ; '/' k ']'").
Notation "'exec' m ; k" := (bind m (fun _ => k))
  (at level 10, m at level 100, k at level 200,
   format "'[v' 'exec'  m ; '/' k ']'").

(** [for (const x of xs) body(x)] *)
Fixpoint forEach {S A} (xs : list A) (body : A -> Method S unit) : Method S unit :=
  match xs with
  | [] => ret tt
  | x :: rest => exec body x; forEach rest body
  end.

(** ** hass-ws-client/client.ts: the client *)

Inductive ClientMessageType : Type :=
| AUTH
| SUBSCRIBE_ENTITIES
| CALL_SERVICE
| GET_AREA_REGISTRY
| GET_DEVICE_REGISTRY
| GET_ENTITY_REGISTRY.

(** The payload of a [call_service] request. *)
Record ServiceCall : Type := mkServiceCall {
  sc_domain : string;
  sc_service : string;
  sc_entity_id : string;
  sc_brightness : option JS.number
}.

(** [{ ...payload, type, id }] *)
Record Message : Type := mkMessage {
  m_payload : option ServiceCall;
  m_type : ClientMessageType;
  m_id : Z
}.

(** The transport: the frames handed to [socket.send], in order, and whether
    [socket.close()] has been called on it. *)
Record WebSocket : Type := mkWebSocket {
  ws_url : string;
  ws_sent : list Message;
  ws_closeCalled : bool
}.

(** The handle of [setInterval]; [clearInterval] disarms it. *)
Record Interval : Type := mkInterval { iv_armed : bool }.

Record RequestIds : Type := mkRequestIds {
  ids_areas : Z;
  ids_devices : Z;
  ids_entities : Z;
  ids_entityStates : Z
}.

Record Client : Type := mkClient {
  connectionUrl : string;
  token : string;
  socket : option WebSocket;
  runningId : Z;
  refetchInterval : option Interval;
  ids : RequestIds
}.

Definition setSocket (v : option WebSocket) (c : Client) : Client :=
  mkClient (connectionUrl c) (token c) v (runningId c) (refetchInterval c) (ids c).
Definition setRunningId (v : Z) (c : Client) : Client :=
  mkClient (connectionUrl c) (token c) (socket c) v (refetchInterval c) (ids c).
Definition setRefetchInterval (v : option Interval) (c : Client) : Client :=
  mkClient (connectionUrl c) (token c) (socket c) (runningId c) v (ids c).
Definition setIds (v : RequestIds) (c : Client) : Client :=
  mkClient (connectionUrl c) (token c) (socket c) (runningId c) (refetchInterval c) v.

Definition MAX_SAFE_INTEGER : Z := 2 ^ 53 - 1.

Module HomeAssistantWebSocketClient.

Definition new (host token : string) (isSecure : bool) : Client :=
  let protocol := if isSecure then "wss" else "ws" in
  mkClient (protocol ++ "://" ++ host ++ "/api/websocket") token None 1 None
    (mkRequestIds 0 0 0 0).

Definition connect : Method Client unit :=
  do this <- getState;
  match socket this with
  | Some _ => throw SocketAlreadyConnected
  | None =>
      exec modify (setRunningId 1);
      let socket := mkWebSocket (connectionUrl this) [] false in
      exec modify (setSocket (Some socket));
      modify (setRefetchInterval (Some (mkInterval true)))
  end.

Definition close : Method Client unit :=
  do this <- getState;
  match socket this with
  | Some sock =>
      exec (match refetchInterval this with
            | Some _ => modify (setRefetchInterval (Some (mkInterval false)))
            | None => ret tt
            end);
      modify (setSocket (Some (mkWebSocket (ws_url sock) (ws_sent sock) true)))
  | None => ret tt
  end.

(** [send].  The transport takes the frame: [socket.send] of the [ws]
    library throws while the socket is still connecting, so the model is
    that of a socket that has opened, as it has once a frame of the server
    has arrived. *)
Definition send (type : ClientMessageType) (payload : option ServiceCall)
  : Method Client Z :=
  do this <- getState;
  match socket this with
  | None => throw SocketNotConnected
  | Some sock =>
      let id := runningId this in
      let message := mkMessage payload type id in
      exec modify (setSocket (Some
             (mkWebSocket (ws_url sock) (ws_sent sock ++ [message])
                (ws_closeCalled sock))));
      exec modify (setRunningId
             (if MAX_SAFE_INTEGER <=? runningId this + 1 then 1
              else runningId this + 1));
      ret id
  end.

Definition sendDataRequests : Method Client unit :=
  do this <- getState;
  match socket this with
  | None => throw SendDataRequestsNotConnected
  | Some _ =>
      do i <- send GET_AREA_REGISTRY None;
      exec modify (fun c => setIds (mkRequestIds i (ids_devices (ids c))
                    (ids_entities (ids c)) (ids_entityStates (ids c))) c);
      do i <- send GET_DEVICE_REGISTRY None;
      exec modify (fun c => setIds (mkRequestIds (ids_areas (ids c)) i
                    (ids_entities (ids c)) (ids_entityStates (ids c))) c);
      do i <- send GET_ENTITY_REGISTRY None;
      exec modify (fun c => setIds (mkRequestIds (ids_areas (ids c))
                    (ids_devices (ids c)) i (ids_entityStates (ids c))) c);
      do i <- send SUBSCRIBE_ENTITIES None;
      modify (fun c => setIds (mkRequestIds (ids_areas (ids c))
                (ids_devices (ids c)) (ids_entities (ids c)) i) c)
  end.

Definition sendToggleLight (entityId : string) : Method Client unit :=
  exec send CALL_SERVICE (Some (mkServiceCall "light" "toggle" entityId None));
  ret tt.

Definition sendTurnOnLight (entityId : string) (brightness : option JS.number)
  : Method Client unit :=
  exec send CALL_SERVICE (Some (mkServiceCall "light" "turn_on" entityId brightness));
  ret tt.

Definition sendTurnOffLight (entityId : string) : Method Client unit :=
  exec send CALL_SERVICE (Some (mkServiceCall "light" "turn_off" entityId None));
  ret tt.

End HomeAssistantWebSocketClient.


(** ** data-manager/data-manager.ts *)

Definition getStateEntityDeviceForEntityId (entityId : string)
    (devices : list HassDevice) (entities : list HassEntity)
    (entityStates : Dict.t HassEntityState)
  : Result (option HassEntityState * HassEntity * HassDevice) :=
  let state := Dict.get entityStates entityId in
  match list_find (fun e => he_entity_id e = entityId) entities with
  | None => Throw (EntityNotFound entityId)
  | Some (_, entity) =>
      match list_find (fun d => Some (hd_id d) = he_device_id entity) devices with
      | None => Throw (DeviceNotFound (he_device_id entity) entityId)
      | Some (_, device) => Ok (state, entity, device)
      end
  end.

Record IncomingData : Type := mkIncomingData {
  in_areas : option (list HassArea);
  in_devices : option (list HassDevice);
  in_entities : option (list HassEntity);
  in_entityStates : option (Dict.t HassEntityState)
}.

(** The instance state of [DataManager], with the store of [Light[]] arrays
    its areas point into.  [data.floors] and [data.users] are empty when
    constructed and no method reads or writes them; they are left out. *)
Record DataManager : Type := mkDataManager {
  wsClient : Client;
  data_areas : list Area;
  store : list (list Light);
  incomingData : IncomingData
}.

Definition setWsClient (v : Client) (dm : DataManager) : DataManager :=
  mkDataManager v (data_areas dm) (store dm) (incomingData dm).
Definition setAreas (v : list Area) (dm : DataManager) : DataManager :=
  mkDataManager (wsClient dm) v (store dm) (incomingData dm).
Definition setStore (v : list (list Light)) (dm : DataManager) : DataManager :=
  mkDataManager (wsClient dm) (data_areas dm) v (incomingData dm).
Definition setIncomingData (v : IncomingData) (dm : DataManager) : DataManager :=
  mkDataManager (wsClient dm) (data_areas dm) (store dm) v.

(** The array an area's [lights] field points to. *)
Definition lightsAt (st : list (list Light)) (r : ArrayRef) : list Light :=
  default [] (st !! r).

Definition setLights (r : ArrayRef) (arr : list Light) (dm : DataManager) : DataManager :=
  setStore (<[r := arr]> (store dm)) dm.

Definition withLights (v : ArrayRef) (x : Area) : Area :=
  mkArea (a_id x) (a_name x) (a_floorId x) v (a_humiditySensor x)
    (a_temperatureSensor x) (a_carbonDioxideSensor x).
Definition withHumiditySensor (v : option HumiditySensor) (x : Area) : Area :=
  mkArea (a_id x) (a_name x) (a_floorId x) (a_lights x) v
    (a_temperatureSensor x) (a_carbonDioxideSensor x).
Definition withTemperatureSensor (v : option TemperatureSensor) (x : Area) : Area :=
  mkArea (a_id x) (a_name x) (a_floorId x) (a_lights x) (a_humiditySensor x)
    v (a_carbonDioxideSensor x).
Definition withCarbonDioxideSensor (v : option CarbonDioxideSensor) (x : Area) : Area :=
  mkArea (a_id x) (a_name x) (a_floorId x) (a_lights x) (a_humiditySensor x)
    (a_temperatureSensor x) v.

Definition withLightState (v : LightState) (x : Light) : Light :=
  mkLight (l_areaId x) (l_areaName x) (l_deviceId x) (l_deviceName x)
    (l_entityId x) v (l_brightnessPercentage x) (l_rgbColor x).
Definition withBrightnessPercentage (v : option JS.number) (x : Light) : Light :=
  mkLight (l_areaId x) (l_areaName x) (l_deviceId x) (l_deviceName x)
    (l_entityId x) (l_state x) v (l_rgbColor x).
Definition withRgbColor (v : option (list JsValue)) (x : Light) : Light :=
  mkLight (l_areaId x) (l_areaName x) (l_deviceId x) (l_deviceName x)
    (l_entityId x) (l_state x) (l_brightnessPercentage x) v.

Definition withState {U} (v : SensorState) (x : Sensor U) : Sensor U :=
  mkSensor (s_areaId x) (s_areaName x) (s_deviceId x) (s_deviceName x)
    (s_entityId x) v (s_unitOfMeasurement x).
Definition withUnitOfMeasurement {U} (v : U) (x : Sensor U) : Sensor U :=
  mkSensor (s_areaId x) (s_areaName x) (s_deviceId x) (s_deviceName x)
    (s_entityId x) (s_state x) v.

(** [{ ...currentState, ...change }]: a field of the patch wins. *)
Definition mergeEntityState (currentState : option HassEntityState)
    (change : HassEntityState) : HassEntityState :=
  match currentState with
  | None => change
  | Some cur =>
      mkHassEntityState
        (match hs_s change with Some v => Some v | None => hs_s cur end)
        (match hs_a change with Some v => Some v | None => hs_a cur end)
  end.

(** [this.data.areas.find((a) => a.id === areaId)], with the position of the
    object found, since the callers assign to its fields. *)
Definition findArea (areaId : option string) (areas : list Area) : option (nat * Area) :=
  list_find (fun x => Some (a_id x) = areaId) areas.

Module DM.

Definition new (wsClient : Client) : DataManager :=
  mkDataManager wsClient [] [] (mkIncomingData None None None None).

Definition liftClient {A} (m : Method Client A) : Method DataManager A :=
  fun this =>
    let '(c, r) := m (wsClient this) in (setWsClient c this, r).

(** The object literal of the [map] callback of [updateAreas]: the defaults,
    overridden by the spread of the stale area when there is one, then the
    three registry fields.  [fresh] is the array the literal [[]] allocates. *)
Definition mergedArea (staleAreas : list Area) (fresh : ArrayRef) (area : HassArea)
  : Area :=
let staleArea := list_find (fun x => a_id x = ha_area_id area) staleAreas in
let literal := mkArea "" "" None fresh None None None in
let spread := match staleArea with
              | Some (_, stale) => stale
              | None => literal
              end in
mkArea (ha_area_id area) (ha_name area) (ha_floor_id area)
  (a_lights spread) (a_humiditySensor spread)
  (a_temperatureSensor spread) (a_carbonDioxideSensor spread).

(** One iteration of the [map] callback: the allocation, then the literal. *)
Definition mergeArea (staleAreas : list Area) (area : HassArea)
  : Method DataManager Area :=
do this <- getState;
let fresh := length (store this) in
exec modify (setStore (store this ++ [[]]));
ret (mergedArea staleAreas fresh area).

Fixpoint mapAreas (staleAreas : list Area) (areas : list HassArea)
  : Method DataManager (list Area) :=
  match areas with
  | [] => ret []
  | area :: rest =>
      do x <- mergeArea staleAreas area;
      do xs <- mapAreas staleAreas rest;
      ret (x :: xs)
  end.

Definition updateAreas (areas : list HassArea) : Method DataManager unit :=
  do this <- getState;
  let staleAreas := data_areas this in
  do fresh <- mapAreas staleAreas areas;
  modify (setAreas fresh).

Definition lightPrefix : string := EntityTypes_light ++ ".".

(** [findIndex] on the area's array, then the replacement of the light
    found or the [push]. *)
Definition upsertLight (r : ArrayRef) (light : Light) (st : list (list Light))
  : list (list Light) :=
let arr := lightsAt st r in
match list_find (fun l => l_entityId l = l_entityId light) arr with
| Some (existingLightIndex, _) => <[r := <[existingLightIndex := light]> arr]> st
| None => <[r := (arr ++ [light])%list]> st
end.

(** The body of the loop of [updateLights], for one key. *)
Definition updateLight (devices : list HassDevice) (entities : list HassEntity)
    (entityStates : Dict.t HassEntityState) (entityId : string)
  : Method DataManager unit :=
if negb (JS.startsWith entityId lightPrefix) then ret tt
else
  do (state, _, device) <-
    liftResult (getStateEntityDeviceForEntityId entityId devices
                  entities entityStates);
  do this <- getState;
  match findArea (hd_area_id device) (data_areas this) with
  | None => throw (AreaNotFoundForLight (hd_area_id device) entityId)
  | Some (_, area) =>
      match state with
      | None => throw TypeError
      | Some state =>
          match hs_a state with
          | None => throw TypeError
          | Some attributes =>
              let light :=
                mkLight (a_id area) (a_name area) (Some (hd_id device))
                  (hd_name device) entityId
                  (getLightState (hs_s state))
                  (getBrightnessPercentage (Dict.get attributes "brightness"))
                  (getRBGColor (Dict.get attributes "rgb_color")) in
              modify (fun this =>
                setStore (upsertLight (a_lights area) light (store this)) this)
          end
      end
  end.

Definition updateLights (devices : list HassDevice) (entities : list HassEntity)
    (entityStates : Dict.t HassEntityState) : Method DataManager unit :=
forEach (Dict.keys entityStates) (updateLight devices entities entityStates).

(** An assignment to a field of the object [find] returned: the area at the
    position found is altered in place. *)
Definition assignArea (i : nat) (f : Area -> Area) : Method DataManager unit :=
modify (fun this => setAreas (alter f i (data_areas this)) this).

(** The body of the inner loop of [updateSensors], for one key and one
    dashboard. *)
Definition updateSensor (devices : list HassDevice) (entities : list HassEntity)
    (entityStates : Dict.t HassEntityState) (entityId : string)
    (dashboard : DashboardConfig) : Method DataManager unit :=
    do this <- getState;
    match findArea (Some (dc_areaId dashboard)) (data_areas this) with
    | None => throw (DashboardAreaNotFound (dc_areaId dashboard))
    | Some (i, area) =>
        if decide (Some entityId = dc_humiditySensorEntityId dashboard) then
          do (state, _, device) <-
            liftResult (getStateEntityDeviceForEntityId entityId devices
                          entities entityStates);
          match state with
          | None => throw TypeError
          | Some state =>
              assignArea i (withHumiditySensor (Some
                (mkSensor (a_id area) (a_name area) (Some (hd_id device))
                   (hd_name device) entityId
                   (getNumericSensorState (JsString <$> hs_s state))
                   Percent)))
          end
        else if decide (Some entityId = dc_temperatureSensorEntityId dashboard) then
          do (state, _, device) <-
            liftResult (getStateEntityDeviceForEntityId entityId devices
                          entities entityStates);
          match state with
          | None => throw TypeError
          | Some state =>
              let unitOfMeasurement :=
                default (dc_temperatureUnitOfMeasurement dashboard)
                  (getTemperatureUnitOfMeasurement
                     (attributes ← hs_a state;
                      Dict.get attributes "unit_of_measurement")) in
              let value := getNumericSensorState (JsString <$> hs_s state) in
              let temperatureValue :=
                calcTemperatureValue value unitOfMeasurement
                  (dc_temperatureUnitOfMeasurement dashboard) in
              assignArea i (withTemperatureSensor (Some
                (mkSensor (a_id area) (a_name area) (Some (hd_id device))
                   (hd_name device) entityId temperatureValue
                   unitOfMeasurement)))
          end
        else if decide (Some entityId = dc_carbonDioxideSensorEntityId dashboard) then
          do (state, _, device) <-
            liftResult (getStateEntityDeviceForEntityId entityId devices
                          entities entityStates);
          match state with
          | None => throw TypeError
          | Some state =>
              assignArea i (withCarbonDioxideSensor (Some
                (mkSensor (a_id area) (a_name area) (Some (hd_id device))
                   (hd_name device) entityId
                   (getNumericSensorState (JsString <$> hs_s state))
                   Ppm)))
          end
        else ret tt
    end.

Definition updateSensors (devices : list HassDevice) (entities : list HassEntity)
    (entityStates : Dict.t HassEntityState) : Method DataManager unit :=
forEach (Dict.keys entityStates) (fun entityId =>
  forEach dashboardConfigs (updateSensor devices entities entityStates entityId)).

(** The guard of [syncData]: all four buffers hold a value. *)
Definition allPresent (i : IncomingData) : bool :=
match in_areas i, in_devices i, in_entities i, in_entityStates i with
| Some _, Some _, Some _, Some _ => true
| _, _, _, _ => false
end.

(** The body of [syncData] under its guard: the full rebuild and the clearing
    of the four buffers. *)
Definition rebuild (areas : list HassArea) (devices : list HassDevice)
    (entities : list HassEntity) (entityStates : Dict.t HassEntityState)
  : Method DataManager unit :=
exec updateAreas areas;
exec updateLights devices entities entityStates;
exec updateSensors devices entities entityStates;
modify (setIncomingData (mkIncomingData None None None None)).

Definition syncData : Method DataManager unit :=
do this <- getState;
match in_areas (incomingData this), in_devices (incomingData this),
      in_entities (incomingData this), in_entityStates (incomingData this) with
| Some areas, Some devices, Some entities, Some entityStates =>
    rebuild areas devices entities entityStates
| _, _, _, _ => ret tt
end.

Definition updateCarbonDioxideSensor (areaId : string) (state : HassEntityState)
  : Method DataManager unit :=
do this <- getState;
match findArea (Some areaId) (data_areas this) with
| None => throw (AreaNotFound areaId)
| Some (i, area) =>
    match a_carbonDioxideSensor area with
    | None => ret tt
    | Some sensor =>
        assignArea i (withCarbonDioxideSensor (Some
          (withUnitOfMeasurement Ppm
             (withState (getNumericSensorState (JsString <$> hs_s state)) sensor))))
    end
end.

Definition updateHumiditySensor (areaId : string) (state : HassEntityState)
  : Method DataManager unit :=
do this <- getState;
match findArea (Some areaId) (data_areas this) with
| None => throw (AreaNotFound areaId)
| Some (i, area) =>
    match a_humiditySensor area with
    | None => ret tt
    | Some sensor =>
        assignArea i (withHumiditySensor (Some
          (withUnitOfMeasurement Percent
             (withState (getNumericSensorState (JsString <$> hs_s state)) sensor))))
    end
end.

Definition updateTemperatureSensor (areaId : string) (state : HassEntityState)
  : Method DataManager unit :=
match list_find (fun d => dc_areaId d = areaId) dashboardConfigs with
| None => throw (DashboardNotFound areaId)
| Some (_, dashboard) =>
    do this <- getState;
    match findArea (Some areaId) (data_areas this) with
    | None => throw (AreaNotFound areaId)
    | Some (i, area) =>
        match a_temperatureSensor area with
        | None => ret tt
        | Some sensor =>
            let unitOfMeasurement :=
              default (dc_temperatureUnitOfMeasurement dashboard)
                (getTemperatureUnitOfMeasurement
                   (attributes ← hs_a state;
                    Dict.get attributes "unit_of_measurement")) in
            let value := getNumericSensorState (JsString <$> hs_s state) in
            let temperatureValue :=
              calcTemperatureValue value unitOfMeasurement
                (dc_temperatureUnitOfMeasurement dashboard) in
            assignArea i (withTemperatureSensor (Some
              (withUnitOfMeasurement unitOfMeasurement
                 (withState temperatureValue sensor))))
        end
    end
end.

(** The assignments of [updateLightState] to the light it found. *)
Definition patchLight (entityState : HassEntityState) (light : Light) : Light :=
let light := withLightState (getLightState (hs_s entityState)) light in
match hs_a entityState with
| Some attributes =>
    withRgbColor (getRBGColor (Dict.get attributes "rgb_color"))
      (withBrightnessPercentage
         (getBrightnessPercentage (Dict.get attributes "brightness")) light)
| None => light
end.

(** The loop of [updateLightState] over the areas still to visit. *)
Fixpoint updateLightStateIn (areas : list Area) (entityId : string)
    (entityState : HassEntityState) : Method DataManager (option string) :=
match areas with
| [] => ret None
| area :: rest =>
    do this <- getState;
    let arr := lightsAt (store this) (a_lights area) in
    match list_find (fun l => l_entityId l = entityId) arr with
    | Some (i, light) =>
        exec modify (setLights (a_lights area)
               (<[i := patchLight entityState light]> arr));
        ret (Some (a_id area))
    | None => updateLightStateIn rest entityId entityState
    end
end.

Definition updateLightState (entityId : string) (entityState : HassEntityState)
  : Method DataManager (option string) :=
do this <- getState;
updateLightStateIn (data_areas this) entityId entityState.

(** The events of the client's emitter that [start] subscribes to. *)
Inductive Event : Type :=
| EvAreas (areas : list HassArea)
| EvDevices (devices : list HassDevice)
| EvEntities (entities : list HassEntity)
| EvEntityStates (entitiesMap : Dict.t HassEntityState)
| EvEntityStateChange (changes : Dict.t HassEntityState).

Definition withInAreas v (i : IncomingData) : IncomingData :=
mkIncomingData v (in_devices i) (in_entities i) (in_entityStates i).
Definition withInDevices v (i : IncomingData) : IncomingData :=
mkIncomingData (in_areas i) v (in_entities i) (in_entityStates i).
Definition withInEntities v (i : IncomingData) : IncomingData :=
mkIncomingData (in_areas i) (in_devices i) v (in_entityStates i).
Definition withInEntityStates v (i : IncomingData) : IncomingData :=
mkIncomingData (in_areas i) (in_devices i) (in_entities i) v.

Definition modifyIncoming (f : IncomingData -> IncomingData)
  : Method DataManager unit :=
modify (fun this => setIncomingData (f (incomingData this)) this).

(** The two regimes of the [entity_state_change] listener, for one key of
    [changes].  [change] is [changes[entityId]["+"]]. *)
Definition mergeIntoBuffer (entityId : string) (change : HassEntityState)
  : Method DataManager unit :=
modifyIncoming (fun i =>
  match in_entityStates i with
  | Some buffer =>
      withInEntityStates
        (Some (Dict.set buffer entityId
                 (mergeEntityState (Dict.get buffer entityId) change))) i
  | None => i
  end).

Definition applyToModel (entityId : string) (change : HassEntityState)
  : Method DataManager unit :=
if JS.startsWith entityId lightPrefix then
  do areaId <- updateLightState entityId change;
  ret tt
else
  forEach dashboardConfigs (fun dashboard =>
    if decide (Some entityId = dc_carbonDioxideSensorEntityId dashboard) then
      updateCarbonDioxideSensor (dc_areaId dashboard) change
    else if decide (Some entityId = dc_humiditySensorEntityId dashboard) then
      updateHumiditySensor (dc_areaId dashboard) change
    else if decide (Some entityId = dc_temperatureSensorEntityId dashboard) then
      updateTemperatureSensor (dc_areaId dashboard) change
    else ret tt).

Definition onEntityStateChange (changes : Dict.t HassEntityState)
  : Method DataManager unit :=
do this <- getState;
let each (body : string -> HassEntityState -> Method DataManager unit) :=
  forEach (Dict.keys changes) (fun entityId =>
    match Dict.get changes entityId with
    | None => throw TypeError
    | Some change => body entityId change
    end) in
match in_entityStates (incomingData this) with
| Some _ => each mergeIntoBuffer
| None => each applyToModel
end.

(** The listener [start] registers for each event. *)
Definition handle (ev : Event) : Method DataManager unit :=
match ev with
| EvAreas areas =>
    exec modifyIncoming (withInAreas (Some areas)); syncData
| EvDevices devices =>
    exec modifyIncoming (withInDevices (Some devices)); syncData
| EvEntities entities =>
    exec modifyIncoming (withInEntities (Some entities)); syncData
| EvEntityStates entitiesMap =>
    exec modifyIncoming (withInEntityStates (Some entitiesMap)); syncData
| EvEntityStateChange changes => onEntityStateChange changes
end.

Definition start : Method DataManager unit :=
liftClient HomeAssistantWebSocketClient.connect.

Definition cleanup : Method DataManager unit :=
liftClient HomeAssistantWebSocketClient.close.

Definition getLights (areaId : string) : Method DataManager (list Light) :=
do this <- getState;
match findArea (Some areaId) (data_areas this) with
| None => throw (AreaNotFound areaId)
| Some (_, area) => ret (lightsAt (store this) (a_lights area))
end.

Definition getAverageBrightness (areaId : string) : Method DataManager JS.number :=
do lights <- getLights areaId;
if (length lights =? 0)%nat then ret 0%Q
else
  let totalBrightness :=
    fold_left (fun acc light =>
                 (acc + default 0 (l_brightnessPercentage light))%Q)
      lights 0%Q in
  ret (totalBrightness / inject_Z (Z.of_nat (length lights)))%Q.

(** [number | "unavailable"] interpolated into a template literal. *)
Definition readingString {U} (unitString : U -> string) (sensor : Sensor U) : string :=
match s_state sensor with
| SensorUnavailable => "unavailable"
| Reading str => JS.numberToString str ++ " " ++ unitString (s_unitOfMeasurement sensor)
end.

Definition getHumidityInsideReading (areaId : string)
  : Method DataManager (option string) :=
do this <- getState;
match findArea (Some areaId) (data_areas this) with
| None => throw (AreaNotFound areaId)
| Some (_, area) =>
    ret (readingString humidityUnitString <$> a_humiditySensor area)
end.

Definition getTemperatureInsideReading (areaId : string)
  : Method DataManager (option string) :=
do this <- getState;
match findArea (Some areaId) (data_areas this) with
| None => throw (AreaNotFound areaId)
| Some (_, area) =>
    ret (readingString temperatureUnitString <$> a_temperatureSensor area)
end.

Definition getCarbonDioxideInsideReading (areaId : string)
  : Method DataManager (option string) :=
do this <- getState;
match findArea (Some areaId) (data_areas this) with
| None => throw (AreaNotFound areaId)
| Some (_, area) =>
    ret (readingString carbonDioxideUnitString <$> a_carbonDioxideSensor area)
end.

Inductive DangerLevel : Type := LevelUnknown | LevelDanger | LevelSafe.

(** The classification of a reading; [NaN > 1000] is false. *)
Definition classifyReading (reading : option string) : DangerLevel :=
match reading with
| None => LevelUnknown
| Some reading =>
    if String.eqb reading "" || String.eqb reading "unavailable" then LevelUnknown
    else
      match JS.parseInt (JS.splitSpaceHead reading) None with
      | Some value => if 1000 <? value then LevelDanger else LevelSafe
      | None => LevelSafe
      end
end.

Definition getCarbonDioxideDangerLevel (areaId : string)
  : Method DataManager DangerLevel :=
do reading <- getCarbonDioxideInsideReading areaId;
ret (classifyReading reading).

Definition turnOffLight (entityId : string) : Method DataManager unit :=
liftClient (HomeAssistantWebSocketClient.sendTurnOffLight entityId).

Definition turnOnLight (entityId : string) : Method DataManager unit :=
liftClient (HomeAssistantWebSocketClient.sendTurnOnLight entityId None).

Definition dimLight (entityId : string) (brightnessPercentage : JS.number)
  : Method DataManager unit :=
let brightness := getBrightnessValue (Some brightnessPercentage) in
if Qeq_bool brightness 0 then turnOffLight entityId
else liftClient (HomeAssistantWebSocketClient.sendTurnOnLight entityId (Some brightness)).

Definition lightState_eqb (x y : LightState) : bool :=
match x, y with
| On, On | Off, Off | Unavailable, Unavailable => true
| _, _ => false
end.

Definition turnOffAllLights (areaId : string) : Method DataManager unit :=
do lights <- getLights areaId;
forEach lights (fun light =>
  if lightState_eqb (l_state light) On then turnOffLight (l_entityId light)
  else ret tt).

Definition turnOnAllLights (areaId : string) : Method DataManager unit :=
do lights <- getLights areaId;
forEach lights (fun light =>
  if lightState_eqb (l_state light) Off then turnOnLight (l_entityId light)
  else ret tt).

Definition dimAllLights (areaId : string) (brightnessPercentage : JS.number)
  : Method DataManager unit :=
do lights <- getLights areaId;
forEach lights (fun light => dimLight (l_entityId light) brightnessPercentage).

End DM.

(** ** Observations and sample data, used to state the properties *)

Import DM.
Local Open Scope list_scope.

(** The frames handed to the transport so far. *)
Definition sentMessages (dm : DataManager) : list Message :=
match socket (wsClient dm) with
| Some sock => ws_sent sock
| None => []
end.

(** The payload of [sendTurnOnLight(entityId)] / [sendTurnOffLight(entityId)]. *)
Definition lightCommand (service entityId : string) : option ServiceCall :=
Some (mkServiceCall "light" service entityId None).

(** The events of a list delivered one after the other; an exception ends
    the listener that threw, not the delivery of later events. *)
Fixpoint deliver (evs : list Event) (dm : DataManager) : DataManager :=
match evs with
| [] => dm
| ev :: rest => deliver rest (fst (handle ev dm))
end.

(** What each listener returned or threw. *)
Fixpoint outcomes (evs : list Event) (dm : DataManager) : list (Result unit) :=
match evs with
| [] => []
| ev :: rest => snd (handle ev dm) :: outcomes rest (fst (handle ev dm))
end.

(** A hub with the four areas of the dashboard table and one lamp on the
    desk of the office. *)
Definition sampleAreas : list HassArea :=
[ mkHassArea "living_room" None "Living room";
  mkHassArea "kitchen" None "Kitchen";
  mkHassArea "bedroom" None "Bedroom";
  mkHassArea "office" None "Office" ].

Definition sampleDevices : list HassDevice :=
[ mkHassDevice (Some "office") "d1" None None "Desk lamp" None ].

Definition sampleEntities : list HassEntity :=
[ mkHassEntity (Some "d1") "light.desk" ].

Definition sampleStates (state : string) : Dict.t HassEntityState :=
[ ("light.desk",
   mkHassEntityState (Some state) (Some [("brightness", JsNumber 128%Q)])) ].

Definition sampleQuartet (state : string) : list Event :=
[ EvDevices sampleDevices; EvEntities sampleEntities; EvAreas sampleAreas;
  EvEntityStates (sampleStates state) ].

(** A manager started on a fresh client. *)
Definition started : DataManager :=
fst (start (new (HomeAssistantWebSocketClient.new "hub.local:8123" "token" false))).

(** A rendered decimal digit. *)
Definition plainDigit (c : ascii) : Prop :=
exists d, 0 <= d <= 9 /\ c = JS.digitChar d.

(** A tail that cannot continue an integer: the end of the string, or the
    dot of a fraction. *)
Definition endsNumber (tl : string) : Prop :=
tl = "" \/ exists rest, tl = String "." rest.

(** The sample hub with a carbon dioxide sensor in the living room. *)
Definition sensorDevices : list HassDevice :=
sampleDevices ++ [ mkHassDevice (Some "living_room") "d2" None None "Aranet4" None ].

Definition sensorEntities : list HassEntity :=
sampleEntities ++ [ mkHassEntity (Some "d2") "sensor.aranet4_23eff_carbon_dioxide" ].

Definition sensorStates (carbonDioxide : string) : Dict.t HassEntityState :=
sampleStates "on" ++
[ ("sensor.aranet4_23eff_carbon_dioxide",
   mkHassEntityState (Some carbonDioxide)
     (Some [("unit_of_measurement", JsString "ppm")])) ].

Definition sensorQuartet (carbonDioxide : string) : list Event :=
[ EvAreas sampleAreas; EvDevices sensorDevices; EvEntities sensorEntities;
  EvEntityStates (sensorStates carbonDioxide) ].

(** The area's array holds a light with this entity id. *)
Definition holdsLight (dm : DataManager) (entityId : string) (area : Area) : Prop :=
is_Some (list_find (fun l => l_entityId l = entityId)
           (lightsAt (store dm) (a_lights area))).

(** ** Pure counterparts of the loops, used in the proofs *)

(** The areas [updateAreas] builds: the [k]-th one gets the [k]-th array
    allocated. *)
Fixpoint mergedAreas (staleAreas : list Area) (fresh : ArrayRef)
    (areas : list HassArea) : list Area :=
match areas with
| [] => []
| area :: rest =>
    mergedArea staleAreas fresh area :: mergedAreas staleAreas (S fresh) rest
end.

(** What [updateLight] does for one key, as a function of the area list:
    nothing (not a light), the array and the light it stores, or the error
    it throws. *)
Definition deriveLight (areas : list Area) (devices : list HassDevice)
    (entities : list HassEntity) (entityStates : Dict.t HassEntityState)
    (entityId : string) : Result (option (ArrayRef * Light)) :=
if negb (JS.startsWith entityId lightPrefix) then Ok None
else
  match getStateEntityDeviceForEntityId entityId devices entities entityStates with
  | Throw e => Throw e
  | Ok (state, _, device) =>
      match findArea (hd_area_id device) areas with
      | None => Throw (AreaNotFoundForLight (hd_area_id device) entityId)
      | Some (_, area) =>
          match state with
          | None => Throw TypeError
          | Some state =>
              match hs_a state with
              | None => Throw TypeError
              | Some attributes =>
                  Ok (Some (a_lights area,
                            mkLight (a_id area) (a_name area) (Some (hd_id device))
                              (hd_name device) entityId
                              (getLightState (hs_s state))
                              (getBrightnessPercentage
                                 (Dict.get attributes "brightness"))
                              (getRBGColor (Dict.get attributes "rgb_color"))))
              end
          end
      end
  end.

(** The store after the keys of a list, and whether one of them threw. *)
Fixpoint storeLights (derive : string -> Result (option (ArrayRef * Light)))
    (keys : list string) (st : list (list Light))
  : list (list Light) * Result unit :=
match keys with
| [] => (st, Ok tt)
| key :: rest =>
    match derive key with
    | Ok None => storeLights derive rest st
    | Ok (Some (r, light)) => storeLights derive rest (upsertLight r light st)
    | Throw e => (st, Throw e)
    end
end.

(** An assignment of [updateSensors] to a sensor field of the area at a
    position. *)
Inductive SensorOp : Type :=
| SetHumiditySensor (i : nat) (sensor : HumiditySensor)
| SetTemperatureSensor (i : nat) (sensor : TemperatureSensor)
| SetCarbonDioxideSensor (i : nat) (sensor : CarbonDioxideSensor).

Definition runOp (op : SensorOp) (areas : list Area) : list Area :=
match op with
| SetHumiditySensor i sensor => alter (withHumiditySensor (Some sensor)) i areas
| SetTemperatureSensor i sensor => alter (withTemperatureSensor (Some sensor)) i areas
| SetCarbonDioxideSensor i sensor => alter (withCarbonDioxideSensor (Some sensor)) i areas
end.

(** What [updateSensor] does for one key and one dashboard, as a function of
    the area list. *)
Definition deriveSensor (areas : list Area) (devices : list HassDevice)
    (entities : list HassEntity) (entityStates : Dict.t HassEntityState)
    (visit : string * DashboardConfig) : Result (option SensorOp) :=
let '(entityId, dashboard) := visit in
match findArea (Some (dc_areaId dashboard)) areas with
| None => Throw (DashboardAreaNotFound (dc_areaId dashboard))
| Some (i, area) =>
    let found :=
      getStateEntityDeviceForEntityId entityId devices entities entityStates in
    let sensor {U} (state : SensorState) (u : U) (device : HassDevice) : Sensor U :=
      mkSensor (a_id area) (a_name area) (Some (hd_id device)) (hd_name device)
        entityId state u in
    if decide (Some entityId = dc_humiditySensorEntityId dashboard) then
      match found with
      | Throw e => Throw e
      | Ok (None, _, _) => Throw TypeError
      | Ok (Some state, _, device) =>
          Ok (Some (SetHumiditySensor i
                      (sensor (getNumericSensorState (JsString <$> hs_s state))
                         Percent device)))
      end
    else if decide (Some entityId = dc_temperatureSensorEntityId dashboard) then
      match found with
      | Throw e => Throw e
      | Ok (None, _, _) => Throw TypeError
      | Ok (Some state, _, device) =>
          let unitOfMeasurement :=
            default (dc_temperatureUnitOfMeasurement dashboard)
              (getTemperatureUnitOfMeasurement
                 (attributes ← hs_a state;
                  Dict.get attributes "unit_of_measurement")) in
          Ok (Some (SetTemperatureSensor i
                      (sensor
                         (calcTemperatureValue
                            (getNumericSensorState (JsString <$> hs_s state))
                            unitOfMeasurement
                            (dc_temperatureUnitOfMeasurement dashboard))
                         unitOfMeasurement device)))
      end
    else if decide (Some entityId = dc_carbonDioxideSensorEntityId dashboard) then
      match found with
      | Throw e => Throw e
      | Ok (None, _, _) => Throw TypeError
      | Ok (Some state, _, device) =>
          Ok (Some (SetCarbonDioxideSensor i
                      (sensor (getNumericSensorState (JsString <$> hs_s state))
                         Ppm device)))
      end
    else Ok None
end.

(** The area list after the pairs of a list, and whether one of them threw. *)
Fixpoint assignSensors (derive : list Area -> string * DashboardConfig -> Result (option SensorOp))
    (pairs : list (string * DashboardConfig)) (areas : list Area)
  : list Area * Result unit :=
match pairs with
| [] => (areas, Ok tt)
| visit :: rest =>
    match derive areas visit with
    | Ok None => assignSensors derive rest areas
    | Ok (Some op) => assignSensors derive rest (runOp op areas)
    | Throw e => (areas, Throw e)
    end
end.

(** The pairs the two loops of [updateSensors] visit, in order. *)
Definition sensorPairs (keys : list string) : list (string * DashboardConfig) :=
key ← keys; (fun dashboard => (key, dashboard)) <$> dashboardConfigs.

(** ** The staged buffers *)

Inductive RegistryKind : Type := KAreas | KDevices | KEntities | KEntityStates.

(** The registry an event delivers; a patch delivers none. *)
Definition kindOf (ev : Event) : option RegistryKind :=
match ev with
| EvAreas _ => Some KAreas
| EvDevices _ => Some KDevices
| EvEntities _ => Some KEntities
| EvEntityStates _ => Some KEntityStates
| EvEntityStateChange _ => None
end.

(** The assignment a registry listener makes before it calls [syncData]. *)
Definition stage (ev : Event) (i : IncomingData) : IncomingData :=
match ev with
| EvAreas areas => withInAreas (Some areas) i
| EvDevices devices => withInDevices (Some devices) i
| EvEntities entities => withInEntities (Some entities) i
| EvEntityStates entitiesMap => withInEntityStates (Some entitiesMap) i
| EvEntityStateChange _ => i
end.

(** The body of [syncData] runs on this event: it is a registry event, and
    the guard holds once its payload is stored. *)
Definition rebuildRuns (ev : Event) (dm : DataManager) : bool :=
match kindOf ev with
| Some _ => allPresent (stage ev (incomingData dm))
| None => false
end.

(** For each event of a delivery, whether the rebuild ran on it. *)
Fixpoint rebuildTrace (evs : list Event) (dm : DataManager) : list bool :=
match evs with
| [] => []
| ev :: rest => rebuildRuns ev dm :: rebuildTrace rest (fst (handle ev dm))
end.

(** Every rebuild of a delivery ran to its end. *)
Fixpoint rebuildsComplete (evs : list Event) (dm : DataManager) : Prop :=
match evs with
| [] => True
| ev :: rest =>
    (rebuildRuns ev dm = true -> snd (handle ev dm) = Ok tt)
    /\ rebuildsComplete rest (fst (handle ev dm))
end.

(** Which of the four buffers hold a value. *)
Record Arrived : Type := mkArrived {
  got_areas : bool;
  got_devices : bool;
  got_entities : bool;
  got_entityStates : bool
}.

Definition arrived (i : IncomingData) : Arrived :=
mkArrived (bool_decide (is_Some (in_areas i))) (bool_decide (is_Some (in_devices i)))
  (bool_decide (is_Some (in_entities i))) (bool_decide (is_Some (in_entityStates i))).

(** The staged-buffer rule in the words of the specification: a registry
    that arrives is noted; a rebuild fires when all four have arrived, and
    the four are then forgotten; a patch neither notes nor fires. *)
Definition quartetStep (seen : Arrived) (kind : option RegistryKind) : Arrived * bool :=
match kind with
| None => (seen, false)
| Some k =>
    let seen' :=
      match k with
      | KAreas => mkArrived true (got_devices seen) (got_entities seen) (got_entityStates seen)
      | KDevices => mkArrived (got_areas seen) true (got_entities seen) (got_entityStates seen)
      | KEntities => mkArrived (got_areas seen) (got_devices seen) true (got_entityStates seen)
      | KEntityStates => mkArrived (got_areas seen) (got_devices seen) (got_entities seen) true
      end in
    if got_areas seen' && got_devices seen' && got_entities seen' && got_entityStates seen'
    then (mkArrived false false false false, true)
    else (seen', false)
end.

Fixpoint quartetFires (seen : Arrived) (kinds : list (option RegistryKind)) : list bool :=
match kinds with
| [] => []
| kind :: rest =>
    snd (quartetStep seen kind) :: quartetFires (fst (quartetStep seen kind)) rest
end.

(** A hub whose entity states name a light that the entity registry lacks. *)
Definition ghostStates : Dict.t HassEntityState :=
sampleStates "on" ++
[ ("light.ghost", mkHassEntityState (Some "on") (Some [])) ].

Definition ghostQuartet : list Event :=
[ EvAreas sampleAreas; EvDevices sampleDevices; EvEntities sampleEntities;
  EvEntityStates ghostStates ].

(** The fields of an area that the sensor assignments leave alone. *)
Definition frame (x : Area) : string * string * option string * ArrayRef :=
(a_id x, a_name x, a_floorId x, a_lights x).

(** The array at [r] holds [light] as the first light with its entity id. *)
Definition stored (st : list (list Light)) (r : ArrayRef) (light : Light) : Prop :=
exists i, list_find (fun l => l_entityId l = l_entityId light) (lightsAt st r)
          = Some (i, light).

(** The light derived for a key carries the key as its entity id. *)
Definition keyed (derive : string -> Result (option (ArrayRef * Light))) : Prop :=
forall key r light, derive key = Ok (Some (r, light)) -> l_entityId light = key.

(** Every area's [lights] field points to an allocated array. *)
Definition allocatedBelow (bound : nat) (areas : list Area) : Prop :=
Forall (fun x => (a_lights x < bound)%nat) areas.

(** The assignments of a list, one after the other. *)
Definition applyOps (ops : list SensorOp) (areas : list Area) : list Area :=
fold_left (fun acc op => runOp op acc) ops areas.

Definition opIndex (op : SensorOp) : nat :=
match op with
| SetHumiditySensor i _ | SetTemperatureSensor i _ | SetCarbonDioxideSensor i _ => i
end.

(** The sensor entity ids the dashboard table configures for an area. *)
Definition configuredSensorIds (areaId : string) : list string :=
dashboard ← dashboardConfigs;
if decide (dc_areaId dashboard = areaId)
then omap id [ dc_humiditySensorEntityId dashboard;
               dc_temperatureSensorEntityId dashboard;
               dc_carbonDioxideSensorEntityId dashboard ]
else [].

(** The shape of the manager's heap: every area points to an allocated
    array, no two areas share one, and an area registry waiting in its
    buffer lists each area id once. *)
Definition ownArrays (dm : DataManager) : Prop :=
allocatedBelow (length (store dm)) (data_areas dm)
/\ NoDup (map a_lights (data_areas dm))
/\ (forall areas, in_areas (incomingData dm) = Some areas ->
      NoDup (map ha_area_id areas)).

(** The area registry of Home Assistant names each area once
    ([area_id: string; // unique name]). *)
Definition uniqueAreaIds (ev : Event) : Prop :=
match ev with
| EvAreas areas => NoDup (map ha_area_id areas)
| _ => True
end.

(** ** index.ts: the tool handler *)

(** [handleLightControl(params)]; [state] is the text the tool call carries
    ([JSON.parse] of the arguments does no validation). *)
Definition handleLightControl (areaId state : string) : Method DataManager unit :=
if String.eqb state "on" then turnOnAllLights areaId else turnOffAllLights areaId.

(** What the manager caches of the hub: the areas, their arrays of lights,
    and the buffers. *)
Definition cache (dm : DataManager)
  : list Area * list (list Light) * IncomingData :=
(data_areas dm, store dm, incomingData dm).

(** The frame [dimLight] sends for a light. *)
Definition dimCommand (brightnessPercentage : JS.number) (entityId : string)
  : option ServiceCall :=
let brightness := getBrightnessValue (Some brightnessPercentage) in
if Qeq_bool brightness 0 then lightCommand "turn_off" entityId
else Some (mkServiceCall "light" "turn_on" entityId (Some brightness)).

(** ** What a patch may not change *)

(** Who a light is and where it is. *)
Definition lightIdentity (light : Light)
  : string * string * option string * string * string :=
(l_areaId light, l_areaName light, l_deviceId light, l_deviceName light,
 l_entityId light).

Definition sensorIdentity {U} (sensor : Sensor U)
  : string * string * option string * string * string :=
(s_areaId sensor, s_areaName sensor, s_deviceId sensor, s_deviceName sensor,
 s_entityId sensor).

(** The areas in their order, the array each one points to, which sensors
    each one has, and which lights each array lists, in their order. *)
Definition inventory (dm : DataManager) :=
(map (fun x => (frame x, sensorIdentity <$> a_humiditySensor x,
                sensorIdentity <$> a_temperatureSensor x,
                sensorIdentity <$> a_carbonDioxideSensor x)) (data_areas dm),
 map (map lightIdentity) (store dm)).

(** The sample hub with a thermometer in the living room. *)
Definition climateEntities : list HassEntity :=
sampleEntities ++ [ mkHassEntity (Some "d2") "sensor.aranet4_23eff_temperature" ].

Definition climateStates (temperature : string) (unit : TemperatureUnitOfMeasurement)
  : Dict.t HassEntityState :=
sampleStates "on" ++
[ ("sensor.aranet4_23eff_temperature",
   mkHassEntityState (Some temperature)
     (Some [("unit_of_measurement", JsString (temperatureUnitString unit))])) ].

Definition climateQuartet (temperature : string) (unit : TemperatureUnitOfMeasurement)
  : list Event :=
[ EvAreas sampleAreas; EvDevices sensorDevices; EvEntities climateEntities;
  EvEntityStates (climateStates temperature unit) ].

(** No array lists an entity id twice. *)
Definition listsOnce (st : list (list Light)) : Prop :=
Forall (fun arr => NoDup (map l_entityId arr)) st.

(** ** hass-ws-client/client.ts: the frames received and the timer *)

(** [data.event] of an [event] frame: for each of the keys ["a"] and ["c"],
    whether the object has the key ([None] when it has not) and the value
    under it ([Some None] for [null]). *)
Record ServerEvent (P : Type) : Type := mkServerEvent {
  se_a : option (option P);
  se_c : option (option P)
}.
Arguments mkServerEvent {P}.
Arguments se_a {P}.
Arguments se_c {P}.

(** A frame of the server after [JSON.parse], as far as [onmessage] reads
    it.  [P] is the type of the payloads, which the handler passes on
    without reading them.  [sm_error] is the truth value of [data.error];
    [sm_id] is [data.id] when it is an integer; [sm_result] is [None] when
    [data.result] is [null] or missing; [sm_event] is [None] when
    [data.event] is not an object. *)
Record ServerMessage (P : Type) : Type := mkServerMessage {
  sm_type : string;
  sm_error : bool;
  sm_id : option Z;
  sm_result : option P;
  sm_event : option (ServerEvent P)
}.
Arguments mkServerMessage {P}.
Arguments sm_type {P}.
Arguments sm_error {P}.
Arguments sm_id {P}.
Arguments sm_result {P}.
Arguments sm_event {P}.

(** The events of [eventEmitter]. *)
Inductive Channel : Type :=
| ChAreas
| ChDevices
| ChEntities
| ChEntityStates
| ChEntityStateChange.

(** What the handler does besides changing the instance: an [emit], or the
    authentication frame [{ type: "auth", access_token }], which has no id
    and goes to the socket without passing through [send]. *)
Inductive Output (P : Type) : Type :=
| Emit (channel : Channel) (payload : P)
| AuthFrame (access_token : string).
Arguments Emit {P}.
Arguments AuthFrame {P}.

(** [socket.close()] on the transport. *)
Definition closeSocket (sock : WebSocket) : WebSocket :=
mkWebSocket (ws_url sock) (ws_sent sock) true.

(** [this.log(..., data.result.length); this.eventEmitter.emit(channel,
    data.result)]: reading [length] throws on [null] and [undefined]. *)
Definition emitResult {P} (channel : Channel) (data : ServerMessage P)
  : Method Client (list (Output P)) :=
match sm_result data with
| None => throw TypeError
| Some result => ret [Emit channel result]
end.

(** [this.log(..., Object.keys(value)); this.eventEmitter.emit(channel,
    value)]: [Object.keys] throws on [null] and [undefined]. *)
Definition emitEvent {P} (channel : Channel) (value : option P)
  : Method Client (list (Output P)) :=
match value with
| None => throw TypeError
| Some value => ret [Emit channel value]
end.

(** [socket.onmessage].  The handler closes over the socket that [connect]
    created, which is [this.socket]: the field is assigned once. *)
Definition onmessage {P} (data : ServerMessage P) : Method Client (list (Output P)) :=
do this <- getState;
let serverMessageType := sm_type data in
if String.eqb serverMessageType "auth_required" then
  ret [AuthFrame (token this)]
else if String.eqb serverMessageType "auth_invalid" then
  exec modify (fun c => setSocket (closeSocket <$> socket c) c);
  ret []
else if String.eqb serverMessageType "auth_ok" then
  exec HomeAssistantWebSocketClient.sendDataRequests;
  ret []
else if String.eqb serverMessageType "result" then
  if sm_error data then ret []
  else if decide (sm_id data = Some (ids_areas (ids this))) then
    emitResult ChAreas data
  else if decide (sm_id data = Some (ids_devices (ids this))) then
    emitResult ChDevices data
  else if decide (sm_id data = Some (ids_entities (ids this))) then
    emitResult ChEntities data
  else if decide (sm_id data = Some (ids_entityStates (ids this))) then
    ret []
  else ret []
else if String.eqb serverMessageType "event" then
  match sm_event data with
  | None => throw TypeError
  | Some event =>
      match se_a event with
      | Some a => emitEvent ChEntityStates a
      | None =>
          match se_c event with
          | Some c => emitEvent ChEntityStateChange c
          | None => ret []
          end
      end
  end
else ret [].

(** The callback of [setInterval], every three minutes. *)
Definition onInterval : Method Client unit :=
do this <- getState;
match socket this with
| Some _ => HomeAssistantWebSocketClient.sendDataRequests
| None =>
    match refetchInterval this with
    | Some _ => modify (setRefetchInterval (Some (mkInterval false)))
    | None => ret tt
    end
end.

(** What can happen to an instance: a call of a public method, a frame of
    the server, a tick of the timer. *)
Inductive ClientCall (P : Type) : Type :=
| CallConnect
| CallClose
| CallToggleLight (entityId : string)
| CallTurnOnLight (entityId : string) (brightness : option JS.number)
| CallTurnOffLight (entityId : string)
| CallMessage (data : ServerMessage P)
| CallInterval.
Arguments CallConnect {P}.
Arguments CallClose {P}.
Arguments CallToggleLight {P}.
Arguments CallTurnOnLight {P}.
Arguments CallTurnOffLight {P}.
Arguments CallMessage {P}.
Arguments CallInterval {P}.

Definition call {P} (op : ClientCall P) : Method Client unit :=
match op with
| CallConnect => HomeAssistantWebSocketClient.connect
| CallClose => HomeAssistantWebSocketClient.close
| CallToggleLight entityId => HomeAssistantWebSocketClient.sendToggleLight entityId
| CallTurnOnLight entityId brightness =>
    HomeAssistantWebSocketClient.sendTurnOnLight entityId brightness
| CallTurnOffLight entityId => HomeAssistantWebSocketClient.sendTurnOffLight entityId
| CallMessage data => exec onmessage data; ret tt
| CallInterval => onInterval
end.

(** The calls of a list one after the other; an exception ends the call
    that threw. *)
Fixpoint calls {P} (ops : list (ClientCall P)) (c : Client) : Client :=
match ops with
| [] => c
| op :: rest => calls rest (fst (call op c))
end.

(** The frames handed to [send] so far. *)
Definition sentFrames (c : Client) : list Message :=
match socket c with
| Some sock => ws_sent sock
| None => []
end.

(** The running id and the id of every frame sent are between 1 and
    [Number.MAX_SAFE_INTEGER - 1]. *)
Definition idsInRange (c : Client) : Prop :=
1 <= runningId c < MAX_SAFE_INTEGER
/\ Forall (fun m => 1 <= m_id m < MAX_SAFE_INTEGER) (sentFrames c).

(** The running id after a frame with the running id [r]:
    [r + 1 >= Number.MAX_SAFE_INTEGER ? 1 : r + 1]. *)
Definition nextId (r : Z) : Z :=
if MAX_SAFE_INTEGER <=? r + 1 then 1 else r + 1.

(** ** What the sensor fields show *)

Inductive SensorKind : Type := KHumidity | KTemperature | KCarbonDioxide.

#[global] Instance SensorKind_eq_dec : EqDecision SensorKind.
Proof. solve_decision. Defined.

(** A sensor as it is read: who it is, its state, and its unit as text. *)
Definition Gauge : Type :=
(string * string * option string * string * string) * SensorState * string.

Definition gauge {U} (unitString : U -> string) (sensor : Sensor U) : Gauge :=
(sensorIdentity sensor, s_state sensor, unitString (s_unitOfMeasurement sensor)).

(** The sensor field of a kind. *)
Definition installed (kind : SensorKind) (area : Area) : option Gauge :=
match kind with
| KHumidity => gauge humidityUnitString <$> a_humiditySensor area
| KTemperature => gauge temperatureUnitString <$> a_temperatureSensor area
| KCarbonDioxide => gauge carbonDioxideUnitString <$> a_carbonDioxideSensor area
end.

(** The entity id a dashboard configures for a kind. *)
Definition configured (kind : SensorKind) (dashboard : DashboardConfig)
  : option string :=
match kind with
| KHumidity => dc_humiditySensorEntityId dashboard
| KTemperature => dc_temperatureSensorEntityId dashboard
| KCarbonDioxide => dc_carbonDioxideSensorEntityId dashboard
end.

(** The state and the unit [updateSensors] stores for a sensor of a kind:
    the number read from the text of the state, for a temperature converted
    from the unit of the attributes into the unit of the dashboard and
    stored under the unit of the attributes. *)
Definition sensed (kind : SensorKind) (dashboard : DashboardConfig)
    (state : HassEntityState) : SensorState * string :=
let value := getNumericSensorState (JsString <$> hs_s state) in
match kind with
| KHumidity => (value, humidityUnitString Percent)
| KCarbonDioxide => (value, carbonDioxideUnitString Ppm)
| KTemperature =>
    let unitOfMeasurement :=
      default (dc_temperatureUnitOfMeasurement dashboard)
        (getTemperatureUnitOfMeasurement
           (attributes ← hs_a state; Dict.get attributes "unit_of_measurement")) in
    (calcTemperatureValue value unitOfMeasurement
       (dc_temperatureUnitOfMeasurement dashboard),
     temperatureUnitString unitOfMeasurement)
end.

Definition opKind (op : SensorOp) : SensorKind :=
match op with
| SetHumiditySensor _ _ => KHumidity
| SetTemperatureSensor _ _ => KTemperature
| SetCarbonDioxideSensor _ _ => KCarbonDioxide
end.

Definition opGauge (op : SensorOp) : Gauge :=
match op with
| SetHumiditySensor _ sensor => gauge humidityUnitString sensor
| SetTemperatureSensor _ sensor => gauge temperatureUnitString sensor
| SetCarbonDioxideSensor _ sensor => gauge carbonDioxideUnitString sensor
end.

(** The assignment a visit of [updateSensors] makes, when it makes one. *)
Definition opOf (areas : list Area) (devices : list HassDevice)
    (entities : list HassEntity) (entityStates : Dict.t HassEntityState)
    (visit : string * DashboardConfig) : option SensorOp :=
match deriveSensor areas devices entities entityStates visit with
| Ok (Some op) => Some op
| _ => None
end.

(** ** From frames to listeners *)

(** The payloads of the five events, as the type of [eventEmitter]
    declares them. *)
Inductive Payload : Type :=
| PAreas (areas : list HassArea)
| PDevices (devices : list HassDevice)
| PEntities (entities : list HassEntity)
| PEntityStates (entitiesMap : Dict.t HassEntityState)
| PChanges (changes : Dict.t HassEntityState).

(** The event the listener of a channel handles, for a payload of the type
    the channel declares.  The sources cast the payload of a frame to that
    type unchecked; a payload of another type is outside the model. *)
Definition listened (channel : Channel) (payload : Payload) : option Event :=
match channel, payload with
| ChAreas, PAreas areas => Some (EvAreas areas)
| ChDevices, PDevices devices => Some (EvDevices devices)
| ChEntities, PEntities entities => Some (EvEntities entities)
| ChEntityStates, PEntityStates entitiesMap => Some (EvEntityStates entitiesMap)
| ChEntityStateChange, PChanges changes => Some (EvEntityStateChange changes)
| _, _ => None
end.

(** [emit] runs the listener before the handler goes on; an exception of the
    listener leaves through [emit] and ends the handler. *)
Fixpoint dispatch (outputs : list (Output Payload)) (dm : DataManager)
  : option (DataManager * Result unit) :=
match outputs with
| [] => Some (dm, Ok tt)
| AuthFrame _ :: rest => dispatch rest dm
| Emit channel payload :: rest =>
    match listened channel payload with
    | None => None
    | Some ev =>
        match handle ev dm with
        | (dm', Ok _) => dispatch rest dm'
        | (dm', Throw e) => Some (dm', Throw e)
        end
    end
end.

(** A frame arrives at a started manager: the handler of the client, then
    the listeners of what it emits. *)
Definition receive (data : ServerMessage Payload) (dm : DataManager)
  : option (DataManager * Result unit) :=
match liftClient (onmessage data) dm with
| (dm', Ok outputs) => dispatch outputs dm'
| (dm', Throw e) => Some (dm', Throw e)
end.

(** The frame that carries an event to a client whose requests have the ids
    [requestIds]: the answer to the request of a registry, or an [event]
    frame with the key ["a"] (all the states) or ["c"] (changes). *)
Definition frameOf (requestIds : RequestIds) (ev : Event) : ServerMessage Payload :=
match ev with
| EvAreas areas =>
    mkServerMessage "result" false (Some (ids_areas requestIds))
      (Some (PAreas areas)) None
| EvDevices devices =>
    mkServerMessage "result" false (Some (ids_devices requestIds))
      (Some (PDevices devices)) None
| EvEntities entities =>
    mkServerMessage "result" false (Some (ids_entities requestIds))
      (Some (PEntities entities)) None
| EvEntityStates entitiesMap =>
    mkServerMessage "event" false None None
      (Some (mkServerEvent (Some (Some (PEntityStates entitiesMap))) None))
| EvEntityStateChange changes =>
    mkServerMessage "event" false None None
      (Some (mkServerEvent None (Some (Some (PChanges changes)))))
end.

(** The frames of a list one after the other, as long as they stay inside
    the model. *)
Fixpoint receiveAll (frames : list (ServerMessage Payload)) (dm : DataManager)
  : option DataManager :=
match frames with
| [] => Some dm
| data :: rest =>
    match receive data dm with
    | Some (dm', _) => receiveAll rest dm'
    | None => None
    end
end.

(** ** Checks by computation on ranges of integers *)

(** [P] holds of the [n] integers from [lo] on. *)
Fixpoint forallFrom (P : Z -> bool) (lo : Z) (n : nat) : bool :=
match n with
| O => true
| S k => P lo && forallFrom P (lo + 1) k
end.

(** The double [x] is the integer [n]. *)
Definition isInteger (x : IEEE.double) (n : Z) : bool :=
match IEEE.toZ x with
| Some k => k =? n
| None => false
end.

(** In doubles, the Celsius value [c] becomes [round (1.8 c + 32)] degrees
    Fahrenheit, and that value converted back is [c]. *)
Definition celsiusRoundTrip (c : Z) : bool :=
match IEEE.calcTemperatureValue (IEEE.Reading (IEEE.ofZ c)) Celsius Fahrenheit with
| IEEE.Reading f =>
    isInteger f ((18 * c + 325) / 10)
    && match IEEE.calcTemperatureValue (IEEE.Reading f) Fahrenheit Celsius with
       | IEEE.Reading r => isInteger r c
       | IEEE.SensorUnavailable => false
       end
| IEEE.SensorUnavailable => false
end.

(** In doubles, the Fahrenheit value [f] becomes [round ((f - 32) / 1.8)]
    degrees Celsius, [k], and that value converted back is
    [round (1.8 k + 32)]. *)
Definition fahrenheitRoundTrip (f : Z) : bool :=
match IEEE.calcTemperatureValue (IEEE.Reading (IEEE.ofZ f)) Fahrenheit Celsius with
| IEEE.Reading c =>
    let k := (20 * f - 622) / 36 in
    isInteger c k
    && match IEEE.calcTemperatureValue (IEEE.Reading c) Celsius Fahrenheit with
       | IEEE.Reading r => isInteger r ((18 * k + 325) / 10)
       | IEEE.SensorUnavailable => false
       end
| IEEE.SensorUnavailable => false
end.

(** In doubles, the percentage [p] becomes the brightness
    [round (2.55 p)]. *)
Definition brightnessValueExact (p : Z) : bool :=
isInteger (IEEE.getBrightnessValue (Some (IEEE.ofZ p))) ((510 * p + 100) / 200).

(** The unit [updateSensors] stores for a sensor of a kind, as text: the
    fixed unit of a humidity or carbon dioxide sensor; for a temperature
    the unit of the attributes of the state, the unit of the dashboard when
    they give none. *)
Definition storedUnit (kind : SensorKind) (dashboard : DashboardConfig)
    (state : HassEntityState) : string :=
match kind with
| KHumidity => humidityUnitString Percent
| KCarbonDioxide => carbonDioxideUnitString Ppm
| KTemperature =>
    temperatureUnitString
      (default (dc_temperatureUnitOfMeasurement dashboard)
         (getTemperatureUnitOfMeasurement
            (attributes ← hs_a state; Dict.get attributes "unit_of_measurement")))
end.

(** ** hass-ws-client/client.ts: the text of a frame *)

(** What [JSON.parse (event.data.toString ())] makes of the text of a
    frame: a [SyntaxError] when the text is not JSON; [null]; a value of
    which [data.type] is read without a throw and is no string (a number,
    a string, a boolean, an array, an object without a string under
    [type]); or an object with a string under [type], read as a
    [ServerMessage]. *)
Inductive Parsed (P : Type) : Type :=
| NotJSON
| JSONNull
| JSONScalar
| JSONObject (data : ServerMessage P).
Arguments NotJSON {P}.
Arguments JSONNull {P}.
Arguments JSONScalar {P}.
Arguments JSONObject {P}.

(** [socket.onmessage], from its first statement: the parse, the read of
    [data.type], which throws on [null], and the branches of
    [onmessage]. *)
Definition socket_onmessage {P} (event : Parsed P)
  : Method Client (list (Output P)) :=
match event with
| NotJSON => throw SyntaxError
| JSONNull => throw TypeError
| JSONScalar => ret []
| JSONObject data => onmessage data
end.

(** The model holds an area with the id [areaId] before the events and
    after each of them. *)
Fixpoint keepsArea (areaId : string) (evs : list Event) (dm : DataManager) : Prop :=
is_Some (findArea (Some areaId) (data_areas dm))
/\ match evs with
   | [] => True
   | ev :: rest => keepsArea areaId rest (fst (handle ev dm))
   end.



(** * Properties *)

(** ** Rounding of fractions *)

Lemma Math_round_frac (n : Z) (d : positive) :
  JS.Math_round (n # d) = inject_Z ((2 * n + Z.pos d) / (2 * Z.pos d)).
Proof.
  unfold JS.Math_round, Qfloor, Qplus. cbn [Qnum Qden].
  f_equal. f_equal; lia.
Qed.

Lemma Qabs_inject_Z_le (x y b : Z) :
  Z.abs (x - y) <= b -> (Qabs (inject_Z x - inject_Z y) <= inject_Z b)%Q.
Proof.
  intros H. unfold Qminus, Qopp, Qplus, inject_Z, Qabs, Qle. cbn. lia.
Qed.

(** ** Brightness scaling (data.ts) *)

Lemma getBrightnessValue_integer (p : Z) :
  getBrightnessValue (Some (inject_Z p)) = inject_Z ((510 * p + 100) / 200).
Proof.
  unfold getBrightnessValue.
  replace ((inject_Z p / 100) * 255)%Q with ((p * 255) # 100)%Q.
  - rewrite Math_round_frac. f_equal. f_equal; lia.
  - unfold Qdiv, Qmult, Qinv, inject_Z. cbn. f_equal. lia.
Qed.

Lemma getBrightnessPercentage_integer (v : Z) :
  getBrightnessPercentage (Some (JsNumber (inject_Z v)))
  = Some (inject_Z ((200 * v + 255) / 510)).
Proof.
  unfold getBrightnessPercentage. f_equal.
  replace ((inject_Z v / 255) * 100)%Q with ((v * 100) # 255)%Q.
  - rewrite Math_round_frac. f_equal. f_equal; lia.
  - unfold Qdiv, Qmult, Qinv, inject_Z. cbn. f_equal. lia.
Qed.

(** The raw value of a percentage converts back to that very percentage. *)
Lemma brightness_round_trip_exact (p : Z) :
  getBrightnessPercentage (Some (JsNumber (getBrightnessValue (Some (inject_Z p)))))
  = Some (inject_Z p).
Proof.
  rewrite getBrightnessValue_integer, getBrightnessPercentage_integer.
  do 2 f_equal. Z.div_mod_to_equations. lia.
Qed.

(** C7.  For every integer percentage [p] between 0 and 100,
    [getBrightnessPercentage (getBrightnessValue p)] is a number, never
    [null], and it differs from [p] by at most 1. *)
Theorem brightness_round_trip (p : Z) :
  0 <= p <= 100 ->
  exists r : JS.number,
    getBrightnessPercentage
      (Some (JsNumber (getBrightnessValue (Some (inject_Z p))))) = Some r
    /\ (Qabs (r - inject_Z p) <= 1)%Q.
Proof.
  intros _. exists (inject_Z p). split.
  - apply brightness_round_trip_exact.
  - apply (Qabs_inject_Z_le p p 1). lia.
Qed.

Lemma brightness_round_trip_witness :
  exists r : JS.number,
    getBrightnessPercentage
      (Some (JsNumber (getBrightnessValue (Some (inject_Z 40))))) = Some r
    /\ (Qabs (r - inject_Z 40) <= 1)%Q.
Proof. apply (brightness_round_trip 40). lia. Defined.

(** ** Temperature conversion (data.ts) *)

Lemma celsius_to_fahrenheit_integer (c : Z) :
  calcTemperatureValue (Reading (inject_Z c)) Celsius Fahrenheit
  = Reading (inject_Z ((36 * c + 650) / 20)).
Proof.
  unfold calcTemperatureValue. cbn [temperatureUnit_eqb]. f_equal.
  replace (inject_Z c * (18 # 10) + 32)%Q with ((c * 18 + 320) # 10)%Q.
  - rewrite Math_round_frac. f_equal. f_equal; lia.
  - unfold Qplus, Qmult, inject_Z. cbn. f_equal. lia.
Qed.

Lemma fahrenheit_to_celsius_integer (f : Z) :
  calcTemperatureValue (Reading (inject_Z f)) Fahrenheit Celsius
  = Reading (inject_Z ((20 * f - 622) / 36)).
Proof.
  unfold calcTemperatureValue. cbn [temperatureUnit_eqb]. f_equal.
  replace ((inject_Z f - 32) / (18 # 10))%Q with (((f - 32) * 10) # 18)%Q.
  - rewrite Math_round_frac. f_equal. f_equal; lia.
  - unfold Qdiv, Qminus, Qopp, Qplus, Qmult, Qinv, inject_Z. cbn. f_equal. lia.
Qed.

(** ** Double precision (data.ts) *)

Lemma forallFrom_spec (P : Z -> bool) :
  forall (n : nat) (lo z : Z),
    forallFrom P lo n = true -> lo <= z < lo + Z.of_nat n -> P z = true.
Proof.
  induction n as [|n IH]; intros lo z H Hz; [lia|].
  cbn [forallFrom] in H. apply andb_prop in H as [H0 H1].
  destruct (Z.eq_dec z lo) as [->|Hne]; [exact H0|].
  apply (IH (lo + 1)); [exact H1|lia].
Qed.

Lemma isInteger_spec (x : IEEE.double) (n : Z) :
  isInteger x n = true -> IEEE.toZ x = Some n.
Proof.
  unfold isInteger. destruct (IEEE.toZ x) as [k|]; [|discriminate].
  intros H. apply Z.eqb_eq in H. congruence.
Qed.

(** The integers from -1000 to 1000 are doubles, and the literal [1.8] is
    the double that the division of 18 by 10 gives. *)
Lemma IEEE_literals :
  IEEE.toZ (IEEE.ofZ 1000) = Some 1000
  /\ IEEE.toZ (IEEE.ofZ (-1000)) = Some (-1000)
  /\ IEEE.calcTemperatureValue (IEEE.Reading (IEEE.ofZ 1)) Fahrenheit Celsius
     = IEEE.Reading
         (IEEE.Math_round
            (PrimFloat.div (PrimFloat.sub (IEEE.ofZ 1) (IEEE.ofZ 32))
               (PrimFloat.div (IEEE.ofZ 18) (IEEE.ofZ 10)))).
Proof. repeat split; vm_compute; reflexivity. Qed.

Lemma celsiusRoundTrip_range : forallFrom celsiusRoundTrip (-1000) 2001 = true.
Proof. vm_compute. reflexivity. Qed.

Lemma fahrenheitRoundTrip_range : forallFrom fahrenheitRoundTrip (-1000) 2001 = true.
Proof. vm_compute. reflexivity. Qed.

Lemma brightnessValueExact_range : forallFrom brightnessValueExact (-1000) 2001 = true.
Proof. vm_compute. reflexivity. Qed.

(** On the integers from -1000 to 1000 the conversion to Fahrenheit in
    doubles is the exact one, and the way back returns the value. *)
Lemma IEEE_celsius_round_trip (c : Z) :
  -1000 <= c <= 1000 ->
  exists f r : IEEE.double,
    IEEE.calcTemperatureValue (IEEE.Reading (IEEE.ofZ c)) Celsius Fahrenheit
    = IEEE.Reading f
    /\ IEEE.calcTemperatureValue (IEEE.Reading f) Fahrenheit Celsius = IEEE.Reading r
    /\ IEEE.toZ f = Some ((18 * c + 325) / 10)
    /\ IEEE.toZ r = Some c.
Proof.
  intros Hc.
  pose proof (forallFrom_spec celsiusRoundTrip 2001 (-1000) c
                celsiusRoundTrip_range ltac:(lia)) as H.
  unfold celsiusRoundTrip in H.
  destruct (IEEE.calcTemperatureValue (IEEE.Reading (IEEE.ofZ c)) Celsius Fahrenheit)
    as [f|] eqn:Hcf; [|discriminate H].
  apply andb_prop in H as [Hf H].
  destruct (IEEE.calcTemperatureValue (IEEE.Reading f) Fahrenheit Celsius)
    as [r|] eqn:Hfc; [|discriminate H].
  exists f, r. split; [reflexivity|]. split; [exact Hfc|].
  split; [apply isInteger_spec, Hf|apply isInteger_spec, H].
Qed.

Lemma IEEE_fahrenheit_round_trip (f : Z) :
  -1000 <= f <= 1000 ->
  exists c r : IEEE.double,
    IEEE.calcTemperatureValue (IEEE.Reading (IEEE.ofZ f)) Fahrenheit Celsius
    = IEEE.Reading c
    /\ IEEE.calcTemperatureValue (IEEE.Reading c) Celsius Fahrenheit = IEEE.Reading r
    /\ IEEE.toZ c = Some ((20 * f - 622) / 36)
    /\ IEEE.toZ r = Some ((18 * ((20 * f - 622) / 36) + 325) / 10).
Proof.
  intros Hf.
  pose proof (forallFrom_spec fahrenheitRoundTrip 2001 (-1000) f
                fahrenheitRoundTrip_range ltac:(lia)) as H.
  unfold fahrenheitRoundTrip in H.
  destruct (IEEE.calcTemperatureValue (IEEE.Reading (IEEE.ofZ f)) Fahrenheit Celsius)
    as [c|] eqn:Hfc; [|discriminate H].
  cbv zeta in H. apply andb_prop in H as [Hc H].
  destruct (IEEE.calcTemperatureValue (IEEE.Reading c) Celsius Fahrenheit)
    as [r|] eqn:Hcf; [|discriminate H].
  exists c, r. split; [reflexivity|]. split; [exact Hcf|].
  split; [apply isInteger_spec, Hc|apply isInteger_spec, H].
Qed.

Lemma IEEE_getBrightnessValue_integer (p : Z) :
  -1000 <= p <= 1000 ->
  IEEE.toZ (IEEE.getBrightnessValue (Some (IEEE.ofZ p)))
  = Some ((510 * p + 100) / 200).
Proof.
  intros Hp. apply isInteger_spec.
  exact (forallFrom_spec brightnessValueExact 2001 (-1000) p
           brightnessValueExact_range ltac:(lia)).
Qed.



(** On the whole numbers from -1000 to 1000 the exact conversions of
    [calcTemperatureValue] are those of the double arithmetic. *)
Lemma calcTemperatureValue_models_agree (n : Z) :
  -1000 <= n <= 1000 ->
  (exists (f : IEEE.double) (k : Z),
      IEEE.calcTemperatureValue (IEEE.Reading (IEEE.ofZ n)) Celsius Fahrenheit
      = IEEE.Reading f
      /\ IEEE.toZ f = Some k
      /\ calcTemperatureValue (Reading (inject_Z n)) Celsius Fahrenheit
         = Reading (inject_Z k))
  /\ (exists (c : IEEE.double) (k : Z),
        IEEE.calcTemperatureValue (IEEE.Reading (IEEE.ofZ n)) Fahrenheit Celsius
        = IEEE.Reading c
        /\ IEEE.toZ c = Some k
        /\ calcTemperatureValue (Reading (inject_Z n)) Fahrenheit Celsius
           = Reading (inject_Z k)).
Proof.
  intros Hn. split.
  - destruct (IEEE_celsius_round_trip n Hn) as (f & _ & Hf & _ & Hfz & _).
    exists f, ((18 * n + 325) / 10). split; [exact Hf|]. split; [exact Hfz|].
    rewrite celsius_to_fahrenheit_integer. do 2 f_equal.
    Z.div_mod_to_equations. lia.
  - destruct (IEEE_fahrenheit_round_trip n Hn) as (c & _ & Hc & _ & Hcz & _).
    exists c, ((20 * n - 622) / 36). split; [exact Hc|]. split; [exact Hcz|].
    apply fahrenheit_to_celsius_integer.
Qed.

(** They differ on fractions: 32.9 degrees Fahrenheit are exactly half a
    degree Celsius, which rounds to 1, where the division of the code gives
    0.4999999999999992, which rounds to 0. *)
Lemma calcTemperatureValue_models_differ :
  calcTemperatureValue (Reading (329 # 10)) Fahrenheit Celsius = Reading 1%Q
  /\ exists c : IEEE.double,
       IEEE.calcTemperatureValue
         (IEEE.Reading (PrimFloat.div (IEEE.ofZ 329) (IEEE.ofZ 10)))
         Fahrenheit Celsius
       = IEEE.Reading c
       /\ IEEE.toZ c = Some 0.
Proof.
  split; [reflexivity|]. eexists. split; vm_compute; reflexivity.
Qed.

(** ** The protocol client (client.ts) *)

(** [close] leaves [this.socket] set: it calls [close] on the transport and
    disarms the timer, and nothing assigns [null] to the field. *)
Lemma close_keeps_socket (c : Client) (sock : WebSocket) :
  socket c = Some sock ->
  exists sock', socket (fst (HomeAssistantWebSocketClient.close c)) = Some sock'.
Proof.
  intros H. unfold HomeAssistantWebSocketClient.close, bind, getState. cbn.
  rewrite H. destruct (refetchInterval c); cbn; eauto.
Qed.

(** C3, on the code: on a fresh instance, [connect(); close(); connect()]
    throws "Socket unexpectedly already connected" at the second [connect]. *)
Theorem connect_after_close_throws (host token : string) (isSecure : bool) :
  snd ((exec HomeAssistantWebSocketClient.connect;
        exec HomeAssistantWebSocketClient.close;
        HomeAssistantWebSocketClient.connect)
         (HomeAssistantWebSocketClient.new host token isSecure))
  = Throw SocketAlreadyConnected.
Proof. reflexivity. Qed.

(** A second [close] changes nothing and does not throw. *)
Lemma close_idempotent (c : Client) :
  let c1 := fst (HomeAssistantWebSocketClient.close c) in
  HomeAssistantWebSocketClient.close c1 = (c1, Ok tt).
Proof.
  unfold HomeAssistantWebSocketClient.close, bind, getState. cbn.
  destruct c as [u t [sock|] r [iv|] i]; cbn; reflexivity.
Qed.

(** ** The command dispatcher (data-manager.ts) *)

Lemma send_command (dm : DataManager) (sock : WebSocket)
    (payload : option ServiceCall) :
  socket (wsClient dm) = Some sock ->
  exists dm' sock',
    liftClient (exec HomeAssistantWebSocketClient.send CALL_SERVICE payload;
                ret tt) dm = (dm', Ok tt)
    /\ socket (wsClient dm') = Some sock'
    /\ data_areas dm' = data_areas dm /\ store dm' = store dm
    /\ incomingData dm' = incomingData dm
    /\ sentMessages dm'
       = sentMessages dm
         ++ [mkMessage payload CALL_SERVICE (runningId (wsClient dm))].
Proof.
  intros H.
  unfold liftClient, HomeAssistantWebSocketClient.send, bind, getState, modify,
    ret, sentMessages.
  cbn. rewrite H. cbn. eexists _, _. repeat split; reflexivity.
Qed.

(** A loop that sends one service call for each light passing [test]. *)
Lemma conditional_commands (test : Light -> bool) (service : string) :
  forall (lights : list Light) (dm : DataManager) (sock : WebSocket),
    socket (wsClient dm) = Some sock ->
    exists dm' msgs,
      forEach lights (fun light =>
        if test light
        then liftClient (exec HomeAssistantWebSocketClient.send CALL_SERVICE
                           (lightCommand service (l_entityId light)); ret tt)
        else ret tt) dm = (dm', Ok tt)
      /\ (exists sock', socket (wsClient dm') = Some sock')
      /\ data_areas dm' = data_areas dm /\ store dm' = store dm
      /\ incomingData dm' = incomingData dm
      /\ sentMessages dm' = sentMessages dm ++ msgs
      /\ map m_payload msgs
         = map (fun light => lightCommand service (l_entityId light))
             (List.filter test lights)
      /\ Forall (fun m => m_type m = CALL_SERVICE) msgs.
Proof.
  induction lights as [|light rest IH]; intros dm sock Hsock.
  - exists dm, []. cbn. rewrite app_nil_r. repeat split; eauto.
  - cbn [forEach List.filter]. unfold bind at 1.
    destruct (test light) eqn:Htest.
    + destruct (send_command dm sock (lightCommand service (l_entityId light)) Hsock)
        as (dm1 & sock1 & Hrun & Hsock1 & Ha & Hs & Hi & Hm).
      rewrite Hrun.
      destruct (IH dm1 sock1 Hsock1)
        as (dm' & msgs & Hrun' & Hsock' & Ha' & Hs' & Hi' & Hm' & Hp & Ht).
      exists dm', (mkMessage (lightCommand service (l_entityId light)) CALL_SERVICE
                     (runningId (wsClient dm)) :: msgs).
      rewrite Hrun'. repeat split; try congruence.
      * rewrite Hm', Hm, <- app_assoc. reflexivity.
      * cbn. f_equal. exact Hp.
      * constructor; [reflexivity|exact Ht].
    + cbn. destruct (IH dm sock Hsock) as (dm' & msgs & Hrun' & Hrest).
      exists dm', msgs. rewrite Hrun'. split; [reflexivity|exact Hrest].
Qed.

(** C4, as the code has it.  On a connected client and for a known area,
    [turnOnAllLights] sends exactly one [turn_on] call for each light cached
    "off", in the order of the area's array, and none for a light cached "on"
    or "unavailable"; [turnOffAllLights] sends exactly one [turn_off] call
    for each light cached "on" and none for the others. *)
Theorem area_light_commands (dm : DataManager) (areaId : string) (i : nat)
    (area : Area) (sock : WebSocket) :
  socket (wsClient dm) = Some sock ->
  findArea (Some areaId) (data_areas dm) = Some (i, area) ->
  let lights := lightsAt (store dm) (a_lights area) in
  (exists dm' msgs,
      turnOnAllLights areaId dm = (dm', Ok tt)
      /\ sentMessages dm' = sentMessages dm ++ msgs
      /\ map m_payload msgs
         = map (fun light => lightCommand "turn_on" (l_entityId light))
             (List.filter (fun light => lightState_eqb (l_state light) Off) lights))
  /\ (exists dm' msgs,
      turnOffAllLights areaId dm = (dm', Ok tt)
      /\ sentMessages dm' = sentMessages dm ++ msgs
      /\ map m_payload msgs
         = map (fun light => lightCommand "turn_off" (l_entityId light))
             (List.filter (fun light => lightState_eqb (l_state light) On) lights)).
Proof.
  intros Hsock Harea lights. split.
  - destruct (conditional_commands (fun light => lightState_eqb (l_state light) Off)
                "turn_on" lights dm sock Hsock)
      as (dm' & msgs & Hrun & _ & _ & _ & _ & Hm & Hp & _).
    exists dm', msgs. split; [|split; assumption].
    unfold turnOnAllLights, getLights, bind at 1 2, getState. cbn.
    rewrite Harea. cbn. exact Hrun.
  - destruct (conditional_commands (fun light => lightState_eqb (l_state light) On)
                "turn_off" lights dm sock Hsock)
      as (dm' & msgs & Hrun & _ & _ & _ & _ & Hm & Hp & _).
    exists dm', msgs. split; [|split; assumption].
    unfold turnOffAllLights, getLights, bind at 1 2, getState. cbn.
    rewrite Harea. cbn. exact Hrun.
Qed.

Lemma area_light_commands_witness :
  let dm := deliver (sampleQuartet "off") started in
  let lights := lightsAt (store dm) 3%nat in
  (exists dm' msgs,
      turnOnAllLights "office" dm = (dm', Ok tt)
      /\ sentMessages dm' = sentMessages dm ++ msgs
      /\ map m_payload msgs
         = map (fun light => lightCommand "turn_on" (l_entityId light))
             (List.filter (fun light => lightState_eqb (l_state light) Off) lights))
  /\ (exists dm' msgs,
      turnOffAllLights "office" dm = (dm', Ok tt)
      /\ sentMessages dm' = sentMessages dm ++ msgs
      /\ map m_payload msgs
         = map (fun light => lightCommand "turn_off" (l_entityId light))
             (List.filter (fun light => lightState_eqb (l_state light) On) lights)).
Proof.
  exact (area_light_commands (deliver (sampleQuartet "off") started) "office" 3%nat
           (mkArea "office" "Office" None 3%nat None None None)
           (mkWebSocket "ws://hub.local:8123/api/websocket" [] false)
           eq_refl eq_refl).
Defined.

(** C4, as stated, fails on an unavailable light: the office's only light is
    cached "unavailable", and [turnOnAllLights] sends nothing. *)
Lemma turnOnAllLights_skips_unavailable :
  let dm := deliver (sampleQuartet "unavailable") started in
  map l_state (lightsAt (store dm) 3%nat) = [Unavailable]
  /\ sentMessages dm = []
  /\ exists dm', turnOnAllLights "office" dm = (dm', Ok tt) /\ sentMessages dm' = [].
Proof.
  cbv zeta. split; [vm_compute; reflexivity|]. split; [vm_compute; reflexivity|].
  eexists. split; vm_compute; reflexivity.
Qed.

(** ** Rendering a number and reading it back (built-ins) *)

Ltac digit_cases d :=
  let H := fresh in
  assert (H : d = 0 \/ d = 1 \/ d = 2 \/ d = 3 \/ d = 4 \/ d = 5 \/ d = 6
              \/ d = 7 \/ d = 8 \/ d = 9) by lia;
  repeat (destruct H as [H|H]; [subst d|]); [..|subst d].


Lemma digitValue_digitChar (d : Z) :
  0 <= d <= 9 -> JS.digitValue (JS.digitChar d) = Some d.
Proof. intros H. digit_cases d; reflexivity. Qed.

Lemma decimalDigits_S (fuel : nat) (n : Z) (acc : string) :
  JS.decimalDigits (S fuel) n acc
  = if n <? 10 then String (JS.digitChar (n mod 10)) acc
    else JS.decimalDigits fuel (n / 10) (String (JS.digitChar (n mod 10)) acc).
Proof. reflexivity. Qed.

Lemma decimalDigits_app (fuel : nat) :
  forall (n : Z) (acc tl : string),
    (JS.decimalDigits fuel n acc ++ tl)%string = JS.decimalDigits fuel n (acc ++ tl)%string.
Proof.
  induction fuel as [|fuel IH]; intros n acc tl; cbn; [reflexivity|].
  destruct (n <? 10); [reflexivity|]. rewrite IH. reflexivity.
Qed.

Lemma decimalDigits_head (fuel : nat) :
  forall (n : Z) (tl : string), 0 <= n ->
    exists c rest, plainDigit c /\ JS.decimalDigits (S fuel) n tl = String c rest.
Proof.
  induction fuel as [|fuel IH]; intros n tl Hn.
  - cbn. assert (Hd : 0 <= n mod 10 <= 9) by (pose proof (Z.mod_pos_bound n 10); lia).
    destruct (n <? 10); eexists _, _; (split; [eexists; split; [exact Hd|reflexivity]|reflexivity]).
  - rewrite decimalDigits_S. destruct (n <? 10) eqn:Hlt.
    + assert (Hd : 0 <= n mod 10 <= 9) by (pose proof (Z.mod_pos_bound n 10); lia).
      eexists _, _; (split; [eexists; split; [exact Hd|reflexivity]|reflexivity]).
    + apply IH. apply Z.div_pos; lia.
Qed.

Lemma decimalDigits_parse (fuel : nat) :
  forall (n : Z) (tl : string) (acc : option Z),
    0 <= n < 2 ^ Z.of_nat (S fuel) ->
    exists k, JS.parseDigits 10 (JS.decimalDigits (S fuel) n tl) acc
              = JS.parseDigits 10 tl (Some (default 0 acc * 10 ^ k + n)) /\ 0 <= k.
Proof.
  induction fuel as [|fuel IH]; intros n tl acc Hn.
  - assert (Hlt : (n <? 10) = true) by (apply Z.ltb_lt; cbn in Hn; lia).
    cbn [JS.decimalDigits]. rewrite Hlt. exists 1. split; [|lia].
    cbn [JS.parseDigits]. rewrite Z.mod_small by lia.
    rewrite digitValue_digitChar by lia.
    replace (n <? 10) with true. f_equal.
  - rewrite decimalDigits_S. destruct (n <? 10) eqn:Hlt.
    + apply Z.ltb_lt in Hlt. exists 1. split; [|lia].
      cbn [JS.parseDigits]. rewrite Z.mod_small by lia.
      rewrite digitValue_digitChar by lia.
      apply Z.ltb_lt in Hlt. rewrite Hlt. f_equal.
    + apply Z.ltb_ge in Hlt.
      assert (Hdiv : 0 <= n / 10 < 2 ^ Z.of_nat (S fuel)).
      { split; [apply Z.div_pos; lia|].
        apply Z.div_lt_upper_bound; [lia|].
        rewrite (Nat2Z.inj_succ (S fuel)), Z.pow_succ_r in Hn by lia.
        assert (0 < 2 ^ Z.of_nat (S fuel)) by (apply Z.pow_pos_nonneg; lia).
        clear IH. set (p := 2 ^ Z.of_nat (S fuel)) in *. clearbody p. lia. }
      destruct (IH (n / 10) (String (JS.digitChar (n mod 10)) tl) acc Hdiv)
        as (k & Hk & Hk0).
      exists (k + 1). split; [|lia]. rewrite Hk.
      assert (Hd : 0 <= n mod 10 <= 9) by (pose proof (Z.mod_pos_bound n 10); lia).
      cbn [JS.parseDigits]. rewrite digitValue_digitChar by lia.
      replace (n mod 10 <? 10) with true by (symmetry; apply Z.ltb_lt; lia).
      f_equal. f_equal. cbn [default]. rewrite Z.pow_add_r by lia.
      change (10 ^ 1) with 10. unfold id. pose proof (Z.div_mod n 10). lia.
Qed.

Lemma plainDigit_facts (c : ascii) :
  plainDigit c ->
  JS.isWhiteSpace c = false /\ Ascii.eqb c "-" = false /\ Ascii.eqb c "+" = false
  /\ Ascii.eqb c " " = false /\ Ascii.eqb c "x" = false /\ Ascii.eqb c "X" = false
  /\ Ascii.eqb c "u" = false.
Proof.
  intros (d & Hd & ->). digit_cases d; repeat split; reflexivity.
Qed.

Lemma splitSpaceHead_decimalDigits (fuel : nat) :
  forall (n : Z) (tl : string),
    JS.splitSpaceHead (JS.decimalDigits fuel n tl)
    = JS.decimalDigits fuel n (JS.splitSpaceHead tl).
Proof.
  induction fuel as [|fuel IH]; intros n tl; [reflexivity|].
  assert (Hsp : Ascii.eqb (JS.digitChar (n mod 10)) " " = false).
  { apply plainDigit_facts. exists (n mod 10).
    pose proof (Z.mod_pos_bound n 10). split; [lia|reflexivity]. }
  rewrite !decimalDigits_S. destruct (n <? 10).
  - cbn [JS.splitSpaceHead]. rewrite Hsp. reflexivity.
  - rewrite IH. cbn [JS.splitSpaceHead]. rewrite Hsp. reflexivity.
Qed.


Lemma stripHexPrefix_decimalDigits (fuel : nat) :
  forall (n : Z) (tl : string),
    match tl with
    | String c _ => Ascii.eqb c "x" = false /\ Ascii.eqb c "X" = false
    | EmptyString => True
    end ->
    JS.stripHexPrefix (JS.decimalDigits (S fuel) n tl) = None.
Proof.
  induction fuel as [|fuel IH]; intros n tl Htl.
  - rewrite decimalDigits_S.
    assert (JS.stripHexPrefix (String (JS.digitChar (n mod 10)) tl) = None) as Hs.
    { destruct tl as [|c tl]; [reflexivity|]. destruct Htl as [H1 H2].
      cbn. rewrite H1, H2. rewrite andb_false_r. reflexivity. }
    destruct (n <? 10); [exact Hs|]. cbn. exact Hs.
  - rewrite decimalDigits_S. destruct (n <? 10).
    + destruct tl as [|c tl]; [reflexivity|]. destruct Htl as [H1 H2].
      cbn. rewrite H1, H2. rewrite andb_false_r. reflexivity.
    + apply IH.
      assert (plainDigit (JS.digitChar (n mod 10))) as Hp.
      { exists (n mod 10). pose proof (Z.mod_pos_bound n 10). split; [lia|reflexivity]. }
      apply plainDigit_facts in Hp. tauto.
Qed.

Lemma naturalToString_fuel (n : Z) :
  0 <= n -> 0 <= n < 2 ^ Z.of_nat (S (Z.to_nat (Z.log2 n))).
Proof.
  intros Hn. split; [exact Hn|].
  rewrite Nat2Z.inj_succ, Z2Nat.id by apply Z.log2_nonneg.
  destruct (Z.eq_dec n 0) as [->|Hne]; [reflexivity|].
  apply Z.log2_spec. lia.
Qed.

Lemma parseInt_rendered_natural (n : Z) (tl : string) :
  0 <= n -> endsNumber tl ->
  JS.parseInt (JS.naturalToString n ++ tl)%string None = Some n.
Proof.
  intros Hn Htl. unfold JS.naturalToString.
  rewrite decimalDigits_app. change (String.append "" tl) with tl.
  set (fuel := Z.to_nat (Z.log2 n)).
  destruct (decimalDigits_head fuel n tl Hn) as (c & rest & Hc & Hhead).
  pose proof (plainDigit_facts c Hc) as (Hws & Hminus & Hplus & _).
  unfold JS.parseInt. rewrite Hhead. cbn [JS.trimStart]. rewrite Hws.
  cbn [JS.takeSign]. rewrite Hminus, Hplus. cbn [default orb Z.eqb].
  rewrite <- Hhead.
  rewrite stripHexPrefix_decimalDigits
    by (destruct Htl as [->|[r ->]]; [exact I|split; reflexivity]).
  destruct (decimalDigits_parse fuel n tl None (naturalToString_fuel n Hn))
    as (k & Hk & _).
  rewrite Hk. cbn [default]. unfold id.
  replace (0 * 10 ^ k + n) with n by lia.
  assert (JS.parseDigits 10 tl (Some n) = (Some n, tl)) as ->
    by (destruct Htl as [->|[r ->]]; reflexivity).
  unfold fmap, option_fmap, option_map, fst. f_equal. lia.
Qed.

Lemma splitSpaceHead_tail (fr u : string) :
  endsNumber fr -> endsNumber (JS.splitSpaceHead (fr ++ String " " u)%string).
Proof.
  intros [->|[rest ->]]; [left; reflexivity|right]. cbn. eauto.
Qed.

Lemma parseInt_minus (c : ascii) (rest : string) :
  plainDigit c ->
  JS.parseInt (String "-" (String c rest)) None
  = (fun v => - v) <$> JS.parseInt (String c rest) None.
Proof.
  intros Hc. pose proof (plainDigit_facts c Hc) as (Hws & Hminus & Hplus & _).
  unfold JS.parseInt. cbn [JS.trimStart]. rewrite Hws.
  change (JS.isWhiteSpace "-") with false. cbn iota.
  cbn [JS.takeSign]. rewrite Hminus, Hplus. change (Ascii.eqb "-" "-") with true.
  cbn iota. cbn [default orb Z.eqb].
  destruct (JS.stripHexPrefix (String c rest)) as [hex|].
  - destruct (fst (JS.parseDigits 16 hex None)); cbn; [f_equal; lia|reflexivity].
  - destruct (fst (JS.parseDigits 10 (String c rest) None)); cbn; [f_equal; lia|reflexivity].
Qed.

Lemma Qfloor_Qabs_nonneg (q : Q) : 0 <= Qfloor (Qabs q).
Proof. change 0 with (Qfloor 0). apply Qfloor_resp_le, Qabs_nonneg. Qed.

Lemma parseInt_reading (q : Q) (u : string) :
  JS.parseInt (JS.splitSpaceHead (JS.numberToString q ++ " " ++ u)%string) None
  = Some ((if Qlt_le_dec q 0 then -1 else 1) * Qfloor (Qabs q)).
Proof.
  unfold JS.numberToString.
  set (i := Qfloor (Qabs q)).
  assert (Hi : 0 <= i) by apply Qfloor_Qabs_nonneg.
  set (fr := if Qeq_bool _ 0 then _ else _).
  assert (Hfr : endsNumber fr)
    by (unfold fr; destruct (Qeq_bool _ 0); [left|right]; eauto).
  assert (Hbody : JS.splitSpaceHead ((JS.naturalToString i ++ fr) ++ " " ++ u)%string
                  = (JS.naturalToString i ++ JS.splitSpaceHead (fr ++ String " " u))%string).
  { unfold JS.naturalToString. rewrite !decimalDigits_app.
    change (String.append "" fr) with fr.
    change (String.append "" (JS.splitSpaceHead (fr ++ String " " u)))
      with (JS.splitSpaceHead (fr ++ String " " u)).
    apply splitSpaceHead_decimalDigits. }
  pose proof (parseInt_rendered_natural i _ Hi (splitSpaceHead_tail fr u Hfr)) as Hparse.
  destruct (Qlt_le_dec q 0).
  - change (("-" ++ JS.naturalToString i ++ fr) ++ " " ++ u)%string
      with (String "-" ((JS.naturalToString i ++ fr) ++ " " ++ u)%string).
    cbn [JS.splitSpaceHead]. change (Ascii.eqb "-" " ") with false. cbn iota.
    rewrite Hbody.
    assert (exists c rest, plainDigit c
              /\ (JS.naturalToString i ++ JS.splitSpaceHead (fr ++ String " " u))%string
                 = String c rest) as (c & rest & Hc & Hhead).
    { unfold JS.naturalToString. rewrite decimalDigits_app.
      apply decimalDigits_head. exact Hi. }
    rewrite Hhead in *. rewrite (parseInt_minus c rest Hc), Hparse.
    unfold fmap, option_fmap, option_map. f_equal; lia.
  - change (("" ++ JS.naturalToString i ++ fr) ++ " " ++ u)%string
      with ((JS.naturalToString i ++ fr) ++ " " ++ u)%string.
    rewrite Hbody, Hparse. f_equal. lia.
Qed.

Lemma readingString_head (q : Q) (u : string) :
  exists c rest, (JS.numberToString q ++ " " ++ u)%string = String c rest
                 /\ Ascii.eqb c "u" = false.
Proof.
  unfold JS.numberToString.
  set (i := Qfloor (Qabs q)).
  assert (Hi : 0 <= i) by apply Qfloor_Qabs_nonneg.
  set (fr := if Qeq_bool _ 0 then _ else _).
  destruct (Qlt_le_dec q 0).
  - eexists _, _. split; reflexivity.
  - change (("" ++ JS.naturalToString i ++ fr) ++ " " ++ u)%string
      with ((JS.naturalToString i ++ fr) ++ " " ++ u)%string.
    unfold JS.naturalToString. rewrite !decimalDigits_app.
    destruct (decimalDigits_head (Z.to_nat (Z.log2 i)) i
                ((String.append "" fr) ++ " " ++ u)%string Hi) as (c & rest & Hc & ->).
    exists c, rest. split; [reflexivity|]. apply plainDigit_facts, Hc.
Qed.

Lemma floor_threshold (q : Q) :
  (0 <= q)%Q -> (1000 <? Qfloor (Qabs q)) = Qle_bool 1001 q.
Proof.
  intros Hq. destruct q as [n d]. unfold Qle in Hq. cbn in Hq.
  unfold Qabs, Qfloor, Qle_bool. cbn [Qnum Qden].
  rewrite Z.abs_eq by lia.
  destruct (1001 * Z.pos d <=? n * 1) eqn:H.
  - apply Z.leb_le in H. apply Z.ltb_lt.
    assert (1001 <= n / Z.pos d) by (apply Z.div_le_lower_bound; lia). lia.
  - apply Z.leb_gt in H. apply Z.ltb_ge.
    assert (n / Z.pos d < 1001) by (apply Z.div_lt_upper_bound; lia). lia.
Qed.

Lemma classifyReading_number (q : Q) (u : string) :
  classifyReading (Some (JS.numberToString q ++ " " ++ u)%string)
  = if Qle_bool 1001 q then LevelDanger else LevelSafe.
Proof.
  unfold classifyReading.
  destruct (readingString_head q u) as (c & rest & Hhead & Hu).
  rewrite parseInt_reading. rewrite Hhead.
  cbn [String.eqb]. rewrite Hu. cbn [orb andb].
  destruct (Qlt_le_dec q 0) as [Hneg|Hpos].
  - pose proof (Qfloor_Qabs_nonneg q).
    replace (1000 <? -1 * Qfloor (Qabs q)) with false by (symmetry; apply Z.ltb_ge; lia).
    destruct (Qle_bool 1001 q) eqn:Hle; [|reflexivity].
    apply Qle_bool_iff in Hle. exfalso.
    apply (Qlt_irrefl q). apply (Qlt_le_trans _ 0 _ Hneg).
    apply (Qle_trans _ 1001); [discriminate|exact Hle].
  - rewrite Z.mul_1_l, (floor_threshold q Hpos). reflexivity.
Qed.

(** ** The danger level of a carbon dioxide reading (data-manager.ts) *)

Lemma getCarbonDioxideDangerLevel_known (dm : DataManager) (areaId : string)
    (i : nat) (area : Area) :
  findArea (Some areaId) (data_areas dm) = Some (i, area) ->
  getCarbonDioxideDangerLevel areaId dm
  = (dm, Ok (classifyReading
               (readingString carbonDioxideUnitString
                  <$> a_carbonDioxideSensor area))).
Proof.
  intros H.
  unfold getCarbonDioxideDangerLevel, getCarbonDioxideInsideReading, bind, getState.
  cbn. rewrite H. reflexivity.
Qed.

(** C9, as the code has it.  For a known area, the level is "unknown" when no
    carbon dioxide sensor was configured or its state is "unavailable";
    for a numeric reading below 1e21 (where a template literal prints plain
    digits) it is "danger" exactly when the reading is 1001 or more: the
    reading is printed, cut at the first space and read back by [parseInt],
    which drops the fraction.  So 1000 is "safe", 1001 is "danger", and a
    reading strictly between 1000 and 1001 is "safe". *)
Theorem carbonDioxide_danger_level (dm : DataManager) (areaId : string)
    (i : nat) (area : Area) :
  findArea (Some areaId) (data_areas dm) = Some (i, area) ->
  (a_carbonDioxideSensor area = None ->
     getCarbonDioxideDangerLevel areaId dm = (dm, Ok LevelUnknown))
  /\ (forall sensor,
        a_carbonDioxideSensor area = Some sensor ->
        s_state sensor = SensorUnavailable ->
        getCarbonDioxideDangerLevel areaId dm = (dm, Ok LevelUnknown))
  /\ (forall sensor (q : JS.number),
        a_carbonDioxideSensor area = Some sensor ->
        s_state sensor = Reading q ->
        (q < inject_Z (10 ^ 21))%Q ->
        getCarbonDioxideDangerLevel areaId dm
        = (dm, Ok (if Qle_bool 1001 q then LevelDanger else LevelSafe)))
  /\ (forall sensor,
        a_carbonDioxideSensor area = Some sensor ->
        s_state sensor = Reading 1000%Q ->
        getCarbonDioxideDangerLevel areaId dm = (dm, Ok LevelSafe))
  /\ (forall sensor,
        a_carbonDioxideSensor area = Some sensor ->
        s_state sensor = Reading 1001%Q ->
        getCarbonDioxideDangerLevel areaId dm = (dm, Ok LevelDanger)).
Proof.
  intros Harea. rewrite (getCarbonDioxideDangerLevel_known dm areaId i area Harea).
  assert (Hnum : forall sensor (q : JS.number),
             a_carbonDioxideSensor area = Some sensor ->
             s_state sensor = Reading q ->
             classifyReading (readingString carbonDioxideUnitString
                                <$> a_carbonDioxideSensor area)
             = if Qle_bool 1001 q then LevelDanger else LevelSafe).
  { intros sensor q -> Hq. cbn. unfold readingString. rewrite Hq.
    apply classifyReading_number. }
  repeat split.
  - intros ->. reflexivity.
  - intros sensor -> Hs. cbn. unfold readingString. rewrite Hs. reflexivity.
  - intros sensor q Hsensor Hq _. rewrite (Hnum sensor q Hsensor Hq). reflexivity.
  - intros sensor Hsensor Hq. rewrite (Hnum sensor _ Hsensor Hq). reflexivity.
  - intros sensor Hsensor Hq. rewrite (Hnum sensor _ Hsensor Hq). reflexivity.
Qed.

Lemma carbonDioxide_danger_level_witness :
  let dm := deliver (sensorQuartet "1000") started in
  getCarbonDioxideDangerLevel "living_room" dm = (dm, Ok LevelSafe).
Proof.
  exact (proj1 (proj2 (proj2 (proj2
           (carbonDioxide_danger_level (deliver (sensorQuartet "1000") started)
              "living_room" 0%nat
              (mkArea "living_room" "Living room" None 0%nat None None
                 (Some (mkSensor "living_room" "Living room" (Some "d2")
                          "Aranet4" "sensor.aranet4_23eff_carbon_dioxide"
                          (Reading 1000%Q) Ppm)))
              eq_refl)))) _ eq_refl eq_refl).
Defined.

(** C9, as stated, fails above 1000 and below 1001: a reading of 1000.5 ppm
    is strictly above 1000 and is classified "safe". *)
Lemma reading_above_1000_is_safe :
  let dm := deliver (sensorQuartet "1000.5") started in
  (s_state <$> (data_areas dm !! 0%nat ≫= a_carbonDioxideSensor)
   = Some (Reading 1000.5%Q))
  /\ (1000 < 1000.5)%Q
  /\ getCarbonDioxideDangerLevel "living_room" dm = (dm, Ok LevelSafe).
Proof.
  cbv zeta. split; [|split].
  - vm_compute. reflexivity.
  - reflexivity.
  - vm_compute. reflexivity.
Qed.

(** ** Incremental patches of a light (data-manager.ts) *)

Lemma updateLightStateIn_none (entityId : string) (entityState : HassEntityState)
    (dm : DataManager) :
  forall areas : list Area,
    Forall (fun area => ~ holdsLight dm entityId area) areas ->
    updateLightStateIn areas entityId entityState dm = (dm, Ok None).
Proof.
  induction areas as [|area rest IH]; intros Hnone; [reflexivity|].
  inversion Hnone as [|? ? Harea Hrest]; subst.
  cbn [updateLightStateIn]. unfold bind at 1, getState.
  unfold holdsLight in Harea.
  destruct (list_find _ (lightsAt (store dm) (a_lights area))) as [[i light]|].
  - exfalso. apply Harea. eauto.
  - apply IH, Hrest.
Qed.

Lemma updateLightStateIn_first (entityId : string) (entityState : HassEntityState)
    (dm : DataManager) (pre post : list Area) (area : Area) (i : nat) (light : Light) :
  Forall (fun area => ~ holdsLight dm entityId area) pre ->
  list_find (fun l => l_entityId l = entityId) (lightsAt (store dm) (a_lights area))
  = Some (i, light) ->
  updateLightStateIn (pre ++ area :: post) entityId entityState dm
  = (setLights (a_lights area)
       (<[i := patchLight entityState light]> (lightsAt (store dm) (a_lights area))) dm,
     Ok (Some (a_id area))).
Proof.
  intros Hpre Hfind. induction pre as [|first pre IH].
  - cbn [app updateLightStateIn]. unfold bind at 1, getState. rewrite Hfind.
    reflexivity.
  - inversion Hpre as [|? ? Hfirst Hrest]; subst.
    cbn [app updateLightStateIn]. unfold bind at 1, getState.
    unfold holdsLight in Hfirst.
    destruct (list_find _ (lightsAt (store dm) (a_lights first))) as [[k l]|].
    + exfalso. apply Hfirst. eauto.
    + apply IH, Hrest.
Qed.

(** An array in which something was found is an allocated one. *)
Lemma lightsAt_found (st : list (list Light)) (r : ArrayRef) (P : Light -> Prop)
    `{!forall l, Decision (P l)} (i : nat) (light : Light) :
  list_find P (lightsAt st r) = Some (i, light) ->
  st !! r = Some (lightsAt st r).
Proof.
  unfold lightsAt. destruct (st !! r) as [arr|]; [reflexivity|]. cbn. discriminate.
Qed.

(** C10.  A patch without an attribute object ([a] absent), applied by
    [updateLightState]: when no area holds a light with the entity id, the
    manager is left as it was and [null] is returned; otherwise, in the
    first area that holds one, the light found gets the new [state] and
    keeps every other field ([brightnessPercentage] and [rgbColor] among
    them), the id of that area is returned, the area list, the buffers and
    the client are unchanged, every other array of the store is unchanged,
    and so are the lights of every other area, each area owning its own
    array. *)
Theorem updateLightState_frame (dm : DataManager) (entityId : string)
    (entityState : HassEntityState) :
  hs_a entityState = None ->
  (Forall (fun area => ~ holdsLight dm entityId area) (data_areas dm) ->
     updateLightState entityId entityState dm = (dm, Ok None))
  /\ (forall (pre post : list Area) (area : Area) (i : nat) (light : Light),
        data_areas dm = pre ++ area :: post ->
        Forall (fun area => ~ holdsLight dm entityId area) pre ->
        list_find (fun l => l_entityId l = entityId)
          (lightsAt (store dm) (a_lights area)) = Some (i, light) ->
        exists dm',
          updateLightState entityId entityState dm = (dm', Ok (Some (a_id area)))
          /\ data_areas dm' = data_areas dm
          /\ incomingData dm' = incomingData dm
          /\ wsClient dm' = wsClient dm
          /\ lightsAt (store dm') (a_lights area)
             = <[i := mkLight (l_areaId light) (l_areaName light) (l_deviceId light)
                        (l_deviceName light) (l_entityId light)
                        (getLightState (hs_s entityState))
                        (l_brightnessPercentage light) (l_rgbColor light)]>
                 (lightsAt (store dm) (a_lights area))
          /\ (forall r : ArrayRef,
                r <> a_lights area -> store dm' !! r = store dm !! r)
          /\ (NoDup (map a_lights (data_areas dm)) ->
              forall other, other ∈ pre ++ post ->
                lightsAt (store dm') (a_lights other)
                = lightsAt (store dm) (a_lights other))).
Proof.
  intros Ha. split.
  - intros Hnone. unfold updateLightState, bind, getState.
    apply updateLightStateIn_none, Hnone.
  - intros pre post area i light Hareas Hpre Hfind.
    eexists. split.
    { unfold updateLightState, bind, getState. rewrite Hareas.
      apply updateLightStateIn_first; eassumption. }
    pose proof (lightsAt_found _ _ _ _ _ Hfind) as Hvalid.
    assert (Hlt : (a_lights area < length (store dm))%nat)
      by (eapply lookup_lt_Some, Hvalid).
    repeat split.
    + unfold patchLight, withLightState. rewrite Ha.
      unfold lightsAt at 1. cbn [store setLights setStore].
      rewrite list_lookup_insert_eq by exact Hlt. reflexivity.
    + intros r Hr. cbn [store setLights setStore].
      apply list_lookup_insert_ne. congruence.
    + intros Hnodup other Hother.
      assert (a_lights other <> a_lights area) as Hne.
      { rewrite Hareas, map_app in Hnodup. cbn [map] in Hnodup.
        apply NoDup_app in Hnodup as (Hn1 & Hn2 & Hn3).
        apply NoDup_cons in Hn3 as (Hn3 & Hn4).
        apply elem_of_app in Hother as [Hin|Hin].
        - intros Heq. apply (Hn2 (a_lights other)).
          + apply list_elem_of_fmap. eauto.
          + rewrite Heq. left.
        - intros Heq. apply Hn3. rewrite <- Heq. apply list_elem_of_fmap. eauto. }
      unfold lightsAt. cbn [store setLights setStore].
      rewrite list_lookup_insert_ne by congruence. reflexivity.
Qed.

Lemma updateLightState_frame_witness :
  let dm := deliver (sampleQuartet "on") started in
  let patch := mkHassEntityState (Some "off") None in
  exists dm',
    updateLightState "light.desk" patch dm = (dm', Ok (Some "office"))
    /\ data_areas dm' = data_areas dm
    /\ map l_state (lightsAt (store dm') 3%nat) = [Off]
    /\ map l_brightnessPercentage (lightsAt (store dm') 3%nat) = [Some 50%Q]
    /\ (forall other, other ∈ take 3 (data_areas dm) ->
          lightsAt (store dm') (a_lights other) = lightsAt (store dm) (a_lights other)).
Proof.
  cbv zeta.
  destruct (proj2 (updateLightState_frame (deliver (sampleQuartet "on") started)
                     "light.desk" (mkHassEntityState (Some "off") None) eq_refl)
              (take 3 (data_areas (deliver (sampleQuartet "on") started))) []
              (mkArea "office" "Office" None 3%nat None None None) 0%nat
              (mkLight "office" "Office" (Some "d1") "Desk lamp" "light.desk" On
                 (Some 50%Q) None)
              eq_refl)
    as (dm' & Hrun & Hareas & _ & _ & Hlights & _ & Hothers).
  - repeat constructor; intros [x Hx]; discriminate Hx.
  - reflexivity.
  - cbn [a_lights] in Hlights.
    exists dm'. split; [exact Hrun|]. split; [exact Hareas|].
    split; [rewrite Hlights; reflexivity|]. split; [rewrite Hlights; reflexivity|].
    intros other Hother. apply Hothers.
    + vm_compute. repeat constructor; cbn; rewrite ?elem_of_cons, ?elem_of_nil; lia.
    + rewrite app_nil_r. exact Hother.
Defined.

(** ** The rebuild as three pure passes (data-manager.ts) *)

Lemma setStore_same (dm : DataManager) : setStore (store dm) dm = dm.
Proof. destruct dm; reflexivity. Qed.

Lemma setAreas_same (dm : DataManager) : setAreas (data_areas dm) dm = dm.
Proof. destruct dm; reflexivity. Qed.

Lemma mapAreas_run (staleAreas : list Area) :
  forall (areas : list HassArea) (dm : DataManager),
    mapAreas staleAreas areas dm
    = (setStore (store dm ++ replicate (length areas) []) dm,
       Ok (mergedAreas staleAreas (length (store dm)) areas)).
Proof.
  induction areas as [|area rest IH]; intros dm.
  - cbn. rewrite app_nil_r, setStore_same. reflexivity.
  - cbn [mapAreas]. unfold bind at 1. unfold mergeArea, bind, getState, modify, ret.
    rewrite IH. cbn [store setStore data_areas wsClient incomingData].
    rewrite length_app, <- app_assoc. cbn [length replicate app mergedAreas].
    replace (length (store dm) + 1)%nat with (S (length (store dm))) by lia.
    reflexivity.
Qed.

Lemma updateAreas_run (areas : list HassArea) (dm : DataManager) :
  updateAreas areas dm
  = (setAreas (mergedAreas (data_areas dm) (length (store dm)) areas)
       (setStore (store dm ++ replicate (length areas) []) dm),
     Ok tt).
Proof.
  unfold updateAreas, bind, getState. rewrite mapAreas_run. reflexivity.
Qed.

Lemma updateLight_run (devices : list HassDevice) (entities : list HassEntity)
    (entityStates : Dict.t HassEntityState) (entityId : string) (dm : DataManager) :
  updateLight devices entities entityStates entityId dm
  = match deriveLight (data_areas dm) devices entities entityStates entityId with
    | Ok None => (dm, Ok tt)
    | Ok (Some (r, light)) => (setStore (upsertLight r light (store dm)) dm, Ok tt)
    | Throw e => (dm, Throw e)
    end.
Proof.
  unfold updateLight, deriveLight.
  destruct (negb _); [reflexivity|].
  unfold bind, liftResult, getState.
  destruct (getStateEntityDeviceForEntityId _ _ _ _) as [[[state entity] device]|e];
    [|reflexivity].
  destruct (findArea _ _) as [[i area]|]; [|reflexivity].
  destruct state as [state|]; [|reflexivity].
  destruct (hs_a state); reflexivity.
Qed.

Lemma updateLights_run (devices : list HassDevice) (entities : list HassEntity)
    (entityStates : Dict.t HassEntityState) :
  forall (keys : list string) (dm : DataManager),
    forEach keys (updateLight devices entities entityStates) dm
    = (setStore (fst (storeLights (deriveLight (data_areas dm) devices entities
                                     entityStates) keys (store dm))) dm,
       snd (storeLights (deriveLight (data_areas dm) devices entities entityStates)
              keys (store dm))).
Proof.
  induction keys as [|key rest IH]; intros dm.
  - cbn. rewrite setStore_same. reflexivity.
  - cbn [forEach storeLights]. unfold bind at 1. rewrite updateLight_run.
    destruct (deriveLight _ _ _ _ key) as [[[r light]|]|e].
    + rewrite IH. reflexivity.
    + apply IH.
    + cbn. rewrite setStore_same. reflexivity.
Qed.

Lemma updateSensor_run (devices : list HassDevice) (entities : list HassEntity)
    (entityStates : Dict.t HassEntityState) (entityId : string)
    (dashboard : DashboardConfig) (dm : DataManager) :
  updateSensor devices entities entityStates entityId dashboard dm
  = match deriveSensor (data_areas dm) devices entities entityStates
            (entityId, dashboard) with
    | Ok None => (dm, Ok tt)
    | Ok (Some op) => (setAreas (runOp op (data_areas dm)) dm, Ok tt)
    | Throw e => (dm, Throw e)
    end.
Proof.
  unfold updateSensor, deriveSensor, bind, getState, liftResult, assignArea, modify.
  destruct (findArea _ _) as [[i area]|]; [|reflexivity].
  repeat case_decide;
    try (destruct (getStateEntityDeviceForEntityId _ _ _ _)
           as [[[[state|] entity] device]|e]; reflexivity).
  reflexivity.
Qed.

Lemma forEach_app {S A} (body : A -> Method S unit) (xs ys : list A) (st : S) :
  forEach (xs ++ ys) body st = (exec forEach xs body; forEach ys body) st.
Proof.
  revert st. induction xs as [|x xs IH]; intros st; [reflexivity|].
  cbn [app forEach]. unfold bind. destruct (body x st) as [st' [[]|e]]; [|reflexivity].
  rewrite IH. reflexivity.
Qed.

Lemma forEach_fmap {S A B} (f : A -> B) (body : B -> Method S unit) (xs : list A)
    (st : S) :
  forEach (f <$> xs) body st = forEach xs (fun x => body (f x)) st.
Proof.
  revert st. induction xs as [|x xs IH]; intros st; [reflexivity|].
  cbn [fmap list_fmap forEach]. unfold bind.
  destruct (body (f x) st) as [st' [[]|e]]; [|reflexivity]. apply IH.
Qed.

Lemma forEach_pairs (body : string -> DashboardConfig -> Method DataManager unit)
    (keys : list string) (dm : DataManager) :
  forEach keys (fun key => forEach dashboardConfigs (body key)) dm
  = forEach (sensorPairs keys) (fun visit => body (fst visit) (snd visit)) dm.
Proof.
  revert dm. induction keys as [|key rest IH]; intros dm; [reflexivity|].
  unfold sensorPairs. cbn [mbind list_bind]. rewrite forEach_app.
  cbn [forEach]. unfold bind. rewrite forEach_fmap. cbn [fst snd].
  destruct (forEach dashboardConfigs (body key) dm) as [dm' [[]|e]]; [|reflexivity].
  apply IH.
Qed.

Lemma assignSensors_run (devices : list HassDevice) (entities : list HassEntity)
    (entityStates : Dict.t HassEntityState) :
  forall (pairs : list (string * DashboardConfig)) (dm : DataManager),
    forEach pairs (fun visit =>
      updateSensor devices entities entityStates (fst visit) (snd visit)) dm
    = (setAreas (fst (assignSensors
                        (fun areas => deriveSensor areas devices entities entityStates)
                        pairs (data_areas dm))) dm,
       snd (assignSensors
              (fun areas => deriveSensor areas devices entities entityStates)
              pairs (data_areas dm))).
Proof.
  induction pairs as [|[key dashboard] rest IH]; intros dm.
  - cbn. rewrite setAreas_same. reflexivity.
  - cbn [forEach assignSensors fst snd]. unfold bind at 1. rewrite updateSensor_run.
    destruct (deriveSensor _ _ _ _ (key, dashboard)) as [[op|]|e].
    + rewrite IH. reflexivity.
    + apply IH.
    + cbn. rewrite setAreas_same. reflexivity.
Qed.

Lemma updateSensors_run (devices : list HassDevice) (entities : list HassEntity)
    (entityStates : Dict.t HassEntityState) (dm : DataManager) :
  updateSensors devices entities entityStates dm
  = (setAreas (fst (assignSensors
                      (fun areas => deriveSensor areas devices entities entityStates)
                      (sensorPairs (Dict.keys entityStates)) (data_areas dm))) dm,
     snd (assignSensors
            (fun areas => deriveSensor areas devices entities entityStates)
            (sensorPairs (Dict.keys entityStates)) (data_areas dm))).
Proof.
  unfold updateSensors. rewrite forEach_pairs. apply assignSensors_run.
Qed.

(** The whole rebuild as a composition of the three pure passes. *)
Lemma rebuild_run (areas : list HassArea) (devices : list HassDevice)
    (entities : list HassEntity) (entityStates : Dict.t HassEntityState)
    (dm : DataManager) :
  let merged := mergedAreas (data_areas dm) (length (store dm)) areas in
  let allocated := store dm ++ replicate (length areas) [] in
  let lit := storeLights (deriveLight merged devices entities entityStates)
               (Dict.keys entityStates) allocated in
  let sensed := assignSensors
                  (fun areas => deriveSensor areas devices entities entityStates)
                  (sensorPairs (Dict.keys entityStates)) merged in
  rebuild areas devices entities entityStates dm
  = match snd lit with
    | Throw e =>
        (mkDataManager (wsClient dm) merged (fst lit) (incomingData dm), Throw e)
    | Ok _ =>
        match snd sensed with
        | Throw e =>
            (mkDataManager (wsClient dm) (fst sensed) (fst lit) (incomingData dm),
             Throw e)
        | Ok _ =>
            (mkDataManager (wsClient dm) (fst sensed) (fst lit)
               (mkIncomingData None None None None), Ok tt)
        end
    end.
Proof.
  cbv zeta. unfold rebuild. unfold bind at 1. rewrite updateAreas_run.
  unfold bind at 1. unfold updateLights. rewrite updateLights_run.
  cbn [data_areas store setAreas setStore wsClient incomingData].
  destruct (storeLights _ _ _) as [st [[]|e]]; cbn [fst snd]; [|reflexivity].
  unfold bind at 1. rewrite updateSensors_run.
  cbn [data_areas store setAreas setStore wsClient incomingData].
  destruct (assignSensors _ _ _) as [ar [[]|e]]; cbn [fst snd]; reflexivity.
Qed.

(** ** The staged buffers (data-manager.ts) *)

Lemma forEach_invariant {S A} (I : S -> Prop) (body : A -> Method S unit)
    (xs : list A) (st : S) :
  (forall x st, I st -> I (fst (body x st))) ->
  I st -> I (fst (forEach xs body st)).
Proof.
  intros Hbody. revert st. induction xs as [|x xs IH]; intros st Hst; [exact Hst|].
  cbn [forEach]. unfold bind. specialize (Hbody x st Hst).
  destruct (body x st) as [st' [[]|e]]; cbn [fst] in *; [|exact Hbody].
  apply IH, Hbody.
Qed.

Lemma updateLightStateIn_incoming (entityId : string) (entityState : HassEntityState) :
  forall (areas : list Area) (dm : DataManager),
    incomingData (fst (updateLightStateIn areas entityId entityState dm))
    = incomingData dm.
Proof.
  induction areas as [|area rest IH]; intros dm; [reflexivity|].
  cbn [updateLightStateIn]. unfold bind at 1, getState.
  destruct (list_find _ _) as [[i light]|]; [reflexivity|apply IH].
Qed.

Lemma applyToModel_incoming (entityId : string) (change : HassEntityState)
    (dm : DataManager) :
  incomingData (fst (applyToModel entityId change dm)) = incomingData dm.
Proof.
  unfold applyToModel. destruct (JS.startsWith _ _).
  - unfold updateLightState. unfold bind, getState.
    pose proof (updateLightStateIn_incoming entityId change (data_areas dm) dm) as H.
    destruct (updateLightStateIn _ _ _ _) as [dm' [r|e]]; exact H.
  - apply (forEach_invariant (fun st => incomingData st = incomingData dm));
      [|reflexivity].
    intros dashboard st Hst. rewrite <- Hst.
    repeat case_decide; try reflexivity;
      unfold updateCarbonDioxideSensor, updateHumiditySensor,
        updateTemperatureSensor, bind, getState, assignArea, modify.
    + destruct (findArea _ _) as [[i area]|]; [|reflexivity].
      destruct (a_carbonDioxideSensor area); reflexivity.
    + destruct (findArea _ _) as [[i area]|]; [|reflexivity].
      destruct (a_humiditySensor area); reflexivity.
    + destruct (list_find _ dashboardConfigs) as [[k d]|]; [|reflexivity].
      destruct (findArea _ _) as [[i area]|]; [|reflexivity].
      destruct (a_temperatureSensor area); reflexivity.
Qed.

Lemma mergeIntoBuffer_arrived (entityId : string) (change : HassEntityState)
    (dm : DataManager) :
  arrived (incomingData (fst (mergeIntoBuffer entityId change dm)))
  = arrived (incomingData dm).
Proof.
  unfold mergeIntoBuffer, modifyIncoming, modify. cbn.
  destruct (in_entityStates (incomingData dm)) eqn:H; [|reflexivity].
  unfold arrived. cbn. rewrite H. reflexivity.
Qed.

(** A patch leaves each buffer empty or full as it was. *)
Lemma onEntityStateChange_arrived (changes : Dict.t HassEntityState) (dm : DataManager) :
  arrived (incomingData (fst (onEntityStateChange changes dm)))
  = arrived (incomingData dm).
Proof.
  unfold onEntityStateChange, bind, getState.
  destruct (in_entityStates (incomingData dm));
    apply (forEach_invariant
             (fun st => arrived (incomingData st) = arrived (incomingData dm)));
    try reflexivity; intros key st Hst;
    (destruct (Dict.get changes key); [|exact Hst]).
  - rewrite mergeIntoBuffer_arrived. exact Hst.
  - rewrite applyToModel_incoming. exact Hst.
Qed.

Lemma syncData_run (dm : DataManager) :
  syncData dm
  = match in_areas (incomingData dm), in_devices (incomingData dm),
          in_entities (incomingData dm), in_entityStates (incomingData dm) with
    | Some areas, Some devices, Some entities, Some entityStates =>
        rebuild areas devices entities entityStates dm
    | _, _, _, _ => (dm, Ok tt)
    end.
Proof.
  unfold syncData, bind, getState.
  destruct (in_areas (incomingData dm)), (in_devices (incomingData dm)),
    (in_entities (incomingData dm)), (in_entityStates (incomingData dm));
    reflexivity.
Qed.

Lemma handle_registry (ev : Event) (k : RegistryKind) (dm : DataManager) :
  kindOf ev = Some k ->
  handle ev dm = syncData (setIncomingData (stage ev (incomingData dm)) dm).
Proof. destruct ev; intros H; try discriminate H; reflexivity. Qed.

Lemma rebuild_clears (areas : list HassArea) (devices : list HassDevice)
    (entities : list HassEntity) (entityStates : Dict.t HassEntityState)
    (dm dm' : DataManager) :
  rebuild areas devices entities entityStates dm = (dm', Ok tt) ->
  incomingData dm' = mkIncomingData None None None None.
Proof.
  rewrite rebuild_run. cbv zeta.
  destruct (snd (storeLights _ _ _)); [|discriminate].
  destruct (snd (assignSensors _ _ _)); [|discriminate].
  intros H. injection H as <-. reflexivity.
Qed.

(** One event against one step of the rule. *)
Lemma handle_quartetStep (ev : Event) (dm : DataManager) :
  rebuildRuns ev dm = snd (quartetStep (arrived (incomingData dm)) (kindOf ev))
  /\ ((rebuildRuns ev dm = true -> snd (handle ev dm) = Ok tt) ->
      arrived (incomingData (fst (handle ev dm)))
      = fst (quartetStep (arrived (incomingData dm)) (kindOf ev))).
Proof.
  destruct (kindOf ev) as [k|] eqn:Hk.
  - unfold rebuildRuns. rewrite Hk, (handle_registry ev k dm Hk), syncData_run.
    destruct dm as [c ar st [ia id ie ies]].
    cbn [incomingData setIncomingData].
    destruct ev; try discriminate Hk; injection Hk as <-;
      cbn [stage withInAreas withInDevices withInEntities withInEntityStates
             in_areas in_devices in_entities in_entityStates];
      destruct ia, id, ie, ies; cbn;
      (split; [reflexivity|]); try reflexivity;
      intros Hok; specialize (Hok eq_refl);
      match goal with
      | |- context [rebuild ?a ?d ?e ?s ?dm] =>
          pose proof (rebuild_clears a d e s dm) as Hc;
          destruct (rebuild a d e s dm) as [dm' r]; cbn [fst snd] in *; subst r;
          rewrite (Hc dm' eq_refl); reflexivity
      end.
  - destruct ev; try discriminate Hk. unfold rebuildRuns. cbn [kindOf quartetStep fst snd].
    split; [reflexivity|]. intros _. apply onEntityStateChange_arrived.
Qed.

Lemma rebuildTrace_quartetFires :
  forall (evs : list Event) (dm : DataManager),
    rebuildsComplete evs dm ->
    rebuildTrace evs dm = quartetFires (arrived (incomingData dm)) (map kindOf evs).
Proof.
  induction evs as [|ev rest IH]; intros dm Hcomplete; [reflexivity|].
  destruct Hcomplete as [Hok Hrest].
  destruct (handle_quartetStep ev dm) as [Hruns Hnext].
  cbn [rebuildTrace quartetFires map]. rewrite Hruns. f_equal.
  rewrite (IH _ Hrest), (Hnext Hok). reflexivity.
Qed.

Lemma quiet_complete :
  forall (evs : list Event) (dm : DataManager),
    Forall (fun fired => fired = false)
      (quartetFires (arrived (incomingData dm)) (map kindOf evs)) ->
    rebuildsComplete evs dm.
Proof.
  induction evs as [|ev rest IH]; intros dm Hquiet; [exact I|].
  cbn [map quartetFires] in Hquiet. apply Forall_cons in Hquiet as [Hhere Hrest].
  destruct (handle_quartetStep ev dm) as [Hruns Hnext].
  assert (Hok : rebuildRuns ev dm = true -> snd (handle ev dm) = Ok tt)
    by (rewrite Hruns, Hhere; discriminate).
  split; [exact Hok|]. apply IH. rewrite (Hnext Hok). exact Hrest.
Qed.

Lemma rebuildTrace_last :
  forall (evs : list Event) (ev : Event) (dm : DataManager),
    rebuildsComplete evs dm ->
    rebuildTrace (evs ++ [ev]) dm
    = quartetFires (arrived (incomingData dm)) (map kindOf (evs ++ [ev])).
Proof.
  induction evs as [|first rest IH]; intros ev dm Hcomplete.
  - cbn. destruct (handle_quartetStep ev dm) as [-> _]. reflexivity.
  - destruct Hcomplete as [Hok Hrest].
    destruct (handle_quartetStep first dm) as [Hruns Hnext].
    cbn [app rebuildTrace quartetFires map]. rewrite Hruns. f_equal.
    rewrite (IH _ _ Hrest), (Hnext Hok). reflexivity.
Qed.

Lemma quartetFires_ordering (kinds : list (option RegistryKind)) :
  kinds ≡ₚ [Some KAreas; Some KDevices; Some KEntities; Some KEntityStates] ->
  quartetFires (mkArrived false false false false) kinds
  = [false; false; false; true].
Proof.
  intros Hperm. symmetry in Hperm. apply permutations_Permutation in Hperm.
  vm_compute in Hperm.
  repeat (apply elem_of_cons in Hperm as [->|Hperm]; [reflexivity|]).
  apply elem_of_nil in Hperm. destruct Hperm.
Qed.

(** C1, as the code has it.  A registry event that does not complete the
    quartet only stores its payload; the body of [syncData] runs exactly on
    the registry events after whose assignment all four buffers hold a
    value, with the four buffered values; a rebuild that runs to its end
    leaves the four buffers cleared.  So, from empty buffers, every ordering
    of the four registry events runs the rebuild exactly once, on the fourth
    event; and along any delivery in which every rebuild runs to its end,
    the rebuild runs exactly where the rule of the specification fires: once
    per completed quartet.  (A rebuild that throws leaves the buffers as
    they are.) *)
Theorem staged_rebuild :
  (forall (ev : Event) (k : RegistryKind) (dm : DataManager),
      kindOf ev = Some k ->
      rebuildRuns ev dm = false ->
      handle ev dm = (setIncomingData (stage ev (incomingData dm)) dm, Ok tt))
  /\ (forall (ev : Event) (k : RegistryKind) (dm : DataManager),
        kindOf ev = Some k ->
        rebuildRuns ev dm = true ->
        exists areas devices entities entityStates,
          stage ev (incomingData dm)
          = mkIncomingData (Some areas) (Some devices) (Some entities)
              (Some entityStates)
          /\ handle ev dm
             = rebuild areas devices entities entityStates
                 (setIncomingData (stage ev (incomingData dm)) dm))
  /\ (forall areas devices entities entityStates (dm dm' : DataManager),
        rebuild areas devices entities entityStates dm = (dm', Ok tt) ->
        incomingData dm' = mkIncomingData None None None None)
  /\ (forall (evs : list Event) (dm : DataManager),
        incomingData dm = mkIncomingData None None None None ->
        map kindOf evs
          ≡ₚ [Some KAreas; Some KDevices; Some KEntities; Some KEntityStates] ->
        rebuildTrace evs dm = [false; false; false; true])
  /\ (forall (evs : list Event) (dm : DataManager),
        rebuildsComplete evs dm ->
        rebuildTrace evs dm
        = quartetFires (arrived (incomingData dm)) (map kindOf evs)).
Proof.
  split; [|split; [|split; [|split]]].
  - intros ev k dm Hk Hruns. unfold rebuildRuns in Hruns. rewrite Hk in Hruns.
    rewrite (handle_registry ev k dm Hk), syncData_run.
    cbn [incomingData setIncomingData]. unfold allPresent in Hruns.
    destruct (stage ev (incomingData dm)) as [[a|] [d|] [e|] [s|]];
      try reflexivity; discriminate Hruns.
  - intros ev k dm Hk Hruns. unfold rebuildRuns in Hruns. rewrite Hk in Hruns.
    rewrite (handle_registry ev k dm Hk), syncData_run.
    cbn [incomingData setIncomingData]. unfold allPresent in Hruns.
    destruct (stage ev (incomingData dm)) as [[a|] [d|] [e|] [s|]];
      try discriminate Hruns.
    exists a, d, e, s. split; reflexivity.
  - apply rebuild_clears.
  - intros evs dm Hempty Hperm.
    pose proof (quartetFires_ordering _ Hperm) as Hfires.
    assert (Hlen : length evs = 4%nat)
      by (rewrite <- (length_map kindOf evs), Hperm; reflexivity).
    destruct evs as [|e1 [|e2 [|e3 [|e4 [|]]]]]; try discriminate Hlen.
    change [e1; e2; e3; e4] with ([e1; e2; e3] ++ [e4]).
    rewrite rebuildTrace_last.
    + rewrite Hempty. exact Hfires.
    + apply quiet_complete. rewrite Hempty.
      change (arrived (mkIncomingData None None None None))
        with (mkArrived false false false false).
      cbn [map quartetFires] in Hfires |- *.
      injection Hfires as H1 H2 H3 _. repeat constructor; assumption.
  - apply rebuildTrace_quartetFires.
Qed.

Lemma staged_rebuild_witness :
  rebuildTrace (sampleQuartet "on" ++ sampleQuartet "off") started
  = [false; false; false; true; false; false; false; true].
Proof.
  rewrite (proj2 (proj2 (proj2 (proj2 staged_rebuild)))
             (sampleQuartet "on" ++ sampleQuartet "off") started).
  - reflexivity.
  - repeat split; intros _; vm_compute; reflexivity.
Defined.

(** C1, as stated, fails when a rebuild throws: the quartet is complete at
    the fourth event and the rebuild runs and throws; the buffers are not
    cleared, so the single event that follows runs the rebuild again, where
    the rule fires once. *)
Lemma rebuild_reruns_after_throw :
  let evs := ghostQuartet ++ [EvAreas sampleAreas] in
  outcomes evs started
  = [Ok tt; Ok tt; Ok tt; Throw (EntityNotFound "light.ghost");
     Throw (EntityNotFound "light.ghost")]
  /\ rebuildTrace evs started = [false; false; false; true; true]
  /\ quartetFires (arrived (incomingData started)) (map kindOf evs)
     = [false; false; false; true; false]
  /\ allPresent (incomingData (deliver ghostQuartet started)) = true.
Proof. cbv zeta. repeat split; vm_compute; reflexivity. Qed.

(** ** A rebuild that throws (data-manager.ts) *)

Lemma forEach_throw {S A} (body : A -> Method S unit) :
  forall (xs : list A) (st st' : S) (e : Error),
    forEach xs body st = (st', Throw e) ->
    exists pre x post st1,
      xs = pre ++ x :: post
      /\ forEach pre body st = (st1, Ok tt)
      /\ body x st1 = (st', Throw e).
Proof.
  induction xs as [|x xs IH]; intros st st' e Hrun; [discriminate Hrun|].
  cbn [forEach] in Hrun. unfold bind in Hrun.
  destruct (body x st) as [st1 [[]|e1]] eqn:Hx.
  - destruct (IH _ _ _ Hrun) as (pre & y & post & st2 & -> & Hpre & Hy).
    exists (x :: pre), y, post, st2. split; [reflexivity|]. split; [|exact Hy].
    cbn [forEach]. unfold bind. rewrite Hx. exact Hpre.
  - injection Hrun as <- <-. exists [], x, xs, st. repeat split. exact Hx.
Qed.

Lemma mergedAreas_frame (staleAreas : list Area) :
  forall (areas : list HassArea) (fresh : ArrayRef),
    map (fun x => (a_id x, a_name x, a_floorId x)) (mergedAreas staleAreas fresh areas)
    = map (fun x => (ha_area_id x, ha_name x, ha_floor_id x)) areas.
Proof.
  induction areas as [|area rest IH]; intros fresh; [reflexivity|].
  cbn [mergedAreas map]. rewrite IH. reflexivity.
Qed.

Lemma runOp_frame (op : SensorOp) (areas : list Area) :
  map frame (runOp op areas) = map frame areas.
Proof.
  destruct op as [i v|i v|i v]; cbn [runOp];
    (apply list_eq; intros k; rewrite !list_lookup_fmap;
     destruct (decide (k = i)) as [->|Hne];
     [rewrite list_lookup_alter_eq; destruct (areas !! i); reflexivity
     |rewrite list_lookup_alter_ne by congruence; reflexivity]).
Qed.

Lemma assignSensors_frame
    (derive : list Area -> string * DashboardConfig -> Result (option SensorOp)) :
  forall (pairs : list (string * DashboardConfig)) (areas : list Area),
    map frame (fst (assignSensors derive pairs areas)) = map frame areas.
Proof.
  induction pairs as [|visit rest IH]; intros areas; [reflexivity|].
  cbn [assignSensors]. destruct (derive areas visit) as [[op|]|e]; cbn [fst].
  - rewrite IH. apply runOp_frame.
  - apply IH.
  - reflexivity.
Qed.

Lemma map_frame_ids (xs ys : list Area) :
  map frame xs = map frame ys ->
  map (fun x => (a_id x, a_name x, a_floorId x)) xs
  = map (fun x => (a_id x, a_name x, a_floorId x)) ys.
Proof.
  intros H.
  change (fun x => (a_id x, a_name x, a_floorId x)) with (fst ∘ frame).
  rewrite !(list_fmap_compose frame fst). f_equal. exact H.
Qed.

(** C2, as the code has it.  A rebuild that throws is cut at the throwing
    step and keeps what the steps before it did: the four buffers are as
    they were (not cleared), the area list is already the one merged from
    the new area registry, and the manager is in the state reached by
    [updateAreas] and the loop of [updateLights] over the keys before the
    failing one, or, when the lights went through, by [updateAreas],
    [updateLights] and the loop of [updateSensors] over the visits before
    the failing one.  Nothing is rolled back. *)
Theorem rebuild_abort_keeps_earlier_steps (areas : list HassArea)
    (devices : list HassDevice) (entities : list HassEntity)
    (entityStates : Dict.t HassEntityState) (dm dm' : DataManager) (err : Error) :
  rebuild areas devices entities entityStates dm = (dm', Throw err) ->
  incomingData dm' = incomingData dm
  /\ map (fun x => (a_id x, a_name x, a_floorId x)) (data_areas dm')
     = map (fun x => (ha_area_id x, ha_name x, ha_floor_id x)) areas
  /\ ((exists pre key post,
          Dict.keys entityStates = pre ++ key :: post
          /\ (exec updateAreas areas;
              forEach pre (updateLight devices entities entityStates)) dm
             = (dm', Ok tt)
          /\ updateLight devices entities entityStates key dm' = (dm', Throw err))
      \/ (exists lit pre visit post,
            (exec updateAreas areas;
             updateLights devices entities entityStates) dm = (lit, Ok tt)
            /\ sensorPairs (Dict.keys entityStates) = pre ++ visit :: post
            /\ forEach pre (fun v =>
                 updateSensor devices entities entityStates (fst v) (snd v)) lit
               = (dm', Ok tt)
            /\ updateSensor devices entities entityStates (fst visit) (snd visit) dm'
               = (dm', Throw err))).
Proof.
  intros Hrun. split; [|split].
  - rewrite rebuild_run in Hrun. cbv zeta in Hrun.
    destruct (snd (storeLights _ _ _)); [|injection Hrun as <- _; reflexivity].
    destruct (snd (assignSensors _ _ _)); [discriminate Hrun|].
    injection Hrun as <- _. reflexivity.
  - rewrite rebuild_run in Hrun. cbv zeta in Hrun.
    destruct (snd (storeLights _ _ _)).
    + destruct (snd (assignSensors _ _ _)); [discriminate Hrun|].
      injection Hrun as <- _. cbn [data_areas].
      rewrite (map_frame_ids _ _ (assignSensors_frame _ _ _)).
      apply mergedAreas_frame.
    + injection Hrun as <- _. cbn [data_areas]. apply mergedAreas_frame.
  - unfold rebuild in Hrun. unfold bind at 1 in Hrun.
    destruct (updateAreas areas dm) as [dmA [[]|e]] eqn:HA;
      [|rewrite updateAreas_run in HA; discriminate HA].
    unfold bind at 1 in Hrun. unfold updateLights in *.
    destruct (forEach (Dict.keys entityStates) _ dmA) as [dmL [[]|e]] eqn:HL.
    + right. unfold bind at 1 in Hrun.
      destruct (updateSensors devices entities entityStates dmL) as [dmS [[]|e]] eqn:HS;
        [discriminate Hrun|]. injection Hrun as <- <-.
      unfold updateSensors in HS. rewrite forEach_pairs in HS.
      destruct (forEach_throw _ _ _ _ _ HS)
        as (pre & visit & post & st1 & Hsplit & Hpre & Hvisit).
      assert (st1 = dmS) as ->.
      { rewrite updateSensor_run in Hvisit.
        destruct (deriveSensor _ _ _ _ _) as [[op|]|e']; congruence. }
      exists dmL, pre, visit, post. split; [|repeat split; assumption].
      unfold bind. rewrite HA. exact HL.
    + left. injection Hrun as <- <-.
      destruct (forEach_throw _ _ _ _ _ HL)
        as (pre & key & post & st1 & Hsplit & Hpre & Hkey).
      assert (st1 = dmL) as ->.
      { rewrite updateLight_run in Hkey.
        destruct (deriveLight _ _ _ _ _) as [[[r l]|]|e']; congruence. }
      exists pre, key, post. split; [exact Hsplit|]. split; [|exact Hkey].
      unfold bind. rewrite HA. exact Hpre.
Qed.

Lemma rebuild_abort_keeps_earlier_steps_witness :
  let dm' := fst (rebuild sampleAreas sampleDevices sampleEntities ghostStates started) in
  incomingData dm' = incomingData started
  /\ map (fun x => (a_id x, a_name x, a_floorId x)) (data_areas dm')
     = map (fun x => (ha_area_id x, ha_name x, ha_floor_id x)) sampleAreas
  /\ ((exists pre key post,
          Dict.keys ghostStates = pre ++ key :: post
          /\ (exec updateAreas sampleAreas;
              forEach pre (updateLight sampleDevices sampleEntities ghostStates))
               started = (dm', Ok tt)
          /\ updateLight sampleDevices sampleEntities ghostStates key dm'
             = (dm', Throw (EntityNotFound "light.ghost")))
      \/ (exists lit pre visit post,
            (exec updateAreas sampleAreas;
             updateLights sampleDevices sampleEntities ghostStates) started
            = (lit, Ok tt)
            /\ sensorPairs (Dict.keys ghostStates) = pre ++ visit :: post
            /\ forEach pre (fun v =>
                 updateSensor sampleDevices sampleEntities ghostStates (fst v) (snd v))
                 lit = (dm', Ok tt)
            /\ updateSensor sampleDevices sampleEntities ghostStates
                 (fst visit) (snd visit) dm'
               = (dm', Throw (EntityNotFound "light.ghost")))).
Proof.
  cbv zeta.
  apply (rebuild_abort_keeps_earlier_steps sampleAreas sampleDevices sampleEntities
           ghostStates started).
  vm_compute. reflexivity.
Defined.

(** C2, as stated, fails: before the fourth event the model has no area; the
    rebuild it triggers throws on the light the entity registry lacks, and
    leaves the four areas of the new registry in the model, the office
    holding the light derived before the failing one. *)
Lemma rebuild_abort_is_partial :
  let dm := deliver (take 3 ghostQuartet) started in
  let run := handle (EvEntityStates ghostStates) dm in
  data_areas dm = []
  /\ snd run = Throw (EntityNotFound "light.ghost")
  /\ map a_id (data_areas (fst run)) = ["living_room"; "kitchen"; "bedroom"; "office"]
  /\ map l_entityId (lightsAt (store (fst run)) 3%nat) = ["light.desk"].
Proof. cbv zeta. repeat split; vm_compute; reflexivity. Qed.

(** ** Lights stored by a rebuild (data-manager.ts) *)

Lemma upsertLight_length (r : ArrayRef) (light : Light) (st : list (list Light)) :
  length (upsertLight r light st) = length st.
Proof.
  unfold upsertLight. destruct (list_find _ _) as [[i old]|]; apply length_insert.
Qed.

Lemma upsertLight_stores (r : ArrayRef) (light : Light) (st : list (list Light)) :
  (r < length st)%nat -> stored (upsertLight r light st) r light.
Proof.
  intros Hr. unfold stored, upsertLight.
  destruct (list_find _ (lightsAt st r)) as [[i old]|] eqn:Hfind.
  - exists i. unfold lightsAt at 1. rewrite list_lookup_insert_eq by exact Hr.
    cbn [default from_option id].
    apply list_find_Some in Hfind as (Hi & Hold & Hbefore).
    apply list_find_Some. split; [|split; [reflexivity|]].
    + apply list_lookup_insert_eq. eapply lookup_lt_Some, Hi.
    + intros j y Hj Hlt. rewrite list_lookup_insert_ne in Hj by lia.
      eapply Hbefore; eassumption.
  - exists (length (lightsAt st r)). unfold lightsAt at 1.
    rewrite list_lookup_insert_eq by exact Hr. cbn [default from_option id].
    apply list_find_None in Hfind.
    apply list_find_Some. split; [|split; [reflexivity|]].
    + rewrite lookup_app_r by lia. rewrite Nat.sub_diag. reflexivity.
    + intros j y Hj Hlt. rewrite lookup_app_l in Hj by exact Hlt.
      rewrite Forall_forall in Hfind. apply Hfind.
      eapply list_elem_of_lookup_2, Hj.
Qed.

Lemma stored_allocated (st : list (list Light)) (r : ArrayRef) (light : Light) :
  stored st r light -> st !! r = Some (lightsAt st r).
Proof. intros [i Hi]. eapply lightsAt_found, Hi. Qed.

Lemma upsertLight_keeps (r r' : ArrayRef) (light light' : Light)
    (st : list (list Light)) :
  stored st r light ->
  l_entityId light' <> l_entityId light ->
  stored (upsertLight r' light' st) r light.
Proof.
  intros Hst Hne. pose proof (stored_allocated _ _ _ Hst) as Hr.
  destruct Hst as [i Hi]. exists i.
  destruct (decide (r' = r)) as [->|Hrr].
  - assert (Hlt : (r < length st)%nat) by (eapply lookup_lt_Some, Hr).
    unfold upsertLight.
    apply list_find_Some in Hi as (Hlook & _ & Hbefore).
    destruct (list_find _ (lightsAt st r)) as [[j old]|] eqn:Hfind.
    + unfold lightsAt at 1. rewrite list_lookup_insert_eq by exact Hlt.
      cbn [default from_option id].
      apply list_find_Some in Hfind as (Hj & Hold & _).
      assert (j <> i) by (intros ->; rewrite Hlook in Hj; congruence).
      apply list_find_Some. split; [|split; [reflexivity|]].
      * rewrite list_lookup_insert_ne by congruence. exact Hlook.
      * intros k y Hk Hki. destruct (decide (k = j)) as [->|Hkj].
        -- rewrite list_lookup_insert_eq in Hk by (eapply lookup_lt_Some, Hj).
           injection Hk as <-. exact Hne.
        -- rewrite list_lookup_insert_ne in Hk by congruence.
           eapply Hbefore; eassumption.
    + unfold lightsAt at 1. rewrite list_lookup_insert_eq by exact Hlt.
      cbn [default from_option id].
      apply list_find_Some. split; [|split; [reflexivity|]].
      * rewrite lookup_app_l by (eapply lookup_lt_Some, Hlook). exact Hlook.
      * intros k y Hk Hki.
        rewrite lookup_app_l in Hk
          by (apply lookup_lt_Some in Hlook; lia).
        eapply Hbefore; eassumption.
  - unfold upsertLight, lightsAt at 1.
    destruct (list_find _ (lightsAt st r')) as [[j old]|];
      rewrite list_lookup_insert_ne by congruence; exact Hi.
Qed.

Lemma upsertLight_same (r : ArrayRef) (light : Light) (st : list (list Light)) :
  stored st r light -> upsertLight r light st = st.
Proof.
  intros Hst. pose proof (stored_allocated _ _ _ Hst) as Hr.
  destruct Hst as [i Hi]. unfold upsertLight. rewrite Hi.
  apply list_find_Some in Hi as (Hlook & _).
  rewrite (list_insert_id _ _ _ Hlook). apply list_insert_id, Hr.
Qed.

Lemma storeLights_length (derive : string -> Result (option (ArrayRef * Light))) :
  forall (keys : list string) (st : list (list Light)),
    length (fst (storeLights derive keys st)) = length st.
Proof.
  induction keys as [|key rest IH]; intros st; [reflexivity|].
  cbn [storeLights]. destruct (derive key) as [[[r l]|]|e]; [|apply IH|reflexivity].
  rewrite IH. apply upsertLight_length.
Qed.

Lemma storeLights_keeps (derive : string -> Result (option (ArrayRef * Light)))
    (r : ArrayRef) (light : Light) :
  keyed derive ->
  derive (l_entityId light) = Ok (Some (r, light)) ->
  forall (keys : list string) (st : list (list Light)),
    stored st r light -> stored (fst (storeLights derive keys st)) r light.
Proof.
  intros Hkeyed Hlight. induction keys as [|key rest IH]; intros st Hst; [exact Hst|].
  cbn [storeLights]. destruct (derive key) as [[[r' l']|]|e] eqn:Hkey;
    [|apply IH, Hst|exact Hst].
  apply IH. destruct (decide (l_entityId l' = l_entityId light)) as [Heq|Hne].
  - rewrite <- (Hkeyed _ _ _ Hkey), Heq, Hlight in Hkey.
    injection Hkey as <- <-. rewrite (upsertLight_same _ _ _ Hst). exact Hst.
  - apply upsertLight_keeps; assumption.
Qed.

Lemma storeLights_stores (derive : string -> Result (option (ArrayRef * Light)))
    (key : string) (r : ArrayRef) (light : Light) :
  keyed derive ->
  derive key = Ok (Some (r, light)) ->
  forall (keys : list string) (st : list (list Light)),
    key ∈ keys ->
    (r < length st)%nat ->
    snd (storeLights derive keys st) = Ok tt ->
    stored (fst (storeLights derive keys st)) r light.
Proof.
  intros Hkeyed Hlight.
  assert (Hself : derive (l_entityId light) = Ok (Some (r, light)))
    by (rewrite (Hkeyed _ _ _ Hlight); exact Hlight).
  induction keys as [|k rest IH]; intros st Hin Hr Hok;
    [apply elem_of_nil in Hin; destruct Hin|].
  cbn [storeLights] in *.
  destruct (decide (k = key)) as [->|Hne].
  - rewrite Hlight in *. apply storeLights_keeps; try assumption.
    apply upsertLight_stores, Hr.
  - apply elem_of_cons in Hin as [->|Hin]; [congruence|].
    destruct (derive k) as [[[r' l']|]|e]; [| |discriminate Hok].
    + apply IH; [exact Hin| |exact Hok]. rewrite upsertLight_length. exact Hr.
    + apply IH; assumption.
Qed.

Lemma storeLights_ok (derive : string -> Result (option (ArrayRef * Light))) :
  forall (keys : list string) (st : list (list Light)),
    snd (storeLights derive keys st) = Ok tt ->
    forall key, key ∈ keys -> exists o, derive key = Ok o.
Proof.
  induction keys as [|k rest IH]; intros st Hok key Hin;
    [apply elem_of_nil in Hin; destruct Hin|].
  cbn [storeLights] in Hok.
  destruct (derive k) as [[[r l]|]|e] eqn:Hk; [| |discriminate Hok];
    (apply elem_of_cons in Hin as [->|Hin]; [eauto|eapply IH; eassumption]).
Qed.


Lemma findArea_frame (key : option string) :
  forall xs ys : list Area,
    map frame xs = map frame ys ->
    match findArea key xs, findArea key ys with
    | Some (i, x), Some (j, y) => i = j /\ frame x = frame y
    | None, None => True
    | _, _ => False
    end.
Proof.
  unfold findArea.
  induction xs as [|x xs IH]; intros [|y ys] Hframe; try discriminate Hframe;
    [exact I|].
  assert (Hxy : frame x = frame y) by (cbn [map] in Hframe; congruence).
  assert (Hrest : map frame xs = map frame ys) by (cbn [map] in Hframe; congruence).
  assert (a_id x = a_id y) as Hid by (unfold frame in Hxy; congruence).
  cbn [list_find]. rewrite Hid.
  destruct (decide (Some (a_id y) = key)); [split; [reflexivity|exact Hxy]|].
  specialize (IH ys Hrest).
  destruct (list_find _ xs) as [[i x']|], (list_find _ ys) as [[j y']|];
    cbn; try exact IH. destruct IH as [-> Hf]. split; [reflexivity|exact Hf].
Qed.


Lemma deriveLight_keyed (areas : list Area) (devices : list HassDevice)
    (entities : list HassEntity) (entityStates : Dict.t HassEntityState) :
  keyed (deriveLight areas devices entities entityStates).
Proof.
  intros key r light. unfold deriveLight.
  destruct (negb _); [discriminate|].
  destruct (getStateEntityDeviceForEntityId _ _ _ _) as [[[state entity] device]|e];
    [|discriminate].
  destruct (findArea _ _) as [[i area]|]; [|discriminate].
  destruct state as [state|]; [|discriminate].
  destruct (hs_a state); [|discriminate].
  intros H. injection H as _ <-. reflexivity.
Qed.

(** The light derived for a key of the light domain: where it goes and the
    state it carries. *)
Lemma deriveLight_some (areas : list Area) (devices : list HassDevice)
    (entities : list HassEntity) (entityStates : Dict.t HassEntityState)
    (key : string) (r : ArrayRef) (light : Light) :
  deriveLight areas devices entities entityStates key = Ok (Some (r, light)) ->
  (exists i area, areas !! i = Some area /\ a_lights area = r)
  /\ (exists state, Dict.get entityStates key = Some state
                    /\ l_state light = getLightState (hs_s state)).
Proof.
  unfold deriveLight, getStateEntityDeviceForEntityId.
  destruct (negb _); [discriminate|].
  destruct (list_find _ entities) as [[k entity]|]; [|discriminate].
  destruct (list_find _ devices) as [[k' device]|]; [|discriminate].
  destruct (findArea _ _) as [[i area]|] eqn:Harea; [|discriminate].
  destruct (Dict.get entityStates key) as [state|]; [|discriminate].
  destruct (hs_a state); [|discriminate].
  intros H. injection H as <- <-. split.
  - apply list_find_Some in Harea as (Hi & _). eauto.
  - eauto.
Qed.

Lemma deriveLight_none_not_light (areas : list Area) (devices : list HassDevice)
    (entities : list HassEntity) (entityStates : Dict.t HassEntityState)
    (key : string) :
  deriveLight areas devices entities entityStates key = Ok None ->
  JS.startsWith key lightPrefix = false.
Proof.
  unfold deriveLight. destruct (JS.startsWith key lightPrefix); [|reflexivity].
  cbn [negb].
  destruct (getStateEntityDeviceForEntityId _ _ _ _) as [[[state entity] device]|e];
    [|discriminate].
  destruct (findArea _ _) as [[i area]|]; [|discriminate].
  destruct state as [state|]; [|discriminate].
  destruct (hs_a state); discriminate.
Qed.

Lemma mergedAreas_allocated (staleAreas : list Area) (bound : nat) :
  allocatedBelow bound staleAreas ->
  forall (areas : list HassArea) (fresh : ArrayRef),
    (fresh + length areas <= bound)%nat ->
    allocatedBelow bound (mergedAreas staleAreas fresh areas).
Proof.
  intros Hstale. induction areas as [|area rest IH]; intros fresh Hfresh;
    [constructor|].
  cbn [mergedAreas length] in *. constructor; [|apply IH; lia].
  unfold mergedArea. cbn [a_lights].
  destruct (list_find _ staleAreas) as [[i stale]|] eqn:Hfind; cbn [a_lights]; [|lia].
  apply list_find_Some in Hfind as (Hi & _).
  unfold allocatedBelow in Hstale. rewrite Forall_forall in Hstale.
  apply Hstale. eapply list_elem_of_lookup_2, Hi.
Qed.

(** ** Dictionaries and the patch listener *)

Lemma Dict_get_set_eq {A} (obj : Dict.t A) (key : string) (value : A) :
  Dict.get (Dict.set obj key value) key = Some value.
Proof.
  induction obj as [|[k v] rest IH]; cbn.
  - rewrite String.eqb_refl. reflexivity.
  - destruct (String.eqb k key) eqn:Hk; cbn; rewrite Hk; [reflexivity|exact IH].
Qed.

Lemma Dict_get_set_ne {A} (obj : Dict.t A) (key other : string) (value : A) :
  key <> other ->
  Dict.get (Dict.set obj key value) other = Dict.get obj other.
Proof.
  intros Hne. induction obj as [|[k v] rest IH]; cbn.
  - destruct (String.eqb_spec key other); [contradiction|reflexivity].
  - destruct (String.eqb_spec k key) as [->|Hk]; cbn.
    + destruct (String.eqb_spec key other); [contradiction|reflexivity].
    + destruct (String.eqb k other); [reflexivity|exact IH].
Qed.

Lemma Dict_get_keys {A} (obj : Dict.t A) (key : string) :
  key ∈ Dict.keys obj <-> is_Some (Dict.get obj key).
Proof.
  unfold Dict.keys. induction obj as [|[k v] rest IH]; cbn.
  - split; [intros H; apply elem_of_nil in H; destruct H|intros [x H]; discriminate H].
  - rewrite elem_of_cons. destruct (String.eqb_spec k key) as [->|Hk].
    + split; eauto.
    + rewrite <- IH. split; [intros [H|H]; [congruence|exact H]|auto].
Qed.

Lemma mergeEntityState_state (currentState : option HassEntityState)
    (change : HassEntityState) (v : string) :
  hs_s change = Some v -> hs_s (mergeEntityState currentState change) = Some v.
Proof.
  intros H. destruct currentState as [cur|]; cbn; rewrite H; reflexivity.
Qed.

(** The first regime of the patch listener: every patch is merged into the
    buffered snapshot, and nothing else changes. *)
Lemma merge_loop (changes : Dict.t HassEntityState) :
  forall (keys : list string) (dm : DataManager) (buffer : Dict.t HassEntityState),
    in_entityStates (incomingData dm) = Some buffer ->
    (forall key, key ∈ keys -> is_Some (Dict.get changes key)) ->
    exists buffer',
      forEach keys (fun entityId =>
        match Dict.get changes entityId with
        | None => throw TypeError
        | Some change => mergeIntoBuffer entityId change
        end) dm
      = (setIncomingData (withInEntityStates (Some buffer') (incomingData dm)) dm,
         Ok tt)
      /\ (forall key change v,
            Dict.get changes key = Some change ->
            hs_s change = Some v ->
            key ∈ keys
            \/ (exists m, Dict.get buffer key = Some m /\ hs_s m = Some v) ->
            exists m, Dict.get buffer' key = Some m /\ hs_s m = Some v).
Proof.
  induction keys as [|k rest IH]; intros dm buffer Hbuffer Hkeys.
  - exists buffer. split.
    + cbn. unfold ret. f_equal. destruct dm as [c ar st [ia id ie ies]].
      cbn in *. subst ies. reflexivity.
    + intros key change v _ _ [Hin|Hm]; [apply elem_of_nil in Hin; destruct Hin|exact Hm].
  - destruct (Hkeys k) as [c Hc]; [left|].
    set (buffer1 := Dict.set buffer k (mergeEntityState (Dict.get buffer k) c)).
    set (dm1 := setIncomingData (withInEntityStates (Some buffer1) (incomingData dm)) dm).
    destruct (IH dm1 buffer1 eq_refl) as (buffer' & Hrun & Hkeep).
    { intros key Hin. apply Hkeys. right. exact Hin. }
    exists buffer'. split.
    + assert (Hstep : mergeIntoBuffer k c dm = (dm1, Ok tt)).
      { unfold mergeIntoBuffer, modifyIncoming, modify. rewrite Hbuffer.
        reflexivity. }
      cbn [forEach]. unfold bind. rewrite Hc, Hstep, Hrun. reflexivity.
    + intros key change v Hchange Hv Hcase. apply (Hkeep key change v Hchange Hv).
      destruct (decide (k = key)) as [->|Hne].
      * right. rewrite Hc in Hchange. injection Hchange as ->.
        exists (mergeEntityState (Dict.get buffer key) change). split.
        -- apply Dict_get_set_eq.
        -- apply mergeEntityState_state, Hv.
      * destruct Hcase as [Hin|(m & Hm & Hs)].
        -- apply elem_of_cons in Hin as [->|Hin]; [congruence|left; exact Hin].
        -- right. exists m. split; [|exact Hs].
           unfold buffer1. rewrite Dict_get_set_ne by exact Hne. exact Hm.
Qed.

Lemma handle_stores (ev : Event) (k : RegistryKind) (dm : DataManager) :
  kindOf ev = Some k ->
  rebuildRuns ev dm = false ->
  handle ev dm = (setIncomingData (stage ev (incomingData dm)) dm, Ok tt).
Proof.
  intros Hk Hruns. unfold rebuildRuns in Hruns. rewrite Hk in Hruns.
  rewrite (handle_registry ev k dm Hk), syncData_run.
  cbn [incomingData setIncomingData]. unfold allPresent in Hruns.
  destruct (stage ev (incomingData dm)) as [[a|] [d|] [e|] [s|]];
    try reflexivity; discriminate Hruns.
Qed.

Lemma handle_rebuilds (ev : Event) (k : RegistryKind) (dm : DataManager) :
  kindOf ev = Some k ->
  rebuildRuns ev dm = true ->
  exists areas devices entities entityStates,
    stage ev (incomingData dm)
    = mkIncomingData (Some areas) (Some devices) (Some entities) (Some entityStates)
    /\ handle ev dm
       = rebuild areas devices entities entityStates
           (setIncomingData (stage ev (incomingData dm)) dm).
Proof.
  intros Hk Hruns. unfold rebuildRuns in Hruns. rewrite Hk in Hruns.
  rewrite (handle_registry ev k dm Hk), syncData_run.
  cbn [incomingData setIncomingData]. unfold allPresent in Hruns.
  destruct (stage ev (incomingData dm)) as [[a|] [d|] [e|] [s|]];
    try discriminate Hruns.
  exists a, d, e, s. split; reflexivity.
Qed.

Lemma stage_keeps_states (ev : Event) (k : RegistryKind) (i : IncomingData) :
  kindOf ev = Some k -> k <> KEntityStates ->
  in_entityStates (stage ev i) = in_entityStates i.
Proof. destruct ev; intros Hk Hne; try reflexivity; cbn in Hk; congruence. Qed.

(** Registry events other than the entity states, none of which completes a
    quartet: only their three buffers change. *)
Lemma deliver_quiet :
  forall (evs : list Event) (dm : DataManager),
    Forall (fun ev => exists k, kindOf ev = Some k /\ k <> KEntityStates) evs ->
    Forall (fun fired => fired = false) (rebuildTrace evs dm) ->
    in_entityStates (incomingData (deliver evs dm)) = in_entityStates (incomingData dm)
    /\ data_areas (deliver evs dm) = data_areas dm
    /\ store (deliver evs dm) = store dm.
Proof.
  induction evs as [|ev rest IH]; intros dm Hkinds Hquiet; [repeat split|].
  apply Forall_cons in Hkinds as [(k & Hk & Hne) Hkinds].
  cbn [rebuildTrace] in Hquiet. apply Forall_cons in Hquiet as [Hhere Hquiet].
  cbn [deliver]. rewrite (handle_stores ev k dm Hk Hhere) in *. cbn [fst] in *.
  destruct (IH _ Hkinds Hquiet) as (H1 & H2 & H3).
  rewrite H1, H2, H3. cbn [incomingData setIncomingData data_areas store].
  split; [|split; reflexivity]. apply (stage_keeps_states ev k _ Hk Hne).
Qed.

(** A rebuild that runs to its end has stored a light for every key of the
    light domain, with the state of the buffered entry. *)
Lemma rebuild_stores_light (areas : list HassArea) (devices : list HassDevice)
    (entities : list HassEntity) (entityStates : Dict.t HassEntityState)
    (dm dm' : DataManager) (entityId : string) (state : HassEntityState) :
  rebuild areas devices entities entityStates dm = (dm', Ok tt) ->
  allocatedBelow (length (store dm)) (data_areas dm) ->
  Dict.get entityStates entityId = Some state ->
  JS.startsWith entityId lightPrefix = true ->
  exists area light,
    area ∈ data_areas dm'
    /\ light ∈ lightsAt (store dm') (a_lights area)
    /\ l_entityId light = entityId
    /\ l_state light = getLightState (hs_s state).
Proof.
  intros Hrun Halloc Hstate Hprefix. rewrite rebuild_run in Hrun. cbv zeta in Hrun.
  set (merged := mergedAreas (data_areas dm) (length (store dm)) areas) in *.
  set (allocated := store dm ++ replicate (length areas) []) in *.
  set (derive := deriveLight merged devices entities entityStates) in *.
  destruct (snd (storeLights derive _ allocated)) as [[]|] eqn:Hlit; [|discriminate Hrun].
  destruct (snd (assignSensors _ _ merged)) as [[]|] eqn:Hsensed; [|discriminate Hrun].
  injection Hrun as <-. cbn [data_areas store].
  assert (Hin : entityId ∈ Dict.keys entityStates)
    by (apply Dict_get_keys; eauto).
  destruct (storeLights_ok derive _ _ Hlit entityId Hin) as [[[r light]|] Hderive].
  2:{ apply deriveLight_none_not_light in Hderive. congruence. }
  destruct (deriveLight_some _ _ _ _ _ _ _ Hderive)
    as ((i & area & Harea & Hr) & (state' & Hstate' & Hlight)).
  rewrite Hstate in Hstate'. injection Hstate' as <-.
  assert (Hmerged : allocatedBelow (length allocated) merged).
  { apply mergedAreas_allocated.
    - unfold allocatedBelow in *. eapply Forall_impl; [exact Halloc|].
      intros x Hx. cbn in Hx. unfold allocated. rewrite length_app. lia.
    - unfold allocated. rewrite length_app, length_replicate. lia. }
  assert (Hvalid : (r < length allocated)%nat).
  { unfold allocatedBelow in Hmerged. rewrite Forall_forall in Hmerged.
    rewrite <- Hr. apply Hmerged. eapply list_elem_of_lookup_2, Harea. }
  pose proof (storeLights_stores derive entityId r light
                (deriveLight_keyed _ _ _ _) Hderive _ _ Hin Hvalid Hlit) as [j Hj].
  set (sensed := fst (assignSensors
                        (fun areas => deriveSensor areas devices entities entityStates)
                        (sensorPairs (Dict.keys entityStates)) merged)).
  assert (Hframe : map frame sensed = map frame merged)
    by apply assignSensors_frame.
  assert (exists area', sensed !! i = Some area' /\ a_lights area' = r)
    as (area' & Harea' & Hr').
  { apply (f_equal (fun l => l !! i)) in Hframe.
    rewrite !list_lookup_fmap, Harea in Hframe.
    destruct (sensed !! i) as [area'|]; [|discriminate Hframe].
    exists area'. split; [reflexivity|]. cbn in Hframe. unfold frame in Hframe.
    congruence. }
  exists area', light. split; [eapply list_elem_of_lookup_2, Harea'|].
  rewrite Hr'. split; [|split; [apply (deriveLight_keyed _ _ _ _ _ _ _ Hderive)|exact Hlight]].
  apply list_find_Some in Hj as (Hj & _). eapply list_elem_of_lookup_2, Hj.
Qed.

(** C5, as the code has it.  A patch received while the entity-states buffer
    is held is merged into the buffered snapshot, the state it carries
    winning over the snapshot's, and nothing else changes.  For an entity id
    of the light domain, when the other registries then arrive (areas,
    devices, entities, in any number and order, no new entity-states
    snapshot) and the one that completes the quartet runs the rebuild to its
    end, an area of the model holds a light with that entity id whose state
    is the one of the patch.  (A patch received while no entity-states
    buffer is held goes to the live model only.) *)
Theorem patch_then_rebuild (dm : DataManager) (buffer changes : Dict.t HassEntityState)
    (entityId : string) (change : HassEntityState) (v : string) :
  in_entityStates (incomingData dm) = Some buffer ->
  Dict.get changes entityId = Some change ->
  hs_s change = Some v ->
  exists dm1 buffer1 merged,
    handle (EvEntityStateChange changes) dm = (dm1, Ok tt)
    /\ in_entityStates (incomingData dm1) = Some buffer1
    /\ Dict.get buffer1 entityId = Some merged
    /\ hs_s merged = Some v
    /\ data_areas dm1 = data_areas dm
    /\ store dm1 = store dm
    /\ (JS.startsWith entityId lightPrefix = true ->
        allocatedBelow (length (store dm)) (data_areas dm) ->
        forall (evs : list Event) (ev : Event) (dm2 : DataManager),
          Forall (fun ev => exists k, kindOf ev = Some k /\ k <> KEntityStates)
            (evs ++ [ev]) ->
          Forall (fun fired => fired = false) (rebuildTrace evs dm1) ->
          rebuildRuns ev (deliver evs dm1) = true ->
          handle ev (deliver evs dm1) = (dm2, Ok tt) ->
          exists area light,
            area ∈ data_areas dm2
            /\ light ∈ lightsAt (store dm2) (a_lights area)
            /\ l_entityId light = entityId
            /\ l_state light = getLightState (Some v)).
Proof.
  intros Hbuffer Hchange Hv.
  destruct (merge_loop changes (Dict.keys changes) dm buffer Hbuffer)
    as (buffer1 & Hrun & Hkeep).
  { intros key Hin. apply Dict_get_keys, Hin. }
  destruct (Hkeep entityId change v Hchange Hv) as (merged & Hmerged & Hs).
  { left. apply Dict_get_keys. eauto. }
  eexists _, buffer1, merged. split.
  { unfold handle, onEntityStateChange, bind, getState. rewrite Hbuffer. exact Hrun. }
  split; [reflexivity|]. split; [exact Hmerged|]. split; [exact Hs|].
  split; [reflexivity|]. split; [reflexivity|].
  intros Hprefix Halloc evs ev dm2 Hkinds Hquiet Hruns Hhandle.
  apply Forall_app in Hkinds as [Hkinds Hlast].
  apply Forall_cons in Hlast as [(k & Hk & Hne) _].
  destruct (deliver_quiet evs _ Hkinds Hquiet) as (Hstates & Hareas & Hstore).
  destruct (handle_rebuilds ev k _ Hk Hruns) as (a & d & e & s & Hstage & Hrebuild).
  rewrite Hrebuild in Hhandle.
  assert (s = buffer1) as ->.
  { pose proof (stage_keeps_states ev k (incomingData (deliver evs
        (setIncomingData (withInEntityStates (Some buffer1) (incomingData dm)) dm)))
        Hk Hne) as Hkeeps.
    rewrite Hstage, Hstates in Hkeeps. cbn in Hkeeps. congruence. }
  rewrite <- Hs.
  apply (rebuild_stores_light a d e buffer1 _ dm2 entityId merged Hhandle);
    [|exact Hmerged|exact Hprefix].
  cbn [store data_areas setIncomingData]. rewrite Hareas, Hstore. exact Halloc.
Qed.

Lemma patch_then_rebuild_witness :
  let dm := deliver [EvEntityStates (sampleStates "off")] started in
  let changes := [("light.desk", mkHassEntityState (Some "on") None)] in
  let dm1 := fst (handle (EvEntityStateChange changes) dm) in
  let dm2 := deliver [EvDevices sampleDevices; EvEntities sampleEntities;
                      EvAreas sampleAreas] dm1 in
  exists area light,
    area ∈ data_areas dm2
    /\ light ∈ lightsAt (store dm2) (a_lights area)
    /\ l_entityId light = "light.desk"
    /\ l_state light = On.
Proof.
  cbv zeta.
  destruct (patch_then_rebuild
              (deliver [EvEntityStates (sampleStates "off")] started)
              (sampleStates "off")
              [("light.desk", mkHassEntityState (Some "on") None)]
              "light.desk" (mkHassEntityState (Some "on") None) "on"
              eq_refl eq_refl eq_refl)
    as (dm1 & buffer1 & merged & Hhandle & _ & _ & _ & _ & _ & Hnext).
  rewrite Hhandle. cbn [fst].
  apply (Hnext eq_refl (Forall_nil_2 _)
           [EvDevices sampleDevices; EvEntities sampleEntities]
           (EvAreas sampleAreas)).
  - repeat constructor; eexists; (split; [reflexivity|discriminate]).
  - vm_compute in Hhandle. injection Hhandle as <-. vm_compute. repeat constructor.
  - vm_compute in Hhandle. injection Hhandle as <-. vm_compute. reflexivity.
  - vm_compute in Hhandle. injection Hhandle as <-. vm_compute. reflexivity.
Defined.

(** C5, as stated, fails for a patch received while no entity-states buffer
    is held: before the first rebuild the model has no light to apply it to,
    the manager is left as it was, and the rebuild that follows derives the
    light's state from the snapshot ("off"), not from the patch ("on"). *)
Lemma early_patch_is_dropped :
  let changes := [("light.desk", mkHassEntityState (Some "on") None)] in
  let dm1 := fst (handle (EvEntityStateChange changes) started) in
  let dm2 := deliver (sampleQuartet "off") dm1 in
  dm1 = started
  /\ outcomes (sampleQuartet "off") dm1 = [Ok tt; Ok tt; Ok tt; Ok tt]
  /\ map l_entityId (lightsAt (store dm2) 3%nat) = ["light.desk"]
  /\ map l_state (lightsAt (store dm2) 3%nat) = [Off].
Proof. cbv zeta. repeat split; vm_compute; reflexivity. Qed.

(** ** Running the rebuild twice (data-manager.ts) *)






Lemma deriveSensor_frame (xs ys : list Area) (devices : list HassDevice)
    (entities : list HassEntity) (entityStates : Dict.t HassEntityState)
    (visit : string * DashboardConfig) :
  map frame xs = map frame ys ->
  deriveSensor xs devices entities entityStates visit
  = deriveSensor ys devices entities entityStates visit.
Proof.
  intros Hframe. unfold deriveSensor. destruct visit as [key dashboard].
  pose proof (findArea_frame (Some (dc_areaId dashboard)) xs ys Hframe) as Hfind.
  destruct (findArea _ xs) as [[i x]|], (findArea _ ys) as [[j y]|];
    try (destruct Hfind; fail); [|reflexivity].
  destruct Hfind as [-> Hf]. unfold frame in Hf. injection Hf as -> -> _ _.
  reflexivity.
Qed.


Lemma mergedAreas_lookup (staleAreas : list Area) :
  forall (areas : list HassArea) (fresh : ArrayRef) (j : nat),
    mergedAreas staleAreas fresh areas !! j
    = mergedArea staleAreas (fresh + j)%nat <$> areas !! j.
Proof.
  induction areas as [|area rest IH]; intros fresh j; [reflexivity|].
  destruct j as [|j].
  - cbn. rewrite Nat.add_0_r. reflexivity.
  - cbn [mergedAreas]. rewrite !lookup_cons. rewrite IH.
    replace (S fresh + j)%nat with (fresh + S j)%nat by lia. reflexivity.
Qed.



Lemma upsertLight_frame (r r' : ArrayRef) (light' : Light) (st : list (list Light))
    (k : nat) (light : Light) :
  lightsAt st r !! k = Some light ->
  l_entityId light' <> l_entityId light ->
  lightsAt (upsertLight r' light' st) r !! k = Some light.
Proof.
  intros Hk Hne.
  assert (Hr : st !! r = Some (lightsAt st r)).
  { unfold lightsAt in *. destruct (st !! r); [reflexivity|discriminate Hk]. }
  assert (Hlt : (r < length st)%nat) by (eapply lookup_lt_Some, Hr).
  unfold upsertLight. destruct (decide (r' = r)) as [->|Hrr].
  - destruct (list_find _ (lightsAt st r)) as [[j old]|] eqn:Hfind;
      unfold lightsAt at 1; rewrite list_lookup_insert_eq by exact Hlt;
      cbn [default from_option id].
    + apply list_find_Some in Hfind as (Hj & Hold & _).
      rewrite list_lookup_insert_ne; [exact Hk|].
      intros ->. rewrite Hk in Hj. injection Hj as ->. congruence.
    + rewrite lookup_app_l; [exact Hk|]. eapply lookup_lt_Some, Hk.
  - destruct (list_find _ (lightsAt st r')) as [[j old]|];
      unfold lightsAt at 1; rewrite list_lookup_insert_ne by congruence;
      exact Hk.
Qed.


Lemma findArea_lookup (areaId : option string) (areas : list Area) (i : nat)
    (area : Area) :
  findArea areaId areas = Some (i, area) ->
  areas !! i = Some area /\ Some (a_id area) = areaId.
Proof.
  unfold findArea. intros H. apply list_find_Some in H as (Hi & Hid & _).
  split; assumption.
Qed.

Lemma deriveSensor_slot (areas : list Area) (devices : list HassDevice)
    (entities : list HassEntity) (entityStates : Dict.t HassEntityState)
    (key : string) (dashboard : DashboardConfig) (op : SensorOp) :
  deriveSensor areas devices entities entityStates (key, dashboard) = Ok (Some op) ->
  configured (opKind op) dashboard = Some key
  /\ exists area, areas !! opIndex op = Some area /\ a_id area = dc_areaId dashboard.
Proof.
  unfold deriveSensor.
  destruct (findArea _ areas) as [[i area]|] eqn:Harea; [|discriminate].
  apply findArea_lookup in Harea as [Hi Hid].
  destruct (getStateEntityDeviceForEntityId _ _ _ _) as [[[[state|] entity] device]|e];
    repeat case_decide; try discriminate;
    intros Hop; injection Hop as <-; cbn [opKind opIndex configured];
    (split; [congruence|exists area; split; [exact Hi|congruence]]).
Qed.



Lemma applyOps_untouched (j : nat) :
  forall (ops : list SensorOp) (areas : list Area),
    Forall (fun op => opIndex op <> j) ops ->
    applyOps ops areas !! j = areas !! j.
Proof.
  induction ops as [|op ops IH]; intros areas Hops; [reflexivity|].
  apply Forall_cons in Hops as [Hop Hops].
  change (applyOps (op :: ops) areas) with (applyOps ops (runOp op areas)).
  rewrite (IH _ Hops).
  destruct op as [i v|i v|i v]; cbn in Hop; cbn [runOp];
    apply list_lookup_alter_ne; exact Hop.
Qed.

(** Where a sensor assignment comes from: the area of the dashboard, and a
    key that the dashboard configures as one of its sensors. *)
Lemma deriveSensor_op (areas : list Area) (devices : list HassDevice)
    (entities : list HassEntity) (entityStates : Dict.t HassEntityState)
    (key : string) (dashboard : DashboardConfig) (op : SensorOp) :
  dashboard ∈ dashboardConfigs ->
  deriveSensor areas devices entities entityStates (key, dashboard) = Ok (Some op) ->
  (exists area, areas !! opIndex op = Some area /\ a_id area = dc_areaId dashboard)
  /\ key ∈ configuredSensorIds (dc_areaId dashboard).
Proof.
  intros Hdash. unfold deriveSensor.
  destruct (findArea _ areas) as [[i area]|] eqn:Hfind; [|discriminate].
  apply list_find_Some in Hfind as (Hi & Hid & _). injection Hid as Hid.
  assert (Hconf : forall field,
             field ∈ [dc_humiditySensorEntityId dashboard;
                      dc_temperatureSensorEntityId dashboard;
                      dc_carbonDioxideSensorEntityId dashboard] ->
             Some key = field ->
             key ∈ configuredSensorIds (dc_areaId dashboard)).
  { intros field Hin Hfield. unfold configuredSensorIds.
    apply list_elem_of_bind. exists dashboard. split; [|exact Hdash].
    rewrite decide_True by reflexivity.
    apply list_elem_of_omap. exists field. split; [exact Hin|].
    rewrite <- Hfield. reflexivity. }
  repeat case_decide;
    try (destruct (getStateEntityDeviceForEntityId _ _ _ _)
           as [[[[state|] entity] device]|e]; try discriminate;
         intros Hop; injection Hop as <-; cbn [opIndex];
         split; [eauto|]; eapply Hconf; [|eassumption];
         rewrite !elem_of_cons; auto).
  intros Hno. discriminate Hno.
Qed.

Lemma sensorPairs_elem (keys : list string) (key : string)
    (dashboard : DashboardConfig) :
  (key, dashboard) ∈ sensorPairs keys ->
  key ∈ keys /\ dashboard ∈ dashboardConfigs.
Proof.
  unfold sensorPairs. intros H.
  apply list_elem_of_bind in H as (k & Hin & Hk).
  apply list_elem_of_fmap in Hin as (d & Heq & Hd).
  injection Heq as -> ->. split; assumption.
Qed.

Lemma lightsAt_app (st extra : list (list Light)) (r : ArrayRef) :
  (r < length st)%nat -> lightsAt (st ++ extra) r = lightsAt st r.
Proof.
  intros Hr. unfold lightsAt. rewrite lookup_app_l by exact Hr. reflexivity.
Qed.

Lemma lightsAt_lookup_valid (st : list (list Light)) (r : ArrayRef) (k : nat)
    (light : Light) :
  lightsAt st r !! k = Some light -> (r < length st)%nat.
Proof.
  unfold lightsAt. destruct (st !! r) as [arr|] eqn:Hr; [|discriminate].
  intros _. eapply lookup_lt_Some, Hr.
Qed.




(** ** The arrays of the areas (data-manager.ts) *)

Lemma mergedAreas_own (staleAreas : list Area) (fresh : ArrayRef)
    (areas : list HassArea) :
  allocatedBelow fresh staleAreas ->
  NoDup (map a_lights staleAreas) ->
  NoDup (map ha_area_id areas) ->
  NoDup (map a_lights (mergedAreas staleAreas fresh areas)).
Proof.
  intros Halloc Hstale Hids. apply NoDup_alt. intros i j r Hi Hj.
  rewrite list_lookup_fmap, mergedAreas_lookup in Hi, Hj.
  destruct (areas !! i) as [ai|] eqn:Hai; [|discriminate Hi].
  destruct (areas !! j) as [aj|] eqn:Haj; [|discriminate Hj].
  cbn in Hi, Hj. injection Hi as Hi. injection Hj as Hj.
  unfold mergedArea in Hi, Hj. cbn [a_lights] in Hi, Hj.
  destruct (list_find _ staleAreas) as [[p s1]|] eqn:Hp in Hi;
    destruct (list_find _ staleAreas) as [[q s2]|] eqn:Hq in Hj;
    cbn [a_lights] in Hi, Hj.
  - apply list_find_Some in Hp as (Hp & Hid1 & _).
    apply list_find_Some in Hq as (Hq & Hid2 & _).
    assert (p = q) as ->.
    { apply (NoDup_lookup _ p q r Hstale); rewrite list_lookup_fmap.
      - rewrite Hp. cbn. congruence.
      - rewrite Hq. cbn. congruence. }
    assert (s1 = s2) as -> by congruence.
    apply (NoDup_lookup _ i j (a_id s2) Hids); rewrite list_lookup_fmap.
    + rewrite Hai. cbn. congruence.
    + rewrite Haj. cbn. congruence.
  - apply list_find_Some in Hp as (Hp & _).
    apply list_elem_of_lookup_2 in Hp.
    unfold allocatedBelow in Halloc. rewrite Forall_forall in Halloc.
    specialize (Halloc _ Hp). lia.
  - apply list_find_Some in Hq as (Hq & _).
    apply list_elem_of_lookup_2 in Hq.
    unfold allocatedBelow in Halloc. rewrite Forall_forall in Halloc.
    specialize (Halloc _ Hq). lia.
  - lia.
Qed.

Lemma allocatedBelow_le (bound bound' : nat) (areas : list Area) :
  (bound <= bound')%nat -> allocatedBelow bound areas -> allocatedBelow bound' areas.
Proof.
  intros Hle Hall. unfold allocatedBelow in *.
  eapply Forall_impl; [exact Hall|]. intros x Hx. cbn beta in Hx. lia.
Qed.

Lemma frame_lights (xs ys : list Area) :
  map frame xs = map frame ys -> map a_lights xs = map a_lights ys.
Proof.
  intros H. change a_lights with (snd ∘ frame).
  rewrite !(list_fmap_compose frame snd). f_equal. exact H.
Qed.

Lemma allocatedBelow_lights (bound : nat) (xs ys : list Area) :
  map a_lights xs = map a_lights ys ->
  allocatedBelow bound ys -> allocatedBelow bound xs.
Proof.
  unfold allocatedBelow. intros Hsame Hys.
  apply (Forall_fmap a_lights (fun r => (r < bound)%nat)).
  change (a_lights <$> xs) with (map a_lights xs). rewrite Hsame.
  apply (Forall_fmap a_lights (fun r => (r < bound)%nat)). exact Hys.
Qed.

(** Whether it runs to its end or throws, a rebuild leaves every area with
    an allocated array of its own. *)
Lemma rebuild_own (areas : list HassArea) (devices : list HassDevice)
    (entities : list HassEntity) (entityStates : Dict.t HassEntityState)
    (dm : DataManager) :
  allocatedBelow (length (store dm)) (data_areas dm) ->
  NoDup (map a_lights (data_areas dm)) ->
  NoDup (map ha_area_id areas) ->
  let dm' := fst (rebuild areas devices entities entityStates dm) in
  allocatedBelow (length (store dm')) (data_areas dm')
  /\ NoDup (map a_lights (data_areas dm'))
  /\ (incomingData dm' = incomingData dm
      \/ incomingData dm' = mkIncomingData None None None None).
Proof.
  intros Halloc Hown Hids. cbv zeta. rewrite rebuild_run. cbv zeta.
  set (merged := mergedAreas (data_areas dm) (length (store dm)) areas).
  set (allocated := store dm ++ replicate (length areas) []).
  assert (Hlen : forall derive keys,
             length (fst (storeLights derive keys allocated))
             = (length (store dm) + length areas)%nat).
  { intros derive keys. rewrite storeLights_length. unfold allocated.
    rewrite length_app, length_replicate. reflexivity. }
  assert (Hmerged : allocatedBelow (length (store dm) + length areas) merged).
  { apply mergedAreas_allocated; [|lia].
    eapply allocatedBelow_le, Halloc. lia. }
  assert (Hmown : NoDup (map a_lights merged))
    by (apply mergedAreas_own; assumption).
  assert (Hsensed : forall derive pairs,
             map a_lights (fst (assignSensors derive pairs merged))
             = map a_lights merged)
    by (intros derive pairs; apply frame_lights, assignSensors_frame).
  destruct (snd (storeLights _ _ _)); [destruct (snd (assignSensors _ _ _))|];
    cbn [fst data_areas store incomingData]; rewrite Hlen.
  - split; [|split; [|right; reflexivity]].
    + eapply allocatedBelow_lights; [apply Hsensed|exact Hmerged].
    + rewrite Hsensed. exact Hmown.
  - split; [|split; [|left; reflexivity]].
    + eapply allocatedBelow_lights; [apply Hsensed|exact Hmerged].
    + rewrite Hsensed. exact Hmown.
  - split; [exact Hmerged|]. split; [exact Hmown|left; reflexivity].
Qed.

Lemma updateLightStateIn_shape (entityId : string) (entityState : HassEntityState) :
  forall (areas : list Area) (dm : DataManager),
    let dm' := fst (updateLightStateIn areas entityId entityState dm) in
    length (store dm') = length (store dm) /\ data_areas dm' = data_areas dm.
Proof.
  induction areas as [|area rest IH]; intros dm; [split; reflexivity|].
  cbv zeta. cbn [updateLightStateIn]. unfold bind, getState.
  destruct (list_find _ _) as [[i light]|]; [|apply IH].
  cbn. split; [apply length_insert|reflexivity].
Qed.

Lemma assignArea_shape (i : nat) (f : Area -> Area) (dm : DataManager) :
  (forall x, a_lights (f x) = a_lights x) ->
  let dm' := fst (assignArea i f dm) in
  store dm' = store dm
  /\ map a_lights (data_areas dm') = map a_lights (data_areas dm).
Proof.
  intros Hf. cbv zeta. unfold assignArea, modify. cbn. split; [reflexivity|].
  apply list_eq. intros j. rewrite !list_lookup_fmap.
  destruct (decide (i = j)) as [->|Hne].
  - rewrite list_lookup_alter_eq. destruct (data_areas dm !! j); cbn; [|reflexivity].
    rewrite Hf. reflexivity.
  - rewrite list_lookup_alter_ne by exact Hne. reflexivity.
Qed.

(** A patch applied to the live model moves no array and resizes no store. *)
Lemma applyToModel_shape (entityId : string) (change : HassEntityState)
    (dm : DataManager) :
  let dm' := fst (applyToModel entityId change dm) in
  length (store dm') = length (store dm)
  /\ map a_lights (data_areas dm') = map a_lights (data_areas dm).
Proof.
  cbv zeta. unfold applyToModel. destruct (JS.startsWith _ _).
  - unfold updateLightState. unfold bind, getState.
    pose proof (updateLightStateIn_shape entityId change (data_areas dm) dm) as H.
    cbv zeta in H.
    destruct (updateLightStateIn _ _ _ _) as [dm' [r|e]]; cbn [fst] in *;
      destruct H as [H1 H2]; (split; [exact H1|exact (f_equal (map a_lights) H2)]).
  - apply (forEach_invariant
             (fun st => length (store st) = length (store dm)
                        /\ map a_lights (data_areas st) = map a_lights (data_areas dm)));
      [|split; reflexivity].
    intros dashboard st [Hst1 Hst2]. rewrite <- Hst1, <- Hst2.
    repeat case_decide; try (split; reflexivity);
      unfold updateCarbonDioxideSensor, updateHumiditySensor,
        updateTemperatureSensor, bind, getState.
    + destruct (findArea _ _) as [[i area]|]; [|split; reflexivity].
      destruct (a_carbonDioxideSensor area) as [s|]; [|split; reflexivity].
      match goal with
      | |- context [assignArea i ?f st] =>
          destruct (assignArea_shape i f st) as [-> ->];
            [reflexivity|split; reflexivity]
      end.
    + destruct (findArea _ _) as [[i area]|]; [|split; reflexivity].
      destruct (a_humiditySensor area) as [s|]; [|split; reflexivity].
      match goal with
      | |- context [assignArea i ?f st] =>
          destruct (assignArea_shape i f st) as [-> ->];
            [reflexivity|split; reflexivity]
      end.
    + destruct (list_find _ dashboardConfigs) as [[k d]|]; [|split; reflexivity].
      destruct (findArea _ _) as [[i area]|]; [|split; reflexivity].
      destruct (a_temperatureSensor area) as [s|]; [|split; reflexivity].
      match goal with
      | |- context [assignArea i ?f st] =>
          destruct (assignArea_shape i f st) as [-> ->];
            [reflexivity|split; reflexivity]
      end.
Qed.

Lemma mergeIntoBuffer_shape (entityId : string) (change : HassEntityState)
    (dm : DataManager) :
  let dm' := fst (mergeIntoBuffer entityId change dm) in
  store dm' = store dm /\ data_areas dm' = data_areas dm
  /\ in_areas (incomingData dm') = in_areas (incomingData dm).
Proof.
  cbv zeta. unfold mergeIntoBuffer, modifyIncoming, modify. cbn.
  destruct (in_entityStates (incomingData dm)); repeat split; reflexivity.
Qed.

Lemma syncData_ownArrays (dm : DataManager) :
  ownArrays dm -> ownArrays (fst (syncData dm)).
Proof.
  intros Hdm. rewrite syncData_run.
  destruct (in_areas (incomingData dm)) as [a|] eqn:Ha; [|exact Hdm].
  destruct (in_devices (incomingData dm)) as [d|]; [|exact Hdm].
  destruct (in_entities (incomingData dm)) as [e|]; [|exact Hdm].
  destruct (in_entityStates (incomingData dm)) as [s|]; [|exact Hdm].
  destruct Hdm as (Halloc & Hown & Hbuffer).
  destruct (rebuild_own a d e s dm Halloc Hown (Hbuffer a Ha)) as (H1 & H2 & H3).
  split; [exact H1|]. split; [exact H2|].
  intros areas. destruct H3 as [-> | ->]; [apply Hbuffer|discriminate].
Qed.

(** Every listener keeps the shape of the heap, provided the area registries
    received list each area id once. *)
Lemma handle_ownArrays (ev : Event) (dm : DataManager) :
  uniqueAreaIds ev -> ownArrays dm -> ownArrays (fst (handle ev dm)).
Proof.
  intros Hev (Halloc & Hown & Hbuffer).
  destruct (kindOf ev) as [k|] eqn:Hk.
  - rewrite (handle_registry ev k dm Hk). apply syncData_ownArrays.
    split; [exact Halloc|]. split; [exact Hown|].
    cbn [incomingData setIncomingData]. intros areas.
    destruct ev; cbn; try apply Hbuffer.
    intros H. injection H as <-. exact Hev.
  - destruct ev as [| | | |changes]; try discriminate Hk.
    cbn [handle]. unfold onEntityStateChange, bind, getState.
    destruct (in_entityStates (incomingData dm));
      apply (forEach_invariant ownArrays); try (split; [exact Halloc|split; [exact Hown|exact Hbuffer]]);
      intros key st (H1 & H2 & H3);
      (destruct (Dict.get changes key) as [change|];
       [|split; [exact H1|split; [exact H2|exact H3]]]).
    + destruct (mergeIntoBuffer_shape key change st) as (Hs & Ha & Hi).
      unfold ownArrays. rewrite Hs, Ha, Hi. split; [exact H1|split; [exact H2|exact H3]].
    + destruct (applyToModel_shape key change st) as (Hs & Ha).
      unfold ownArrays. rewrite Hs, Ha, applyToModel_incoming.
      split; [|split; [exact H2|exact H3]].
      eapply allocatedBelow_lights; [exact Ha|exact H1].
Qed.

(** Every state the manager reaches from its construction has the shape:
    the areas point to allocated arrays and no two areas share one. *)
Lemma deliver_ownArrays (evs : list Event) :
  forall dm : DataManager,
    Forall uniqueAreaIds evs -> ownArrays dm -> ownArrays (deliver evs dm).
Proof.
  induction evs as [|ev rest IH]; intros dm Hevs Hdm; [exact Hdm|].
  apply Forall_cons in Hevs as [Hev Hrest].
  cbn [deliver]. apply IH; [exact Hrest|]. apply handle_ownArrays; assumption.
Qed.

Lemma started_ownArrays : ownArrays started.
Proof.
  split; [constructor|]. split; [constructor|]. intros areas H. discriminate H.
Qed.

(** ** The scales of data.ts, beyond the round trips *)

Lemma Math_round_le (x y : Q) :
  (x <= y)%Q -> (JS.Math_round x <= JS.Math_round y)%Q.
Proof.
  intros H. unfold JS.Math_round. rewrite <- Zle_Qle.
  apply Qfloor_resp_le. apply Qplus_le_l. exact H.
Qed.

Lemma getBrightnessPercentage_range (b b' : JS.number) :
  (0 <= b)%Q -> (b <= b')%Q -> (b' <= 255)%Q ->
  exists p p' : Z,
    getBrightnessPercentage (Some (JsNumber b)) = Some (inject_Z p)
    /\ getBrightnessPercentage (Some (JsNumber b')) = Some (inject_Z p')
    /\ 0 <= p /\ p <= p' /\ p' <= 100
    /\ getBrightnessPercentage (Some (JsNumber 0%Q)) = Some 0%Q
    /\ getBrightnessPercentage (Some (JsNumber 255%Q)) = Some 100%Q.
Proof.
  intros H0 Hle H255. unfold getBrightnessPercentage.
  eexists _, _. split; [reflexivity|]. split; [reflexivity|].
  assert (Hscale : forall x y : Q, (x <= y)%Q ->
            (x / 255 * 100 <= y / 255 * 100)%Q).
  { intros x y Hxy. apply Qmult_le_compat_r; [|discriminate].
    apply Qmult_le_compat_r; [exact Hxy|discriminate]. }
  split; [|split; [|split; [|split; reflexivity]]].
  - apply Qfloor_resp_le with (x := 0%Q).
    apply (Qplus_le_l _ _ (1 # 2)) in H0 as H0'.
    eapply Qle_trans; [|apply Qplus_le_l, (Hscale 0%Q b H0)]. discriminate.
  - apply Qfloor_resp_le, Qplus_le_l, Hscale, Hle.
  - change 100 with (Qfloor (255 / 255 * 100 + (1 # 2))).
    apply Qfloor_resp_le, Qplus_le_l, Hscale, H255.
Qed.

Lemma getBrightnessValue_range (p p' : JS.number) :
  (0 <= p)%Q -> (p <= p')%Q -> (p' <= 100)%Q ->
  exists v v' : Z,
    getBrightnessValue (Some p) = inject_Z v
    /\ getBrightnessValue (Some p') = inject_Z v'
    /\ 0 <= v /\ v <= v' /\ v' <= 255
    /\ getBrightnessValue None = 0%Q
    /\ getBrightnessValue (Some 100%Q) = 255%Q.
Proof.
  intros H0 Hle H100. unfold getBrightnessValue.
  eexists _, _. split; [reflexivity|]. split; [reflexivity|].
  assert (Hscale : forall x y : Q, (x <= y)%Q ->
            (x / 100 * 255 <= y / 100 * 255)%Q).
  { intros x y Hxy. apply Qmult_le_compat_r; [|discriminate].
    apply Qmult_le_compat_r; [exact Hxy|discriminate]. }
  split; [|split; [|split; [|split; reflexivity]]].
  - apply Qfloor_resp_le with (x := 0%Q).
    eapply Qle_trans; [|apply Qplus_le_l, (Hscale 0%Q p H0)]. discriminate.
  - apply Qfloor_resp_le, Qplus_le_l, Hscale, Hle.
  - change 255 with (Qfloor (100 / 100 * 255 + (1 # 2))).
    apply Qfloor_resp_le, Qplus_le_l, Hscale, H100.
Qed.

(** X1.  The two scales stay in range and keep the order.
    [getBrightnessPercentage] on a number between 0 and 255 returns a whole
    percentage between 0 and 100, never [null], 0 for 0 and 100 for 255;
    [getBrightnessValue] maps [null] to 0 and a percentage between 0 and
    100 to a whole brightness between 0 and 255, 255 for 100; with both, a
    larger argument never gets a smaller result. *)
Theorem brightness_scales_in_range :
  (forall b b' : JS.number,
      (0 <= b)%Q -> (b <= b')%Q -> (b' <= 255)%Q ->
      exists p p' : Z,
        getBrightnessPercentage (Some (JsNumber b)) = Some (inject_Z p)
        /\ getBrightnessPercentage (Some (JsNumber b')) = Some (inject_Z p')
        /\ 0 <= p /\ p <= p' /\ p' <= 100)
  /\ getBrightnessPercentage (Some (JsNumber 0%Q)) = Some 0%Q
  /\ getBrightnessPercentage (Some (JsNumber 255%Q)) = Some 100%Q
  /\ (forall p p' : JS.number,
        (0 <= p)%Q -> (p <= p')%Q -> (p' <= 100)%Q ->
        exists v v' : Z,
          getBrightnessValue (Some p) = inject_Z v
          /\ getBrightnessValue (Some p') = inject_Z v'
          /\ 0 <= v /\ v <= v' /\ v' <= 255)
  /\ getBrightnessValue None = 0%Q
  /\ getBrightnessValue (Some 100%Q) = 255%Q.
Proof.
  split; [|split; [reflexivity|split; [reflexivity|split; [|split; reflexivity]]]].
  - intros b b' H0 Hle H255.
    destruct (getBrightnessPercentage_range b b' H0 Hle H255)
      as (p & p' & H1 & H2 & H3 & H4 & H5 & _).
    exists p, p'. repeat split; assumption.
  - intros p p' H0 Hle H100.
    destruct (getBrightnessValue_range p p' H0 Hle H100)
      as (v & v' & H1 & H2 & H3 & H4 & H5 & _).
    exists v, v'. repeat split; assumption.
Qed.

(** X2.  The other round trip: a whole brightness converted to its
    percentage and back comes within 1 of the original, and not always to
    it (1 comes back as 0). *)
Theorem brightness_value_round_trip :
  (forall v : Z, exists p : JS.number,
      getBrightnessPercentage (Some (JsNumber (inject_Z v))) = Some p
      /\ (Qabs (getBrightnessValue (Some p) - inject_Z v) <= 1)%Q)
  /\ getBrightnessValue (getBrightnessPercentage (Some (JsNumber 1%Q))) = 0%Q.
Proof.
  split; [|reflexivity].
  intros v. eexists. split; [apply getBrightnessPercentage_integer|].
  rewrite getBrightnessValue_integer. apply Qabs_inject_Z_le.
  Z.div_mod_to_equations. lia.
Qed.

(** X3.  The other direction of the temperature conversion, in the double
    arithmetic of the code: a whole Fahrenheit value from -1000 to 1000
    becomes [round ((f - 32) / 1.8)] degrees Celsius, and that value
    converted back comes within 1 of the original, and not always to it (33
    comes back as 34). *)
Theorem fahrenheit_round_trip :
  (forall f : Z,
      -1000 <= f <= 1000 ->
      exists (c r : IEEE.double) (k : Z),
        IEEE.calcTemperatureValue (IEEE.Reading (IEEE.ofZ f)) Fahrenheit Celsius
        = IEEE.Reading c
        /\ IEEE.calcTemperatureValue (IEEE.Reading c) Celsius Fahrenheit
           = IEEE.Reading r
        /\ IEEE.toZ c = Some ((20 * f - 622) / 36)
        /\ IEEE.toZ r = Some k
        /\ Z.abs (k - f) <= 1)
  /\ (exists c r : IEEE.double,
        IEEE.calcTemperatureValue (IEEE.Reading (IEEE.ofZ 33)) Fahrenheit Celsius
        = IEEE.Reading c
        /\ IEEE.calcTemperatureValue (IEEE.Reading c) Celsius Fahrenheit
           = IEEE.Reading r
        /\ IEEE.toZ r = Some 34).
Proof.
  split.
  - intros f Hf.
    destruct (IEEE_fahrenheit_round_trip f Hf) as (c & r & Hc & Hr & Hcz & Hrz).
    exists c, r, ((18 * ((20 * f - 622) / 36) + 325) / 10).
    repeat (split; [assumption|]).
    Z.div_mod_to_equations. lia.
  - destruct (IEEE_fahrenheit_round_trip 33 ltac:(lia)) as (c & r & Hc & Hr & _ & Hrz).
    exists c, r. repeat (split; [assumption|]). exact Hrz.
Qed.

(** ** Numbers given as text (data.ts) *)

Lemma parseInt10_rendered_natural (n : Z) (tl : string) :
  0 <= n -> endsNumber tl ->
  JS.parseInt (JS.naturalToString n ++ tl)%string (Some 10) = Some n.
Proof.
  intros Hn Htl. unfold JS.naturalToString.
  rewrite decimalDigits_app. change (String.append "" tl) with tl.
  set (fuel := Z.to_nat (Z.log2 n)).
  destruct (decimalDigits_head fuel n tl Hn) as (c & rest & Hc & Hhead).
  pose proof (plainDigit_facts c Hc) as (Hws & Hminus & Hplus & _).
  unfold JS.parseInt. rewrite Hhead. cbn [JS.trimStart]. rewrite Hws.
  cbn [JS.takeSign]. rewrite Hminus, Hplus. cbn [default orb Z.eqb Z.ltb].
  unfold id. cbn [Z.eqb Z.ltb Z.compare Pos.compare Pos.compare_cont orb Pos.eqb].
  rewrite <- Hhead.
  destruct (decimalDigits_parse fuel n tl None (naturalToString_fuel n Hn))
    as (k & Hk & _).
  rewrite Hk. cbn [default]. unfold id.
  replace (0 * 10 ^ k + n) with n by lia.
  assert (JS.parseDigits 10 tl (Some n) = (Some n, tl)) as ->
    by (destruct Htl as [->|[r ->]]; reflexivity).
  unfold fmap, option_fmap, option_map, fst. f_equal. lia.
Qed.

(** X4.  A brightness given as text is read with [parseInt(_, 10)]: the
    decimal digits of a natural number, alone or followed by a fraction,
    give the percentage of that number; the empty text and the text
    [unavailable], which start with no digit, give [null]. *)
Theorem getBrightnessPercentage_text (n : Z) (tl : string) :
  0 <= n -> endsNumber tl ->
  getBrightnessPercentage (Some (JsString (JS.naturalToString n ++ tl)))
  = getBrightnessPercentage (Some (JsNumber (inject_Z n)))
  /\ getBrightnessPercentage (Some (JsString "")) = None
  /\ getBrightnessPercentage (Some (JsString "unavailable")) = None.
Proof.
  intros Hn Htl. split; [|split; reflexivity].
  unfold getBrightnessPercentage at 1.
  rewrite (parseInt10_rendered_natural n tl Hn Htl). reflexivity.
Qed.

Lemma getBrightnessPercentage_text_witness :
  getBrightnessPercentage (Some (JsString "128.7")) = Some 50%Q.
Proof.
  destruct (getBrightnessPercentage_text 128 ".7") as (H & _).
  - lia.
  - right. eexists. reflexivity.
  - exact H.
Defined.

Lemma parseFloat_rendered_natural (n : Z) :
  0 <= n -> JS.parseFloat (JS.naturalToString n) = Some (inject_Z n).
Proof.
  intros Hn. unfold JS.naturalToString.
  set (fuel := Z.to_nat (Z.log2 n)).
  destruct (decimalDigits_head fuel n "" Hn) as (c & rest & Hc & Hhead).
  pose proof (plainDigit_facts c Hc) as (Hws & Hminus & Hplus & _).
  unfold JS.parseFloat. rewrite Hhead. cbn [JS.trimStart]. rewrite Hws.
  cbn [JS.takeSign]. rewrite Hminus, Hplus. rewrite <- Hhead.
  destruct (decimalDigits_parse fuel n "" None (naturalToString_fuel n Hn))
    as (k & Hk & _).
  rewrite Hk. cbn [JS.parseDigits default]. unfold id.
  case_decide as Hnan; [destruct Hnan as [Hnan _]; discriminate Hnan|].
  f_equal. change (JS.pow10 _) with (inject_Z 1).
  unfold Qmult, inject_Z. cbn [Qnum Qden]. rewrite Z.pow_0_r. f_equal. lia.
Qed.

(** X5.  A sensor state given as text is read with [parseFloat]: the decimal
    digits of a natural number up to 2^53, which is a double and is read
    without rounding, give that number as the reading, and the sentinels of
    Home Assistant and the empty text give ["unavailable"]. *)
Theorem getNumericSensorState_text (n : Z) :
  0 <= n <= 2 ^ 53 ->
  getNumericSensorState (Some (JsString (JS.naturalToString n)))
  = Reading (inject_Z n)
  /\ getNumericSensorState (Some (JsString "unavailable")) = SensorUnavailable
  /\ getNumericSensorState (Some (JsString "unknown")) = SensorUnavailable
  /\ getNumericSensorState (Some (JsString "")) = SensorUnavailable
  /\ getNumericSensorState None = SensorUnavailable.
Proof.
  intros [Hn _]. split; [|repeat split; reflexivity].
  unfold getNumericSensorState. rewrite (parseFloat_rendered_natural n Hn).
  reflexivity.
Qed.

Lemma getNumericSensorState_text_witness :
  getNumericSensorState (Some (JsString "1000")) = Reading 1000%Q.
Proof.
  destruct (getNumericSensorState_text 1000) as (H & _); [lia|exact H].
Defined.

(** ** Commands and queries on areas (data-manager.ts, index.ts) *)

Lemma liftClient_cache {A} (m : Method Client A) (dm : DataManager) :
  cache (fst (liftClient m dm)) = cache dm.
Proof. unfold liftClient. destruct (m (wsClient dm)) as [c r]. reflexivity. Qed.

Lemma forEach_cache {A} (body : A -> Method DataManager unit) (xs : list A)
    (dm : DataManager) :
  (forall x st, cache (fst (body x st)) = cache st) ->
  cache (fst (forEach xs body dm)) = cache dm.
Proof.
  intros Hbody.
  apply (forEach_invariant (fun st => cache st = cache dm)); [|reflexivity].
  intros x st Hst. rewrite Hbody. exact Hst.
Qed.

Lemma dimLight_cache (entityId : string) (p : JS.number) (dm : DataManager) :
  cache (fst (dimLight entityId p dm)) = cache dm.
Proof.
  unfold dimLight, turnOffLight. destruct (Qeq_bool _ _); apply liftClient_cache.
Qed.

Lemma getLights_run (areaId : string) (dm : DataManager) :
  getLights areaId dm
  = match findArea (Some areaId) (data_areas dm) with
    | Some (_, area) => (dm, Ok (lightsAt (store dm) (a_lights area)))
    | None => (dm, Throw (AreaNotFound areaId))
    end.
Proof.
  unfold getLights, bind, getState.
  destruct (findArea _ _) as [[i area]|]; reflexivity.
Qed.

Lemma areaLoop_cache (areaId : string) (body : Light -> Method DataManager unit)
    (dm : DataManager) :
  (forall x st, cache (fst (body x st)) = cache st) ->
  cache (fst ((do lights <- getLights areaId; forEach lights body) dm)) = cache dm.
Proof.
  intros Hbody. unfold bind. rewrite getLights_run.
  destruct (findArea _ _) as [[i area]|]; [|reflexivity].
  apply forEach_cache, Hbody.
Qed.

(** X6.  No command updates the cache: whatever they send and whether they
    return or throw, [turnOnLight], [turnOffLight], [dimLight], the three
    commands on all the lights of an area, [handleLightControl] and
    [cleanup] leave the areas, the lights and the buffers as they were.  A
    light turned on stays cached "off" until an event says otherwise. *)
Theorem commands_leave_cache (dm : DataManager) (areaId entityId state : string)
    (brightnessPercentage : JS.number) :
  cache (fst (turnOnLight entityId dm)) = cache dm
  /\ cache (fst (turnOffLight entityId dm)) = cache dm
  /\ cache (fst (dimLight entityId brightnessPercentage dm)) = cache dm
  /\ cache (fst (turnOnAllLights areaId dm)) = cache dm
  /\ cache (fst (turnOffAllLights areaId dm)) = cache dm
  /\ cache (fst (dimAllLights areaId brightnessPercentage dm)) = cache dm
  /\ cache (fst (handleLightControl areaId state dm)) = cache dm
  /\ cache (fst (cleanup dm)) = cache dm.
Proof.
  assert (Hon : forall a st, cache (fst (turnOnAllLights a st)) = cache st).
  { intros a st. apply areaLoop_cache. intros light st'.
    destruct (lightState_eqb _ _); [apply liftClient_cache|reflexivity]. }
  assert (Hoff : forall a st, cache (fst (turnOffAllLights a st)) = cache st).
  { intros a st. apply areaLoop_cache. intros light st'.
    destruct (lightState_eqb _ _); [apply liftClient_cache|reflexivity]. }
  repeat split.
  - apply liftClient_cache.
  - apply liftClient_cache.
  - apply dimLight_cache.
  - apply Hon.
  - apply Hoff.
  - apply areaLoop_cache. intros light st. apply dimLight_cache.
  - unfold handleLightControl. destruct (String.eqb _ _); [apply Hon|apply Hoff].
  - apply liftClient_cache.
Qed.

(** X7.  Every method that takes an area id throws "Area not found" for an
    id the model does not hold, before it reads or sends anything, and
    leaves the manager as it was. *)
Theorem unknown_area_throws (dm : DataManager) (areaId state : string)
    (brightnessPercentage : JS.number) :
  findArea (Some areaId) (data_areas dm) = None ->
  getLights areaId dm = (dm, Throw (AreaNotFound areaId))
  /\ getAverageBrightness areaId dm = (dm, Throw (AreaNotFound areaId))
  /\ getHumidityInsideReading areaId dm = (dm, Throw (AreaNotFound areaId))
  /\ getTemperatureInsideReading areaId dm = (dm, Throw (AreaNotFound areaId))
  /\ getCarbonDioxideInsideReading areaId dm = (dm, Throw (AreaNotFound areaId))
  /\ getCarbonDioxideDangerLevel areaId dm = (dm, Throw (AreaNotFound areaId))
  /\ turnOnAllLights areaId dm = (dm, Throw (AreaNotFound areaId))
  /\ turnOffAllLights areaId dm = (dm, Throw (AreaNotFound areaId))
  /\ dimAllLights areaId brightnessPercentage dm = (dm, Throw (AreaNotFound areaId))
  /\ handleLightControl areaId state dm = (dm, Throw (AreaNotFound areaId)).
Proof.
  intros Hnone.
  assert (Hlights : getLights areaId dm = (dm, Throw (AreaNotFound areaId)))
    by (rewrite getLights_run, Hnone; reflexivity).
  assert (Hon : turnOnAllLights areaId dm = (dm, Throw (AreaNotFound areaId)))
    by (unfold turnOnAllLights, bind; rewrite Hlights; reflexivity).
  assert (Hoff : turnOffAllLights areaId dm = (dm, Throw (AreaNotFound areaId)))
    by (unfold turnOffAllLights, bind; rewrite Hlights; reflexivity).
  repeat split; try assumption.
  - unfold getAverageBrightness, bind. rewrite Hlights. reflexivity.
  - unfold getHumidityInsideReading, bind, getState. rewrite Hnone. reflexivity.
  - unfold getTemperatureInsideReading, bind, getState. rewrite Hnone. reflexivity.
  - unfold getCarbonDioxideInsideReading, bind, getState. rewrite Hnone. reflexivity.
  - unfold getCarbonDioxideDangerLevel, getCarbonDioxideInsideReading, bind, getState.
    rewrite Hnone. reflexivity.
  - unfold dimAllLights, bind. rewrite Hlights. reflexivity.
  - unfold handleLightControl. destruct (String.eqb _ _); assumption.
Qed.

Lemma unknown_area_throws_witness :
  turnOnAllLights "garage" started = (started, Throw (AreaNotFound "garage"))
  /\ handleLightControl "office" "on" started
     = (started, Throw (AreaNotFound "office")).
Proof.
  split.
  - apply (unknown_area_throws started "garage" "on" 0%Q). reflexivity.
  - apply (unknown_area_throws started "office" "on" 0%Q). reflexivity.
Defined.

Lemma liftClient_not_connected (payload : option ServiceCall) (dm : DataManager) :
  socket (wsClient dm) = None ->
  liftClient (exec HomeAssistantWebSocketClient.send CALL_SERVICE payload; ret tt) dm
  = (dm, Throw SocketNotConnected).
Proof.
  intros H. destruct dm as [c areas st inc]. cbn in H.
  unfold liftClient, HomeAssistantWebSocketClient.send, bind, getState. cbn.
  rewrite H. reflexivity.
Qed.

Lemma loop_not_connected (test : Light -> bool) (payload : Light -> option ServiceCall) :
  forall (lights : list Light) (dm : DataManager),
    socket (wsClient dm) = None ->
    forEach lights (fun light =>
      if test light
      then liftClient (exec HomeAssistantWebSocketClient.send CALL_SERVICE
                         (payload light); ret tt)
      else ret tt) dm
    = (dm, if existsb test lights then Throw SocketNotConnected else Ok tt).
Proof.
  induction lights as [|light rest IH]; intros dm H; [reflexivity|].
  cbn [forEach existsb]. unfold bind at 1. destruct (test light).
  - rewrite (liftClient_not_connected _ dm H). reflexivity.
  - cbn. apply IH, H.
Qed.

Lemma forEach_ext {S A} (f g : A -> Method S unit) (xs : list A) (st : S) :
  (forall x, f x = g x) -> forEach xs f st = forEach xs g st.
Proof.
  intros H. revert st. induction xs as [|x xs IH]; intros st; [reflexivity|].
  cbn [forEach]. unfold bind. rewrite H.
  destruct (g x st) as [st' [[]|e]]; [apply IH|reflexivity].
Qed.

Lemma dimLight_send (entityId : string) (p : JS.number) :
  dimLight entityId p
  = liftClient (exec HomeAssistantWebSocketClient.send CALL_SERVICE
                  (dimCommand p entityId); ret tt).
Proof.
  unfold dimLight, dimCommand, turnOffLight. destruct (Qeq_bool _ _); reflexivity.
Qed.

(** X8.  Before [start], on a manager whose client never connected and
    which holds no area yet (the manager the constructor returns), the
    commands on one light throw "Socket is not connected" and the commands
    on the lights of an area throw "Area not found"; all of them leave the
    manager as it was. *)
Theorem commands_need_connection (dm : DataManager) (areaId entityId : string)
    (brightnessPercentage : JS.number) :
  socket (wsClient dm) = None ->
  data_areas dm = [] ->
  turnOnLight entityId dm = (dm, Throw SocketNotConnected)
  /\ turnOffLight entityId dm = (dm, Throw SocketNotConnected)
  /\ dimLight entityId brightnessPercentage dm = (dm, Throw SocketNotConnected)
  /\ turnOnAllLights areaId dm = (dm, Throw (AreaNotFound areaId))
  /\ turnOffAllLights areaId dm = (dm, Throw (AreaNotFound areaId))
  /\ dimAllLights areaId brightnessPercentage dm = (dm, Throw (AreaNotFound areaId)).
Proof.
  intros Hsock Hareas.
  assert (Harea : findArea (Some areaId) (data_areas dm) = None)
    by (rewrite Hareas; reflexivity).
  split; [apply liftClient_not_connected, Hsock|].
  split; [apply liftClient_not_connected, Hsock|].
  split; [rewrite dimLight_send; apply liftClient_not_connected, Hsock|].
  split; [|split].
  - unfold turnOnAllLights, bind at 1. rewrite getLights_run, Harea. reflexivity.
  - unfold turnOffAllLights, bind at 1. rewrite getLights_run, Harea. reflexivity.
  - unfold dimAllLights, bind at 1. rewrite getLights_run, Harea. reflexivity.
Qed.

Lemma commands_need_connection_witness :
  let dm := new (HomeAssistantWebSocketClient.new "hub.local:8123" "token" false) in
  turnOnLight "light.desk" dm = (dm, Throw SocketNotConnected)
  /\ dimLight "light.desk" 50%Q dm = (dm, Throw SocketNotConnected)
  /\ turnOnAllLights "office" dm = (dm, Throw (AreaNotFound "office")).
Proof.
  cbv zeta.
  destruct (commands_need_connection
              (new (HomeAssistantWebSocketClient.new "hub.local:8123" "token" false))
              "office" "light.desk" 50%Q eq_refl eq_refl)
    as (Hon & _ & Hdim & Harea & _).
  split; [exact Hon|]. split; [exact Hdim|exact Harea].
Defined.

Lemma loop_commands (payload : Light -> option ServiceCall) :
  forall (lights : list Light) (dm : DataManager) (sock : WebSocket),
    socket (wsClient dm) = Some sock ->
    exists dm' msgs,
      forEach lights (fun light =>
        liftClient (exec HomeAssistantWebSocketClient.send CALL_SERVICE
                      (payload light); ret tt)) dm = (dm', Ok tt)
      /\ sentMessages dm' = sentMessages dm ++ msgs
      /\ map m_payload msgs = map payload lights
      /\ Forall (fun m => m_type m = CALL_SERVICE) msgs.
Proof.
  induction lights as [|light rest IH]; intros dm sock Hsock.
  - exists dm, []. cbn. rewrite app_nil_r. repeat split; constructor.
  - cbn [forEach]. unfold bind at 1.
    destruct (send_command dm sock (payload light) Hsock)
      as (dm1 & sock1 & Hrun & Hsock1 & _ & _ & _ & Hm).
    rewrite Hrun.
    destruct (IH dm1 sock1 Hsock1) as (dm' & msgs & Hrun' & Hm' & Hp & Ht).
    exists dm', (mkMessage (payload light) CALL_SERVICE (runningId (wsClient dm)) :: msgs).
    rewrite Hrun'. split; [reflexivity|]. split; [|split].
    + rewrite Hm', Hm, <- app_assoc. reflexivity.
    + cbn. f_equal. exact Hp.
    + constructor; [reflexivity|exact Ht].
Qed.

Lemma dimCommand_integer (p : Z) (entityId : string) :
  dimCommand (inject_Z p) entityId
  = (if p =? 0 then lightCommand "turn_off" entityId
     else Some (mkServiceCall "light" "turn_on" entityId
                  (Some (inject_Z ((510 * p + 100) / 200))))).
Proof.
  unfold dimCommand. rewrite getBrightnessValue_integer.
  assert (Hzero : Qeq_bool (inject_Z ((510 * p + 100) / 200)) 0 = (p =? 0)).
  { unfold Qeq_bool, inject_Z. cbn [Qnum Qden].
    destruct (p =? 0) eqn:Hp.
    - apply Z.eqb_eq in Hp. subst p. reflexivity.
    - apply Z.eqb_neq in Hp. apply Z.eqb_neq. Z.div_mod_to_equations. lia. }
  rewrite Hzero. reflexivity.
Qed.

(** X9.  On a connected client and for a known area, [dimAllLights] with a
    whole percentage from -1000 to 1000 sends exactly one frame to every
    light of the area, in the order of the area's array and whatever the
    cached state of the light (also to an unavailable one): [turn_off] when
    the percentage is 0, and only then; otherwise [turn_on] with the
    brightness [round(2.55 p)], which is on this range what the double
    arithmetic of the code gives, and which lies between 3 and 255 for a
    percentage between 1 and 100.  Nothing clamps the percentage: a negative
    one gives a negative brightness, one above 100 a brightness above
    255. *)
Theorem dimAllLights_commands (dm : DataManager) (areaId : string) (i : nat)
    (area : Area) (sock : WebSocket) (p : Z) :
  socket (wsClient dm) = Some sock ->
  findArea (Some areaId) (data_areas dm) = Some (i, area) ->
  -1000 <= p <= 1000 ->
  let brightness := (510 * p + 100) / 200 in
  (exists dm' msgs,
      dimAllLights areaId (inject_Z p) dm = (dm', Ok tt)
      /\ sentMessages dm' = sentMessages dm ++ msgs
      /\ map m_payload msgs
         = map (fun light =>
                  if p =? 0 then lightCommand "turn_off" (l_entityId light)
                  else Some (mkServiceCall "light" "turn_on" (l_entityId light)
                               (Some (inject_Z brightness))))
             (lightsAt (store dm) (a_lights area))
      /\ Forall (fun m => m_type m = CALL_SERVICE) msgs)
  /\ IEEE.toZ (IEEE.getBrightnessValue (Some (IEEE.ofZ p))) = Some brightness
  /\ (1 <= p <= 100 -> 3 <= brightness <= 255)
  /\ (p < 0 -> brightness < 0)
  /\ (100 < p -> 255 < brightness).
Proof.
  intros Hsock Harea Hp. cbv zeta.
  split; [|split; [exact (IEEE_getBrightnessValue_integer p Hp)|];
           repeat split; intros; Z.div_mod_to_equations; lia].
  destruct (loop_commands
              (fun light => dimCommand (inject_Z p) (l_entityId light))
              (lightsAt (store dm) (a_lights area)) dm sock Hsock)
    as (dm' & msgs & Hrun & Hsent & Hpayload & Htypes).
  exists dm', msgs. split; [|split; [exact Hsent|split; [|exact Htypes]]].
  - unfold dimAllLights, bind at 1. rewrite getLights_run, Harea.
    rewrite <- Hrun. apply forEach_ext. intros light. apply dimLight_send.
  - rewrite Hpayload. apply map_ext. intros light. apply dimCommand_integer.
Qed.

Lemma dimAllLights_commands_witness :
  let dm := deliver (sampleQuartet "on") started in
  exists dm' msgs,
    dimAllLights "office" 50%Q dm = (dm', Ok tt)
    /\ sentMessages dm' = sentMessages dm ++ msgs
    /\ map m_payload msgs
       = [Some (mkServiceCall "light" "turn_on" "light.desk" (Some 128%Q))].
Proof.
  cbv zeta.
  destruct (dimAllLights_commands (deliver (sampleQuartet "on") started)
              "office" 3%nat (mkArea "office" "Office" None 3%nat None None None)
              (mkWebSocket "ws://hub.local:8123/api/websocket" [] false) 50
              eq_refl eq_refl ltac:(lia))
    as ((dm' & msgs & Hrun & Hsent & Hpayload & _) & _).
  exists dm', msgs. split; [exact Hrun|]. split; [exact Hsent|exact Hpayload].
Defined.




(** ** Patches on the live model (data-manager.ts) *)

Lemma setLights_inventory (dm : DataManager) (r i : nat)
    (light light' : Light) :
  lightsAt (store dm) r !! i = Some light ->
  lightIdentity light' = lightIdentity light ->
  inventory (setLights r (<[i := light']> (lightsAt (store dm) r)) dm) = inventory dm.
Proof.
  intros Hi Hsame. unfold inventory, setLights. cbn [data_areas store setStore].
  f_equal. unfold lightsAt in *. unfold ArrayRef in *.
  destruct (store dm !! r) as [arr|] eqn:Hr;
    [|cbn in Hi; discriminate Hi].
  cbn [default from_option] in *. unfold id in *.
  change (map (map lightIdentity) ?l) with (map lightIdentity <$> l).
  rewrite list_fmap_insert.
  change (map lightIdentity (<[i:=light']> arr))
    with (lightIdentity <$> <[i:=light']> arr).
  rewrite list_fmap_insert, Hsame.
  rewrite (list_insert_id (lightIdentity <$> arr) i (lightIdentity light))
    by (rewrite list_lookup_fmap, Hi; reflexivity).
  apply list_insert_id. rewrite list_lookup_fmap, Hr. reflexivity.
Qed.

Lemma patchLight_identity (entityState : HassEntityState) (light : Light) :
  lightIdentity (patchLight entityState light) = lightIdentity light.
Proof. unfold patchLight. destruct (hs_a entityState); reflexivity. Qed.

Lemma updateLightStateIn_inventory (entityId : string) (entityState : HassEntityState) :
  forall (areas : list Area) (dm : DataManager),
    let dm' := fst (updateLightStateIn areas entityId entityState dm) in
    inventory dm' = inventory dm /\ wsClient dm' = wsClient dm.
Proof.
  induction areas as [|area rest IH]; intros dm; [split; reflexivity|].
  cbv zeta. cbn [updateLightStateIn]. unfold bind, getState.
  destruct (list_find _ _) as [[i light]|] eqn:Hfind; [|apply IH].
  cbn [fst]. split; [|reflexivity].
  apply list_find_Some in Hfind as (Hi & _).
  apply (setLights_inventory dm (a_lights area) i light); [exact Hi|].
  apply patchLight_identity.
Qed.

Lemma assignArea_inventory (i : nat) (f : Area -> Area) (area : Area)
    (dm : DataManager) :
  data_areas dm !! i = Some area ->
  (frame (f area), sensorIdentity <$> a_humiditySensor (f area),
   sensorIdentity <$> a_temperatureSensor (f area),
   sensorIdentity <$> a_carbonDioxideSensor (f area))
  = (frame area, sensorIdentity <$> a_humiditySensor area,
     sensorIdentity <$> a_temperatureSensor area,
     sensorIdentity <$> a_carbonDioxideSensor area) ->
  let dm' := fst (assignArea i f dm) in
  inventory dm' = inventory dm /\ wsClient dm' = wsClient dm.
Proof.
  intros Hi Hsame. cbv zeta. unfold assignArea, modify. cbn [fst].
  split; [|reflexivity]. unfold inventory. cbn [data_areas store setAreas].
  f_equal. apply list_eq. intros j. rewrite !list_lookup_fmap.
  destruct (decide (i = j)) as [<-|Hne].
  - rewrite list_lookup_alter_eq, Hi. cbn. f_equal. exact Hsame.
  - rewrite list_lookup_alter_ne by exact Hne. reflexivity.
Qed.

Lemma applyToModel_inventory (entityId : string) (change : HassEntityState)
    (dm : DataManager) :
  let dm' := fst (applyToModel entityId change dm) in
  inventory dm' = inventory dm /\ wsClient dm' = wsClient dm.
Proof.
  cbv zeta. unfold applyToModel. destruct (JS.startsWith _ _).
  - unfold updateLightState. unfold bind, getState.
    pose proof (updateLightStateIn_inventory entityId change (data_areas dm) dm) as H.
    cbv zeta in H.
    destruct (updateLightStateIn _ _ _ _) as [dm' [r|e]]; exact H.
  - apply (forEach_invariant
             (fun st => inventory st = inventory dm /\ wsClient st = wsClient dm));
      [|split; reflexivity].
    intros dashboard st [Hst1 Hst2]. rewrite <- Hst1, <- Hst2.
    repeat case_decide; try (split; reflexivity);
      unfold updateCarbonDioxideSensor, updateHumiditySensor,
        updateTemperatureSensor, bind, getState.
    + destruct (findArea _ _) as [[i area]|] eqn:Hfind; [|split; reflexivity].
      apply findArea_lookup in Hfind as [Hi _].
      destruct (a_carbonDioxideSensor area) as [s|] eqn:Hs; [|split; reflexivity].
      apply (assignArea_inventory i _ area st Hi). cbn. rewrite Hs. reflexivity.
    + destruct (findArea _ _) as [[i area]|] eqn:Hfind; [|split; reflexivity].
      apply findArea_lookup in Hfind as [Hi _].
      destruct (a_humiditySensor area) as [s|] eqn:Hs; [|split; reflexivity].
      apply (assignArea_inventory i _ area st Hi). cbn. rewrite Hs. reflexivity.
    + destruct (list_find _ dashboardConfigs) as [[k d]|]; [|split; reflexivity].
      destruct (findArea _ _) as [[i area]|] eqn:Hfind; [|split; reflexivity].
      apply findArea_lookup in Hfind as [Hi _].
      destruct (a_temperatureSensor area) as [s|] eqn:Hs; [|split; reflexivity].
      apply (assignArea_inventory i _ area st Hi). cbn. rewrite Hs. reflexivity.
Qed.

Lemma onEntityStateChange_inventory (changes : Dict.t HassEntityState) (dm : DataManager) :
  let dm' := fst (handle (EvEntityStateChange changes) dm) in
  inventory dm' = inventory dm /\ wsClient dm' = wsClient dm.
Proof.
  cbv zeta. cbn [handle]. unfold onEntityStateChange, bind, getState.
  destruct (in_entityStates (incomingData dm));
    apply (forEach_invariant
             (fun st => inventory st = inventory dm /\ wsClient st = wsClient dm));
    try (split; reflexivity);
    intros key st [H1 H2]; rewrite <- H1, <- H2;
    (destruct (Dict.get changes key) as [change|]; [|split; reflexivity]).
  - unfold mergeIntoBuffer, modifyIncoming, modify. split; reflexivity.
  - apply applyToModel_inventory.
Qed.

(** X11.  An [entity_state_change] event never adds, removes, moves or
    renames anything: after it the model holds the same areas in the same
    order, each with the same array and the same sensors, and every array
    lists the same lights in the same order; only states, brightness,
    colour, sensor readings and units can differ.  It sends nothing. *)
Theorem patch_keeps_inventory (changes : Dict.t HassEntityState) (dm : DataManager) :
  let dm' := fst (handle (EvEntityStateChange changes) dm) in
  inventory dm' = inventory dm /\ wsClient dm' = wsClient dm.
Proof. exact (onEntityStateChange_inventory changes dm). Qed.

Lemma configuredSensorIds_cases (areaId entityId : string) :
  entityId ∈ configuredSensorIds areaId ->
  (areaId = "living_room"
   /\ (entityId = "sensor.aranet4_23eff_humidity"
       \/ entityId = "sensor.aranet4_23eff_temperature"
       \/ entityId = "sensor.aranet4_23eff_carbon_dioxide"))
  \/ (areaId = "office"
      /\ (entityId = "sensor.aranet4_23f66_humidity"
          \/ entityId = "sensor.aranet4_23f66_temperature"
          \/ entityId = "sensor.aranet4_23f66_carbon_dioxide")).
Proof.
  unfold configuredSensorIds. intros H.
  apply list_elem_of_bind in H as (dashboard & Hin & Hd).
  unfold dashboardConfigs in Hd.
  repeat (apply elem_of_cons in Hd as [->|Hd]);
    [| | | |apply elem_of_nil in Hd; destruct Hd];
    cbn [dc_areaId dc_humiditySensorEntityId dc_temperatureSensorEntityId
         dc_carbonDioxideSensorEntityId] in Hin;
    case_decide as Harea; try (apply elem_of_nil in Hin; destruct Hin);
    subst areaId; cbn in Hin;
    repeat (apply elem_of_cons in Hin as [->|Hin]);
    try (apply elem_of_nil in Hin; destruct Hin); tauto.
Qed.

(** X12.  Before the model holds the area, a patch is treated differently
    by domain.  With no entity-states buffer held: a patch whose first key
    is a sensor the dashboard table configures for an area the model does
    not hold throws "Area not found" and leaves the manager as it was,
    while a patch for a light that no area holds is dropped without a
    word. *)
Theorem sensor_patch_needs_area (dm : DataManager) (areaId entityId : string)
    (change : HassEntityState) (rest : Dict.t HassEntityState) :
  in_entityStates (incomingData dm) = None ->
  (entityId ∈ configuredSensorIds areaId ->
   findArea (Some areaId) (data_areas dm) = None ->
   handle (EvEntityStateChange ((entityId, change) :: rest)) dm
   = (dm, Throw (AreaNotFound areaId)))
  /\ (JS.startsWith entityId lightPrefix = true ->
      Forall (fun area => ~ holdsLight dm entityId area) (data_areas dm) ->
      handle (EvEntityStateChange [(entityId, change)]) dm = (dm, Ok tt)).
Proof.
  intros Hbuffer. split.
  - intros Hconf Hnone.
    cbn [handle]. unfold onEntityStateChange, bind at 1, getState.
    rewrite Hbuffer. cbn [Dict.keys map fst forEach]. unfold bind at 1.
    cbn [Dict.get]. rewrite String.eqb_refl.
    assert (Hrun : applyToModel entityId change dm = (dm, Throw (AreaNotFound areaId))).
    { apply configuredSensorIds_cases in Hconf.
      destruct Hconf as [ [Ha [He|[He|He]]] | [Ha [He|[He|He]]] ];
        subst areaId entityId;
        unfold applyToModel;
        match goal with
        | |- context [JS.startsWith ?s lightPrefix] =>
            change (JS.startsWith s lightPrefix) with false
        end;
        unfold dashboardConfigs; cbn [forEach];
        cbn [dc_areaId dc_humiditySensorEntityId dc_temperatureSensorEntityId
             dc_carbonDioxideSensorEntityId];
        repeat (case_decide; try discriminate; try (exfalso; congruence));
        unfold bind, ret, updateCarbonDioxideSensor, updateHumiditySensor,
          updateTemperatureSensor, getState; cbn;
        repeat (case_decide; try discriminate; try (exfalso; congruence)); cbn;
        rewrite ?Hnone; reflexivity. }
    rewrite Hrun. reflexivity.
  - intros Hlight Hnone.
    cbn [handle]. unfold onEntityStateChange, bind at 1, getState.
    rewrite Hbuffer. cbn [Dict.keys map fst forEach]. unfold bind at 1.
    cbn [Dict.get]. rewrite String.eqb_refl.
    unfold applyToModel. rewrite Hlight. unfold updateLightState, bind, getState.
    rewrite (updateLightStateIn_none entityId change dm _ Hnone). reflexivity.
Qed.

Lemma sensor_patch_needs_area_witness :
  let change := mkHassEntityState (Some "800") None in
  handle (EvEntityStateChange [("sensor.aranet4_23f66_carbon_dioxide", change)]) started
  = (started, Throw (AreaNotFound "office"))
  /\ handle (EvEntityStateChange [("light.desk", change)]) started = (started, Ok tt).
Proof.
  cbv zeta.
  destruct (sensor_patch_needs_area started "office"
              "sensor.aranet4_23f66_carbon_dioxide"
              (mkHassEntityState (Some "800") None) [] eq_refl) as [Hsensor _].
  destruct (sensor_patch_needs_area started "office" "light.desk"
              (mkHassEntityState (Some "800") None) [] eq_refl) as [_ Hlight].
  split.
  - apply Hsensor; [|reflexivity]. vm_compute. repeat constructor.
  - apply Hlight; [reflexivity|constructor].
Defined.

Lemma findArea_alter (key : option string) (f : Area -> Area) (areas : list Area)
    (i : nat) (area : Area) :
  (forall x, a_id (f x) = a_id x) ->
  findArea key areas = Some (i, area) ->
  findArea key (alter f i areas) = Some (i, f area).
Proof.
  unfold findArea. intros Hf Hfind.
  apply list_find_Some in Hfind as (Hi & Hid & Hfirst).
  apply list_find_Some. split; [|split].
  - rewrite list_lookup_alter_eq, Hi. reflexivity.
  - rewrite Hf. exact Hid.
  - intros j y Hj Hlt. rewrite list_lookup_alter_ne in Hj by lia.
    eapply Hfirst; eassumption.
Qed.

(** X13.  A temperature patch whose attributes give the unit: the reading is
    converted into the unit of the dashboard, and stored under the unit of
    the patch.  On the dashboards of the table, all in Celsius, a patch of
    [n] degrees Fahrenheit, [n] a whole number from 0 to 1000, leaves the
    area showing the Celsius value [round ((n - 32) / 1.8)], which is on
    this range what the double arithmetic of the code gives, with the
    Fahrenheit sign (68 degrees Fahrenheit reads "20 °F"). *)
Theorem temperature_patch_label (dm : DataManager) (areaId : string) (i : nat)
    (area : Area) (sensor : TemperatureSensor) (n : Z) (state : HassEntityState)
    (attributes : Dict.t JsValue) :
  0 <= n <= 1000 ->
  areaId ∈ map dc_areaId dashboardConfigs ->
  findArea (Some areaId) (data_areas dm) = Some (i, area) ->
  a_temperatureSensor area = Some sensor ->
  hs_s state = Some (JS.naturalToString n) ->
  hs_a state = Some attributes ->
  Dict.get attributes "unit_of_measurement"
  = Some (JsString (temperatureUnitString Fahrenheit)) ->
  (exists dm',
      updateTemperatureSensor areaId state dm = (dm', Ok tt)
      /\ getTemperatureInsideReading areaId dm'
         = (dm', Ok (Some (JS.numberToString (inject_Z ((20 * n - 622) / 36))
                           ++ " " ++ temperatureUnitString Fahrenheit)%string)))
  /\ (exists c : IEEE.double,
        IEEE.calcTemperatureValue (IEEE.Reading (IEEE.ofZ n)) Fahrenheit Celsius
        = IEEE.Reading c
        /\ IEEE.toZ c = Some ((20 * n - 622) / 36)).
Proof.
  intros Hrange Hdash Harea Hsensor Hs Ha Hunit.
  assert (Hn : 0 <= n) by lia.
  split; [|destruct (IEEE_fahrenheit_round_trip n ltac:(lia))
             as (c & _ & Hc & _ & Hcz & _); exists c; split; assumption].
  assert (Hfound : exists k dashboard,
             list_find (fun d => dc_areaId d = areaId) dashboardConfigs
             = Some (k, dashboard)
             /\ dc_temperatureUnitOfMeasurement dashboard = Celsius).
  { unfold dashboardConfigs in *. cbn [map dc_areaId] in Hdash.
    repeat (apply elem_of_cons in Hdash as [->|Hdash]);
      [| | | |apply elem_of_nil in Hdash; destruct Hdash];
      eexists _, _; (split; [vm_compute; reflexivity|reflexivity]). }
  destruct Hfound as (k & dashboard & Hfind & Hcelsius).
  eexists. split.
  - unfold updateTemperatureSensor. rewrite Hfind. unfold bind, getState.
    rewrite Harea, Hsensor. reflexivity.
  - cbn [fst]. unfold assignArea, modify. cbn [fst].
    unfold getTemperatureInsideReading, bind, getState.
    cbn [data_areas setAreas].
    match goal with
    | |- context [alter ?f i (data_areas dm)] =>
        rewrite (findArea_alter (Some areaId) f (data_areas dm) i area
                   (fun x => eq_refl) Harea)
    end.
    cbn [a_temperatureSensor withTemperatureSensor].
    unfold ret. do 3 f_equal. cbn [fmap option_fmap option_map].
    rewrite Hs, Ha, Hcelsius. cbn [mbind option_bind]. rewrite Hunit.
    change (getTemperatureUnitOfMeasurement
              (Some (JsString (temperatureUnitString Fahrenheit))))
      with (Some Fahrenheit).
    cbn [default from_option]. unfold id.
    cbn [fmap option_fmap option_map].
    unfold readingString. cbn [s_state withUnitOfMeasurement withState
      s_unitOfMeasurement].
    unfold getNumericSensorState. rewrite (parseFloat_rendered_natural n Hn).
    rewrite fahrenheit_to_celsius_integer. reflexivity.
Qed.

Lemma temperature_patch_label_witness :
  let dm := deliver (climateQuartet "21" Celsius) started in
  let state := mkHassEntityState (Some "68")
                 (Some [("unit_of_measurement",
                         JsString (temperatureUnitString Fahrenheit))]) in
  getTemperatureInsideReading "living_room" dm
  = (dm, Ok (Some ("21 " ++ temperatureUnitString Celsius)%string))
  /\ exists dm',
       updateTemperatureSensor "living_room" state dm = (dm', Ok tt)
       /\ getTemperatureInsideReading "living_room" dm'
          = (dm', Ok (Some ("20 " ++ temperatureUnitString Fahrenheit)%string)).
Proof.
  cbv zeta. split; [vm_compute; reflexivity|].
  destruct (temperature_patch_label
              (deliver (climateQuartet "21" Celsius) started) "living_room" 0%nat
              (mkArea "living_room" "Living room" None 0%nat None
                 (Some (mkSensor "living_room" "Living room" (Some "d2") "Aranet4"
                          "sensor.aranet4_23eff_temperature" (Reading 21%Q) Celsius))
                 None)
              (mkSensor "living_room" "Living room" (Some "d2") "Aranet4"
                 "sensor.aranet4_23eff_temperature" (Reading 21%Q) Celsius)
              68
              (mkHassEntityState (Some "68")
                 (Some [("unit_of_measurement",
                         JsString (temperatureUnitString Fahrenheit))]))
              [("unit_of_measurement", JsString (temperatureUnitString Fahrenheit))])
    as ((dm' & Hrun & Hread) & _);
    [lia|vm_compute; repeat constructor|vm_compute; reflexivity|reflexivity
    |reflexivity|reflexivity|reflexivity|].
  exists dm'. split; [exact Hrun|exact Hread].
Defined.

(** ** What the arrays of lights keep (data-manager.ts) *)

Lemma lightsAt_insert (st : list (list Light)) (r r' : nat) (arr : list Light) :
  lightsAt (<[r' := arr]> st) r
  = if decide (r = r' /\ (r' < length st)%nat) then arr else lightsAt st r.
Proof.
  unfold lightsAt. unfold ArrayRef in *. case_decide as H.
  - destruct H as [-> Hlt]. rewrite list_lookup_insert_eq by exact Hlt. reflexivity.
  - destruct (decide (r = r')) as [->|Hne].
    + rewrite list_insert_ge by lia. reflexivity.
    + rewrite list_lookup_insert_ne by congruence. reflexivity.
Qed.

Lemma lightsAt_out_of_range (st : list (list Light)) (r : nat) :
  (length st <= r)%nat -> lightsAt st r = [].
Proof.
  intros H. unfold lightsAt. unfold ArrayRef in *.
  rewrite lookup_ge_None_2 by exact H. reflexivity.
Qed.

(** The entity ids of an array after [upsertLight]: the same, or one more at
    the end. *)
Lemma upsertLight_ids (r' : nat) (light : Light) (st : list (list Light)) (r : nat) :
  let before := map l_entityId (lightsAt st r) in
  let after := map l_entityId (lightsAt (upsertLight r' light st) r) in
  after = before
  \/ (after = before ++ [l_entityId light] /\ l_entityId light ∉ before).
Proof.
  cbv zeta. unfold upsertLight.
  destruct (list_find _ (lightsAt st r')) as [[i old]|] eqn:Hfind;
    rewrite lightsAt_insert; case_decide as Hr; try (left; reflexivity);
    destruct Hr as [-> Hlt].
  - left. apply list_find_Some in Hfind as (Hi & Hid & _).
    change (map l_entityId ?l) with (l_entityId <$> l).
    rewrite list_fmap_insert, <- Hid. apply list_insert_id.
    rewrite list_lookup_fmap, Hi. reflexivity.
  - right. split; [apply map_app|].
    apply list_find_None in Hfind. rewrite Forall_forall in Hfind.
    intros Hin. apply list_elem_of_fmap in Hin as (x & Hx & Hin).
    apply (Hfind x Hin). congruence.
Qed.

Lemma storeLights_ids (derive : string -> Result (option (ArrayRef * Light)))
    (r : nat) :
  forall (keys : list string) (st : list (list Light)),
    map l_entityId (lightsAt st r)
    `prefix_of` map l_entityId (lightsAt (fst (storeLights derive keys st)) r).
Proof.
  induction keys as [|key rest IH]; intros st; [reflexivity|].
  cbn [storeLights]. destruct (derive key) as [[[r' light]|]|e];
    [|apply IH|reflexivity].
  etransitivity; [|apply IH].
  destruct (upsertLight_ids r' light st r) as [->|[-> _]];
    [reflexivity|apply prefix_app_r; reflexivity].
Qed.

Lemma storeLights_listsOnce (derive : string -> Result (option (ArrayRef * Light))) :
  forall (keys : list string) (st : list (list Light)),
    listsOnce st -> listsOnce (fst (storeLights derive keys st)).
Proof.
  induction keys as [|key rest IH]; intros st Hst; [exact Hst|].
  cbn [storeLights]. destruct (derive key) as [[[r' light]|]|e];
    [|apply IH, Hst|exact Hst].
  apply IH. unfold listsOnce in *. rewrite Forall_lookup in *.
  intros r arr Harr.
  assert (Hat : lightsAt (upsertLight r' light st) r = arr)
    by (unfold lightsAt, ArrayRef in *; rewrite Harr; reflexivity).
  assert (Hold : NoDup (map l_entityId (lightsAt st r))).
  { unfold lightsAt. unfold ArrayRef in *.
    destruct (st !! r) as [old|] eqn:Hr; [eapply Hst, Hr|constructor]. }
  rewrite <- Hat.
  destruct (upsertLight_ids r' light st r) as [->|[-> Hnew]]; [exact Hold|].
  apply NoDup_app. split; [exact Hold|]. split.
  - intros x Hx Hin. apply list_elem_of_singleton in Hin. subst x. contradiction.
  - apply NoDup_singleton.
Qed.

Lemma inventory_ids (dm dm' : DataManager) :
  inventory dm' = inventory dm ->
  forall r : nat,
    map l_entityId (lightsAt (store dm') r) = map l_entityId (lightsAt (store dm) r).
Proof.
  unfold inventory. intros H r. injection H as _ H.
  apply (f_equal (fun l => l !! r)) in H.
  change (map (map lightIdentity) ?l) with (map lightIdentity <$> l) in H.
  rewrite !list_lookup_fmap in H. unfold lightsAt. unfold ArrayRef in *.
  destruct (store dm' !! r) as [arr'|], (store dm !! r) as [arr|];
    try discriminate H; [|reflexivity].
  cbn in H. injection H as H. cbn.
  change l_entityId with (snd ∘ lightIdentity).
  rewrite !(list_fmap_compose lightIdentity snd). f_equal. exact H.
Qed.

Lemma handle_store (ev : Event) (dm : DataManager) :
  (exists derive keys n,
      store (fst (handle ev dm))
      = fst (storeLights derive keys (store dm ++ replicate n [])))
  \/ inventory (fst (handle ev dm)) = inventory dm.
Proof.
  destruct (kindOf ev) as [k|] eqn:Hk.
  - rewrite (handle_registry ev k dm Hk), syncData_run.
    cbn [incomingData setIncomingData].
    destruct (in_areas _) as [a|]; [|right; reflexivity].
    destruct (in_devices _) as [d|]; [|right; reflexivity].
    destruct (in_entities _) as [e|]; [|right; reflexivity].
    destruct (in_entityStates _) as [s|]; [|right; reflexivity].
    left. rewrite rebuild_run. cbv zeta. cbn [store setIncomingData data_areas].
    eexists _, _, _.
    destruct (snd (storeLights _ _ _)); [destruct (snd (assignSensors _ _ _))|];
      reflexivity.
  - destruct ev as [| | | |changes]; try discriminate Hk.
    right. apply onEntityStateChange_inventory.
Qed.

Lemma lightsAt_grown (st : list (list Light)) (n r : nat) :
  lightsAt (st ++ replicate n []) r = lightsAt st r.
Proof.
  destruct (decide (r < length st)%nat) as [Hlt|Hge].
  - apply lightsAt_app, Hlt.
  - rewrite (lightsAt_out_of_range st r) by lia.
    unfold lightsAt. unfold ArrayRef in *.
    destruct ((st ++ replicate n []) !! r) as [arr|] eqn:Harr; [|reflexivity].
    rewrite lookup_app_r in Harr by lia.
    apply lookup_replicate in Harr as [-> _]. reflexivity.
Qed.

(** No event removes a light from an array of the store or moves it within
    it. *)
Lemma deliver_store_prefix (evs : list Event) :
  forall (dm : DataManager) (r : nat),
    map l_entityId (lightsAt (store dm) r)
    `prefix_of` map l_entityId (lightsAt (store (deliver evs dm)) r).
Proof.
  induction evs as [|ev rest IH]; intros dm r; [reflexivity|].
  cbn [deliver]. etransitivity; [|apply IH].
  destruct (handle_store ev dm) as [(derive & keys & n & ->)|Hsame].
  - rewrite <- (lightsAt_grown (store dm) n r) at 1. apply storeLights_ids.
  - rewrite (inventory_ids _ _ Hsame r). reflexivity.
Qed.

(** X15.  No array ever lists an entity id twice: if that holds of the
    store, it holds after every delivery of events.  It holds of a fresh
    manager, whose store is empty. *)
Theorem lights_listed_once (evs : list Event) :
  forall dm : DataManager,
    listsOnce (store dm) -> listsOnce (store (deliver evs dm)).
Proof.
  induction evs as [|ev rest IH]; intros dm Hdm; [exact Hdm|].
  cbn [deliver]. apply IH.
  destruct (handle_store ev dm) as [(derive & keys & n & ->)|Hsame].
  - apply storeLights_listsOnce. unfold listsOnce in *.
    apply Forall_app. split; [exact Hdm|].
    apply Forall_replicate. constructor.
  - unfold listsOnce in *. rewrite Forall_lookup in *. intros r arr Harr.
    pose proof (inventory_ids _ _ Hsame r) as Hids.
    unfold lightsAt in Hids. unfold ArrayRef in *. rewrite Harr in Hids.
    cbn in Hids. rewrite Hids.
    destruct (store dm !! r) as [old|] eqn:Hr; [eapply Hdm, Hr|constructor].
Qed.

Lemma lights_listed_once_witness :
  listsOnce (store (deliver (sampleQuartet "on" ++ sampleQuartet "off") started)).
Proof.
  apply (lights_listed_once (sampleQuartet "on" ++ sampleQuartet "off") started).
  constructor.
Defined.

(** ** What a rebuild builds (data-manager.ts) *)

Lemma rebuild_outcome (areas : list HassArea) (devices : list HassDevice)
    (entities : list HassEntity) (entityStates : Dict.t HassEntityState)
    (dm : DataManager) :
  let merged := mergedAreas (data_areas dm) (length (store dm)) areas in
  let allocated := store dm ++ replicate (length areas) [] in
  let lit := storeLights (deriveLight merged devices entities entityStates)
               (Dict.keys entityStates) allocated in
  let dm' := fst (rebuild areas devices entities entityStates dm) in
  map frame (data_areas dm') = map frame merged
  /\ store dm' = fst lit
  /\ (snd (rebuild areas devices entities entityStates dm) = Ok tt ->
      snd lit = Ok tt
      /\ snd (assignSensors
                (fun areas => deriveSensor areas devices entities entityStates)
                (sensorPairs (Dict.keys entityStates)) merged) = Ok tt).
Proof.
  cbv zeta. rewrite rebuild_run. cbv zeta.
  destruct (snd (storeLights _ _ _)) as [[]|e].
  - destruct (snd (assignSensors _ _ _)) as [[]|e] eqn:Hs; cbn [fst snd data_areas store];
      (split; [apply assignSensors_frame|]); (split; [reflexivity|]);
      [intros _; split; reflexivity|discriminate].
  - cbn [fst snd data_areas store]. split; [reflexivity|].
    split; [reflexivity|discriminate].
Qed.

(** X16.  After a rebuild, completed or not, the model lists exactly the
    areas of the area registry it was given, in the order of the registry,
    with the id, the name and the floor the registry gives: an area the
    registry no longer has is dropped from the model. *)
Theorem rebuild_areas_follow_registry (areas : list HassArea)
    (devices : list HassDevice) (entities : list HassEntity)
    (entityStates : Dict.t HassEntityState) (dm : DataManager) :
  map (fun x => (a_id x, a_name x, a_floorId x))
    (data_areas (fst (rebuild areas devices entities entityStates dm)))
  = map (fun x => (ha_area_id x, ha_name x, ha_floor_id x)) areas.
Proof.
  destruct (rebuild_outcome areas devices entities entityStates dm) as (Hframe & _).
  rewrite (map_frame_ids _ _ Hframe). apply mergedAreas_frame.
Qed.

Lemma deriveLight_resolved (areas : list Area) (devices : list HassDevice)
    (entities : list HassEntity) (entityStates : Dict.t HassEntityState)
    (key : string) (r : ArrayRef) (light : Light) :
  deriveLight areas devices entities entityStates key = Ok (Some (r, light)) ->
  exists state entity device i area attributes,
    getStateEntityDeviceForEntityId key devices entities entityStates
    = Ok (Some state, entity, device)
    /\ findArea (hd_area_id device) areas = Some (i, area)
    /\ hs_a state = Some attributes
    /\ r = a_lights area
    /\ light = mkLight (a_id area) (a_name area) (Some (hd_id device))
                 (hd_name device) key (getLightState (hs_s state))
                 (getBrightnessPercentage (Dict.get attributes "brightness"))
                 (getRBGColor (Dict.get attributes "rgb_color")).
Proof.
  unfold deriveLight. destruct (negb _); [discriminate|].
  destruct (getStateEntityDeviceForEntityId _ _ _ _)
    as [[[state entity] device]|e]; [|discriminate].
  destruct (findArea _ _) as [[i area]|] eqn:Harea; [|discriminate].
  destruct state as [state|]; [|discriminate].
  destruct (hs_a state) as [attributes|] eqn:Ha; [|discriminate].
  intros H. injection H as <- <-.
  exists state, entity, device, i, area, attributes.
  repeat split; first [assumption|reflexivity].
Qed.

Lemma rebuild_resolves (areas : list HassArea) (devices : list HassDevice)
    (entities : list HassEntity) (entityStates : Dict.t HassEntityState)
    (dm : DataManager) (entityId : string) :
  snd (rebuild areas devices entities entityStates dm) = Ok tt ->
  entityId ∈ Dict.keys entityStates ->
  JS.startsWith entityId lightPrefix = true ->
  exists r light,
    deriveLight (mergedAreas (data_areas dm) (length (store dm)) areas)
      devices entities entityStates entityId = Ok (Some (r, light)).
Proof.
  intros Hok Hin Hprefix.
  destruct (rebuild_outcome areas devices entities entityStates dm)
    as (_ & _ & Hdone).
  destruct (Hdone Hok) as [Hlit _].
  destruct (storeLights_ok _ _ _ Hlit entityId Hin) as [[[r light]|] Hderive];
    [eauto|].
  apply deriveLight_none_not_light in Hderive. congruence.
Qed.

(** X17.  After a completed rebuild, every key of the entity states in the
    light domain has been resolved, state with attributes, entity, device
    and area of the device, and the array of that area holds, as its entry
    for the entity id, the light built from them: the names of the area and
    of the device, the state, the brightness in percent and the colour of
    the snapshot. *)
Theorem rebuild_lights_land (areas : list HassArea) (devices : list HassDevice)
    (entities : list HassEntity) (entityStates : Dict.t HassEntityState)
    (dm dm' : DataManager) (entityId : string) :
  rebuild areas devices entities entityStates dm = (dm', Ok tt) ->
  allocatedBelow (length (store dm)) (data_areas dm) ->
  entityId ∈ Dict.keys entityStates ->
  JS.startsWith entityId lightPrefix = true ->
  exists state entity device i area attributes,
    getStateEntityDeviceForEntityId entityId devices entities entityStates
    = Ok (Some state, entity, device)
    /\ findArea (hd_area_id device) (data_areas dm') = Some (i, area)
    /\ hs_a state = Some attributes
    /\ stored (store dm') (a_lights area)
         (mkLight (a_id area) (a_name area) (Some (hd_id device))
            (hd_name device) entityId (getLightState (hs_s state))
            (getBrightnessPercentage (Dict.get attributes "brightness"))
            (getRBGColor (Dict.get attributes "rgb_color"))).
Proof.
  intros Hrun Halloc Hin Hprefix.
  assert (Hok : snd (rebuild areas devices entities entityStates dm) = Ok tt)
    by (rewrite Hrun; reflexivity).
  destruct (rebuild_outcome areas devices entities entityStates dm)
    as (Hframe & Hstore & Hdone).
  rewrite Hrun in Hframe, Hstore. cbn [fst] in Hframe, Hstore.
  destruct (Hdone Hok) as [Hlit _].
  set (merged := mergedAreas (data_areas dm) (length (store dm)) areas) in *.
  destruct (rebuild_resolves areas devices entities entityStates dm entityId
              Hok Hin Hprefix) as (r & light & Hderive).
  fold merged in Hderive.
  destruct (deriveLight_resolved _ _ _ _ _ _ _ Hderive)
    as (state & entity & device & i & area & attributes
        & Hfound & Harea & Ha & -> & ->).
  pose proof (findArea_frame (hd_area_id device) _ _ Hframe) as Hsame.
  rewrite Harea in Hsame.
  destruct (findArea (hd_area_id device) (data_areas dm')) as [[j area']|] eqn:Harea';
    [|destruct Hsame].
  destruct Hsame as [_ Hf]. unfold frame in Hf. injection Hf as Hid Hname _ Hl.
  exists state, entity, device, j, area', attributes.
  split; [exact Hfound|]. split; [exact Harea'|]. split; [exact Ha|].
  rewrite Hstore, Hid, Hname, Hl.
  apply (storeLights_stores _ entityId _ _ (deriveLight_keyed _ _ _ _) Hderive);
    [exact Hin| |exact Hlit].
  apply findArea_lookup in Harea as [Hi _].
  assert (Hmerged : allocatedBelow (length (store dm) + length areas) merged).
  { apply mergedAreas_allocated; [|lia].
    eapply allocatedBelow_le, Halloc. lia. }
  unfold allocatedBelow in Hmerged. rewrite Forall_lookup in Hmerged.
  specialize (Hmerged _ _ Hi). rewrite length_app, length_replicate. exact Hmerged.
Qed.

Lemma rebuild_lights_land_witness :
  let dm' := deliver (sampleQuartet "on") started in
  exists i area,
    findArea (Some "office") (data_areas dm') = Some (i, area)
    /\ stored (store dm') (a_lights area)
         (mkLight "office" "Office" (Some "d1") "Desk lamp" "light.desk" On
            (Some 50%Q) None).
Proof.
  cbv zeta.
  destruct (rebuild_lights_land sampleAreas sampleDevices sampleEntities
              (sampleStates "on")
              (deliver [EvDevices sampleDevices; EvEntities sampleEntities;
                        EvAreas sampleAreas] started)
              (deliver (sampleQuartet "on") started) "light.desk")
    as (state & entity & device & i & area & attributes & Hfound & Harea & Ha & Hst).
  - vm_compute. reflexivity.
  - constructor.
  - vm_compute. repeat constructor.
  - reflexivity.
  - vm_compute in Hfound. injection Hfound as <- <- <-.
    cbn in Ha. injection Ha as <-.
    exists i, area. split; [exact Harea|].
    assert (Hid : a_id area = "office" /\ a_name area = "Office").
    { vm_compute in Harea. injection Harea as _ <-. split; reflexivity. }
    destruct Hid as [Hid Hname]. rewrite Hid, Hname in Hst. exact Hst.
Defined.

(** X18.  A light without a device, or on a device without an area, aborts
    the rebuild: if a key of the entity states in the light domain has a
    registry entry whose [device_id] is [null], or whose device has
    [area_id] [null], the rebuild throws, whatever else the snapshots
    hold. *)
Theorem unassigned_light_aborts (areas : list HassArea) (devices : list HassDevice)
    (entities : list HassEntity) (entityStates : Dict.t HassEntityState)
    (dm : DataManager) (entityId : string) (k : nat) (entity : HassEntity) :
  entityId ∈ Dict.keys entityStates ->
  JS.startsWith entityId lightPrefix = true ->
  list_find (fun e => he_entity_id e = entityId) entities = Some (k, entity) ->
  (he_device_id entity = None
   \/ exists k' device,
        list_find (fun d => Some (hd_id d) = he_device_id entity) devices
        = Some (k', device)
        /\ hd_area_id device = None) ->
  exists e, snd (rebuild areas devices entities entityStates dm) = Throw e.
Proof.
  intros Hin Hprefix Hentity Hnull.
  destruct (snd (rebuild areas devices entities entityStates dm)) as [[]|e] eqn:Hok;
    [exfalso|eauto].
  destruct (rebuild_resolves areas devices entities entityStates dm entityId
              Hok Hin Hprefix) as (r & light & Hderive).
  destruct (deriveLight_resolved _ _ _ _ _ _ _ Hderive)
    as (state & entity' & device & i & area & attributes & Hfound & Harea & _).
  unfold getStateEntityDeviceForEntityId in Hfound. rewrite Hentity in Hfound.
  destruct (list_find _ devices) as [[k' device']|] eqn:Hdevice; [|discriminate].
  injection Hfound as _ <- <-.
  destruct Hnull as [Hnull|(k'' & device'' & Hd & Hnull)].
  - apply list_find_Some in Hdevice as (_ & Hid & _). congruence.
  - injection Hd as <- <-. apply findArea_lookup in Harea as [_ Hid]. congruence.
Qed.

Lemma unassigned_light_aborts_witness :
  let groups := [ mkHassEntity None "light.all" ] in
  let states := [ ("light.all", mkHassEntityState (Some "on") (Some [])) ] in
  exists e, snd (rebuild sampleAreas sampleDevices groups states started) = Throw e.
Proof.
  cbv zeta.
  apply (unassigned_light_aborts sampleAreas sampleDevices
           [ mkHassEntity None "light.all" ]
           [ ("light.all", mkHassEntityState (Some "on") (Some [])) ]
           started "light.all" 0%nat (mkHassEntity None "light.all")).
  - repeat constructor.
  - reflexivity.
  - reflexivity.
  - left. reflexivity.
Defined.

Lemma assignSensors_ok (devices : list HassDevice) (entities : list HassEntity)
    (entityStates : Dict.t HassEntityState) :
  forall (pairs : list (string * DashboardConfig)) (areas : list Area),
    snd (assignSensors (fun areas => deriveSensor areas devices entities entityStates)
           pairs areas) = Ok tt ->
    forall visit, visit ∈ pairs ->
      exists o, deriveSensor areas devices entities entityStates visit = Ok o.
Proof.
  induction pairs as [|first rest IH]; intros areas Hok visit Hin;
    [apply elem_of_nil in Hin; destruct Hin|].
  cbn [assignSensors] in Hok.
  destruct (deriveSensor areas devices entities entityStates first)
    as [[op|]|e] eqn:Hfirst; [| |discriminate Hok];
    (apply elem_of_cons in Hin as [->|Hin]; [eauto|]).
  - destruct (IH _ Hok visit Hin) as [o Ho]. exists o.
    rewrite <- Ho. apply deriveSensor_frame. symmetry. apply runOp_frame.
  - apply (IH _ Hok visit Hin).
Qed.

Lemma sensorPairs_visits (keys : list string) (key : string)
    (dashboard : DashboardConfig) :
  key ∈ keys -> dashboard ∈ dashboardConfigs ->
  (key, dashboard) ∈ sensorPairs keys.
Proof.
  intros Hkey Hdash. unfold sensorPairs.
  apply list_elem_of_bind. exists key. split; [|exact Hkey].
  apply list_elem_of_fmap. exists dashboard. split; [reflexivity|exact Hdash].
Qed.

Lemma findArea_absent (areaId : string) (staleAreas : list Area) (fresh : ArrayRef)
    (areas : list HassArea) :
  areaId ∉ map ha_area_id areas ->
  findArea (Some areaId) (mergedAreas staleAreas fresh areas) = None.
Proof.
  intros Habsent. unfold findArea. apply list_find_None, Forall_forall.
  intros x Hx Hid. apply Habsent.
  assert (Hids : map a_id (mergedAreas staleAreas fresh areas) = map ha_area_id areas).
  { pose proof (mergedAreas_frame staleAreas areas fresh) as H.
    apply (f_equal (map (fun t => fst (fst t)))) in H.
    rewrite !map_map in H. exact H. }
  rewrite <- Hids. apply list_elem_of_fmap. exists x. split; [congruence|exact Hx].
Qed.

(** X19.  [updateSensors] looks up the area of every dashboard for every key
    of the entity states, sensor or not.  So a rebuild whose area registry
    lacks an area of the dashboard table throws as soon as the entity states
    hold one key; with no key at all it runs to its end whatever the
    registries hold, replaces the areas, clears the buffers and leaves every
    array of lights as it was. *)
Theorem rebuild_needs_dashboard_areas (areas : list HassArea)
    (devices : list HassDevice) (entities : list HassEntity)
    (entityStates : Dict.t HassEntityState) (dm : DataManager)
    (dashboard : DashboardConfig) :
  dashboard ∈ dashboardConfigs ->
  dc_areaId dashboard ∉ map ha_area_id areas ->
  (Dict.keys entityStates <> [] ->
   exists e, snd (rebuild areas devices entities entityStates dm) = Throw e)
  /\ (exists dm',
        rebuild areas devices entities [] dm = (dm', Ok tt)
        /\ incomingData dm' = mkIncomingData None None None None
        /\ forall r : nat, lightsAt (store dm') r = lightsAt (store dm) r).
Proof.
  intros Hdash Habsent. split.
  - intros Hkeys.
    destruct (snd (rebuild areas devices entities entityStates dm)) as [[]|e] eqn:Hok;
      [exfalso|eauto].
    destruct (rebuild_outcome areas devices entities entityStates dm)
      as (_ & _ & Hdone).
    destruct (Hdone Hok) as [_ Hsensed].
    destruct (Dict.keys entityStates) as [|key rest] eqn:Hk; [congruence|].
    destruct (assignSensors_ok _ _ _ _ _ Hsensed (key, dashboard)) as [o Ho].
    { apply sensorPairs_visits; [left|exact Hdash]. }
    unfold deriveSensor in Ho. rewrite (findArea_absent _ _ _ _ Habsent) in Ho.
    discriminate Ho.
  - eexists. rewrite rebuild_run. cbv zeta. cbn [Dict.keys map storeLights snd].
    split; [reflexivity|]. split; [reflexivity|].
    intros r. cbn [store fst]. apply lightsAt_grown.
Qed.

Lemma rebuild_needs_dashboard_areas_witness :
  let office := [ mkHassArea "office" None "Office" ] in
  (exists e, snd (rebuild office sampleDevices sampleEntities (sampleStates "on")
                    started) = Throw e)
  /\ (exists dm', rebuild office sampleDevices sampleEntities [] started = (dm', Ok tt)).
Proof.
  cbv zeta.
  destruct (rebuild_needs_dashboard_areas [ mkHassArea "office" None "Office" ]
              sampleDevices sampleEntities (sampleStates "on") started
              (mkDashboardConfig "kitchen" Celsius None None None))
    as [Hthrow _].
  - vm_compute. repeat constructor.
  - vm_compute. intros H. apply list_elem_of_singleton in H. discriminate H.
  - destruct (rebuild_needs_dashboard_areas [ mkHassArea "office" None "Office" ]
                sampleDevices sampleEntities (sampleStates "on") started
                (mkDashboardConfig "kitchen" Celsius None None None))
      as [_ (dm' & Hrun & _)].
    + vm_compute. repeat constructor.
    + vm_compute. intros H. apply list_elem_of_singleton in H. discriminate H.
    + split; [apply Hthrow; discriminate|]. exists dm'. exact Hrun.
Defined.

(** ** Request ids and routing (client.ts) *)

Lemma send_run (type : ClientMessageType) (payload : option ServiceCall) (c : Client)
    (sock : WebSocket) :
  socket c = Some sock ->
  HomeAssistantWebSocketClient.send type payload c
  = (mkClient (connectionUrl c) (token c)
       (Some (mkWebSocket (ws_url sock)
                (ws_sent sock ++ [mkMessage payload type (runningId c)])
                (ws_closeCalled sock)))
       (nextId (runningId c)) (refetchInterval c) (ids c),
     Ok (runningId c)).
Proof.
  intros H. destruct c as [u t s r iv i]. cbn in H. subst s. reflexivity.
Qed.

Lemma send_throws (type : ClientMessageType) (payload : option ServiceCall)
    (c : Client) :
  socket c = None ->
  HomeAssistantWebSocketClient.send type payload c = (c, Throw SocketNotConnected).
Proof.
  intros H. unfold HomeAssistantWebSocketClient.send, bind, getState.
  rewrite H. reflexivity.
Qed.

Lemma nextId_range (r : Z) :
  1 <= r < MAX_SAFE_INTEGER ->
  1 <= nextId r < MAX_SAFE_INTEGER
  /\ (nextId r = r + 1 \/ (r = MAX_SAFE_INTEGER - 1 /\ nextId r = 1)).
Proof.
  intros Hr. unfold nextId, MAX_SAFE_INTEGER in *.
  change (2 ^ 53 - 1) with 9007199254740991 in *.
  destruct (9007199254740991 <=? r + 1) eqn:H.
  - apply Z.leb_le in H. lia.
  - apply Z.leb_gt in H. lia.
Qed.

Lemma sendDataRequests_run (c : Client) (sock : WebSocket) :
  socket c = Some sock ->
  let r := runningId c in
  HomeAssistantWebSocketClient.sendDataRequests c
  = (mkClient (connectionUrl c) (token c)
       (Some (mkWebSocket (ws_url sock)
                (ws_sent sock ++
                 [ mkMessage None GET_AREA_REGISTRY r;
                   mkMessage None GET_DEVICE_REGISTRY (nextId r);
                   mkMessage None GET_ENTITY_REGISTRY (nextId (nextId r));
                   mkMessage None SUBSCRIBE_ENTITIES (nextId (nextId (nextId r))) ])
                (ws_closeCalled sock)))
       (nextId (nextId (nextId (nextId r)))) (refetchInterval c)
       (mkRequestIds r (nextId r) (nextId (nextId r)) (nextId (nextId (nextId r)))),
     Ok tt).
Proof.
  intros H. destruct c as [u t s r iv i]. cbn in H. subst s. cbv zeta.
  unfold HomeAssistantWebSocketClient.sendDataRequests,
    HomeAssistantWebSocketClient.send, bind, getState, modify, ret.
  cbn [socket runningId ids connectionUrl token refetchInterval setSocket
       setRunningId setIds ids_areas ids_devices ids_entities ids_entityStates
       ws_url ws_sent ws_closeCalled fst snd].
  rewrite <- !app_assoc. reflexivity.
Qed.

Lemma sendDataRequests_throws (c : Client) :
  socket c = None ->
  HomeAssistantWebSocketClient.sendDataRequests c
  = (c, Throw SendDataRequestsNotConnected).
Proof.
  intros H. unfold HomeAssistantWebSocketClient.sendDataRequests, bind, getState.
  rewrite H. reflexivity.
Qed.

Lemma four_ids (r : Z) :
  1 <= r < MAX_SAFE_INTEGER ->
  let i2 := nextId r in
  let i3 := nextId i2 in
  let i4 := nextId i3 in
  NoDup [r; i2; i3; i4]
  /\ Forall (fun i => 1 <= i < MAX_SAFE_INTEGER) [r; i2; i3; i4]
  /\ 1 <= nextId i4 < MAX_SAFE_INTEGER
  /\ (r + 4 < MAX_SAFE_INTEGER ->
      i2 = r + 1 /\ i3 = r + 2 /\ i4 = r + 3 /\ nextId i4 = r + 4).
Proof.
  intros Hr. cbv zeta.
  destruct (nextId_range r Hr) as [H2 D2].
  destruct (nextId_range _ H2) as [H3 D3].
  destruct (nextId_range _ H3) as [H4 D4].
  destruct (nextId_range _ H4) as [H5 D5].
  set (i2 := nextId r) in *. set (i3 := nextId i2) in *.
  set (i4 := nextId i3) in *. set (i5 := nextId i4) in *.
  clearbody i2 i3 i4 i5. unfold MAX_SAFE_INTEGER in *.
  change (2 ^ 53 - 1) with 9007199254740991 in *.
  split; [|split; [|split]].
  - repeat (apply NoDup_cons; split);
      [| | | |apply NoDup_nil; exact I];
      rewrite ?elem_of_cons, ?elem_of_nil; intros H; lia.
  - repeat constructor; lia.
  - exact H5.
  - intros Hroom. lia.
Qed.

(** X20.  The four requests of [sendDataRequests], on a connected client
    whose running id is in range: the frames go out in the order areas,
    devices, entities, subscription, each with the id recorded for its
    answer; the four ids are pairwise different, also when the running id
    wraps around at [Number.MAX_SAFE_INTEGER], and consecutive when it does
    not; the running id stays in range. *)
Theorem sendDataRequests_ids (c : Client) (sock : WebSocket) :
  socket c = Some sock ->
  1 <= runningId c < MAX_SAFE_INTEGER ->
  exists c' i1 i2 i3 i4,
    HomeAssistantWebSocketClient.sendDataRequests c = (c', Ok tt)
    /\ sentFrames c'
       = sentFrames c ++
         [ mkMessage None GET_AREA_REGISTRY i1;
           mkMessage None GET_DEVICE_REGISTRY i2;
           mkMessage None GET_ENTITY_REGISTRY i3;
           mkMessage None SUBSCRIBE_ENTITIES i4 ]
    /\ ids c' = mkRequestIds i1 i2 i3 i4
    /\ i1 = runningId c
    /\ NoDup [i1; i2; i3; i4]
    /\ Forall (fun i => 1 <= i < MAX_SAFE_INTEGER) [i1; i2; i3; i4]
    /\ 1 <= runningId c' < MAX_SAFE_INTEGER
    /\ (runningId c + 4 < MAX_SAFE_INTEGER ->
        i2 = i1 + 1 /\ i3 = i1 + 2 /\ i4 = i1 + 3 /\ runningId c' = i1 + 4).
Proof.
  intros Hsock Hr.
  destruct (four_ids (runningId c) Hr) as (Hnodup & Hrange & Hnext & Hroom).
  eexists _, _, _, _, _. split; [apply (sendDataRequests_run c sock Hsock)|].
  unfold sentFrames. rewrite Hsock. cbn [socket ids runningId ws_sent].
  split; [reflexivity|]. split; [reflexivity|]. split; [reflexivity|].
  split; [exact Hnodup|]. split; [exact Hrange|]. split; [exact Hnext|].
  exact Hroom.
Qed.

Lemma sendDataRequests_ids_witness :
  let c := fst (HomeAssistantWebSocketClient.connect
                  (HomeAssistantWebSocketClient.new "hub.local:8123" "token" false)) in
  exists c',
    HomeAssistantWebSocketClient.sendDataRequests c = (c', Ok tt)
    /\ ids c' = mkRequestIds 1 2 3 4 /\ runningId c' = 5.
Proof.
  cbv zeta.
  destruct (sendDataRequests_ids
              (fst (HomeAssistantWebSocketClient.connect
                      (HomeAssistantWebSocketClient.new "hub.local:8123" "token" false)))
              (mkWebSocket "ws://hub.local:8123/api/websocket" [] false)
              eq_refl)
    as (c' & i1 & i2 & i3 & i4 & Hrun & _ & Hids & H1 & _ & _ & _ & Hroom).
  - split; [discriminate|reflexivity].
  - exists c'. split; [exact Hrun|].
    destruct Hroom as (H2 & H3 & H4 & H5); [reflexivity|].
    cbn in H1. subst i1 i2 i3 i4. split; [exact Hids|exact H5].
Defined.

(** X21.  Once [sendDataRequests] has recorded its four ids, a [result]
    frame without error is routed by its id alone: the answer to the areas
    request is emitted on [areas], to the devices request on [devices], to
    the entities request on [entities], each with the payload of the frame;
    the acknowledgement of the subscription and a frame with any other id
    are dropped.  The four ids being different, no answer is taken for
    another, and the client is left as it was. *)
Theorem onmessage_routes_results {P} (c : Client) (sock : WebSocket)
    (data : ServerMessage P) (result : P) :
  socket c = Some sock ->
  1 <= runningId c < MAX_SAFE_INTEGER ->
  sm_type data = "result" ->
  sm_error data = false ->
  sm_result data = Some result ->
  let c1 := fst (HomeAssistantWebSocketClient.sendDataRequests c) in
  (sm_id data = Some (ids_areas (ids c1)) ->
   onmessage data c1 = (c1, Ok [Emit ChAreas result]))
  /\ (sm_id data = Some (ids_devices (ids c1)) ->
      onmessage data c1 = (c1, Ok [Emit ChDevices result]))
  /\ (sm_id data = Some (ids_entities (ids c1)) ->
      onmessage data c1 = (c1, Ok [Emit ChEntities result]))
  /\ (sm_id data = Some (ids_entityStates (ids c1)) ->
      onmessage data c1 = (c1, Ok []))
  /\ (sm_id data <> Some (ids_areas (ids c1)) ->
      sm_id data <> Some (ids_devices (ids c1)) ->
      sm_id data <> Some (ids_entities (ids c1)) ->
      onmessage data c1 = (c1, Ok [])).
Proof.
  intros Hsock Hr Htype Herror Hresult. cbv zeta.
  rewrite (sendDataRequests_run c sock Hsock). cbv zeta. cbn [fst ids ids_areas
    ids_devices ids_entities ids_entityStates].
  destruct (four_ids (runningId c) Hr) as (Hnodup & _).
  cbv zeta in Hnodup.
  set (i1 := runningId c) in *. set (i2 := nextId i1) in *.
  set (i3 := nextId i2) in *. set (i4 := nextId i3) in *.
  assert (Hne : i1 <> i2 /\ i1 <> i3 /\ i1 <> i4 /\ i2 <> i3 /\ i2 <> i4 /\ i3 <> i4).
  { clearbody i1 i2 i3 i4.
    apply NoDup_cons in Hnodup as [H1 Hnodup].
    apply NoDup_cons in Hnodup as [H2 Hnodup].
    apply NoDup_cons in Hnodup as [H3 _].
    rewrite !elem_of_cons, !elem_of_nil in *. intuition congruence. }
  destruct Hne as (H12 & H13 & H14 & H23 & H24 & H34).
  unfold onmessage, bind, getState, emitResult. rewrite Htype, Herror, Hresult.
  cbn [String.eqb Ascii.eqb Bool.eqb ids ids_areas ids_devices ids_entities
       ids_entityStates].
  repeat split; intros; repeat case_decide; try reflexivity; congruence.
Qed.

Lemma onmessage_routes_results_witness :
  let c1 := fst (HomeAssistantWebSocketClient.sendDataRequests
                   (fst (HomeAssistantWebSocketClient.connect
                           (HomeAssistantWebSocketClient.new "hub.local:8123" "token"
                              false)))) in
  onmessage (mkServerMessage "result" false (Some 2) (Some sampleDevices) None) c1
  = (c1, Ok [Emit ChDevices sampleDevices]).
Proof.
  cbv zeta.
  destruct (onmessage_routes_results
              (fst (HomeAssistantWebSocketClient.connect
                      (HomeAssistantWebSocketClient.new "hub.local:8123" "token" false)))
              (mkWebSocket "ws://hub.local:8123/api/websocket" [] false)
              (mkServerMessage "result" false (Some 2) (Some sampleDevices) None)
              sampleDevices eq_refl)
    as (_ & Hdevices & _); [split; [discriminate|reflexivity]|reflexivity..|].
  apply Hdevices. reflexivity.
Defined.

Lemma call_send_keeps_socket (type : ClientMessageType)
    (payload : option ServiceCall) (c : Client) (sock : WebSocket) :
  socket c = Some sock ->
  exists sock', socket (fst (HomeAssistantWebSocketClient.send type payload c))
                = Some sock'.
Proof.
  intros H. rewrite (send_run type payload c sock H). cbn. eauto.
Qed.

Lemma onmessage_cases {P} (I : Client -> Prop) (data : ServerMessage P) (c : Client) :
  I c ->
  I (setSocket (closeSocket <$> socket c) c) ->
  I (fst (HomeAssistantWebSocketClient.sendDataRequests c)) ->
  I (fst (onmessage data c)).
Proof.
  intros Hsame Hclosed Hsent. unfold onmessage. unfold bind at 1, getState.
  destruct (String.eqb _ "auth_required"); [exact Hsame|].
  destruct (String.eqb _ "auth_invalid"); [exact Hclosed|].
  destruct (String.eqb _ "auth_ok").
  { unfold bind.
    destruct (HomeAssistantWebSocketClient.sendDataRequests c) as [c' [[]|e]];
      exact Hsent. }
  destruct (String.eqb _ "result").
  { destruct (sm_error data); [exact Hsame|]. unfold emitResult.
    repeat case_decide; try exact Hsame; destruct (sm_result data); exact Hsame. }
  destruct (String.eqb _ "event"); [|exact Hsame].
  destruct (sm_event data) as [event|]; [|exact Hsame]. unfold emitEvent.
  destruct (se_a event) as [[a|]|]; try exact Hsame.
  destruct (se_c event) as [[x|]|]; exact Hsame.
Qed.

Lemma call_keeps_socket {P} (op : ClientCall P) (c : Client) (sock : WebSocket) :
  socket c = Some sock -> exists sock', socket (fst (call op c)) = Some sock'.
Proof.
  intros H. destruct op as [| |e|e b|e|data|]; cbn [call].
  - unfold HomeAssistantWebSocketClient.connect, bind, getState. rewrite H. cbn. eauto.
  - apply (close_keeps_socket c sock H).
  - unfold HomeAssistantWebSocketClient.sendToggleLight, bind.
    rewrite (send_run _ _ c sock H). cbn. eauto.
  - unfold HomeAssistantWebSocketClient.sendTurnOnLight, bind.
    rewrite (send_run _ _ c sock H). cbn. eauto.
  - unfold HomeAssistantWebSocketClient.sendTurnOffLight, bind.
    rewrite (send_run _ _ c sock H). cbn. eauto.
  - assert (Hm : exists sock', socket (fst (onmessage data c)) = Some sock').
    { apply (onmessage_cases (fun c' => exists sock', socket c' = Some sock')).
      - eauto.
      - cbn. rewrite H. cbn. eauto.
      - rewrite (sendDataRequests_run c sock H). cbn. eauto. }
    unfold bind. destruct (onmessage data c) as [c' [o|e]]; exact Hm.
  - unfold onInterval, bind, getState. rewrite H.
    rewrite (sendDataRequests_run c sock H). cbn. eauto.
Qed.

(** X22.  A client that has connected stays "connected" for good: whatever
    is called on it afterwards, [close] included, and whatever frames and
    ticks arrive, [this.socket] is never [null] again.  So every later
    [connect] throws "Socket unexpectedly already connected", and the
    branch of the timer callback that clears the timer is never taken: each
    tick calls [sendDataRequests]. *)
Theorem connected_for_good {P} (ops : list (ClientCall P)) :
  forall (c : Client) (sock : WebSocket),
    socket c = Some sock ->
    let c' := calls ops c in
    (exists sock', socket c' = Some sock')
    /\ HomeAssistantWebSocketClient.connect c' = (c', Throw SocketAlreadyConnected)
    /\ onInterval c' = HomeAssistantWebSocketClient.sendDataRequests c'.
Proof.
  induction ops as [|op rest IH]; intros c sock H; cbv zeta.
  - cbn [calls]. split; [eauto|]. split.
    + unfold HomeAssistantWebSocketClient.connect, bind, getState. rewrite H.
      reflexivity.
    + unfold onInterval, bind, getState. rewrite H. reflexivity.
  - cbn [calls]. destruct (call_keeps_socket op c sock H) as [sock1 H1].
    apply (IH _ sock1 H1).
Qed.

Lemma connected_for_good_witness :
  let c := calls [CallConnect; CallClose; CallMessage
                    (mkServerMessage (P := unit) "auth_invalid" false None None None)]
             (HomeAssistantWebSocketClient.new "hub.local:8123" "token" false) in
  HomeAssistantWebSocketClient.connect c = (c, Throw SocketAlreadyConnected).
Proof.
  cbv zeta.
  destruct (connected_for_good
              [CallClose; CallMessage
                 (mkServerMessage (P := unit) "auth_invalid" false None None None)]
              (fst (HomeAssistantWebSocketClient.connect
                      (HomeAssistantWebSocketClient.new "hub.local:8123" "token" false)))
              (mkWebSocket "ws://hub.local:8123/api/websocket" [] false) eq_refl)
    as (_ & Hconnect & _).
  exact Hconnect.
Defined.

Lemma send_idsInRange (type : ClientMessageType) (payload : option ServiceCall)
    (c : Client) :
  idsInRange c -> idsInRange (fst (HomeAssistantWebSocketClient.send type payload c)).
Proof.
  intros [Hr Hsent]. destruct (socket c) as [sock|] eqn:H.
  - rewrite (send_run type payload c sock H). cbn [fst].
    unfold idsInRange, sentFrames in *. rewrite H in Hsent.
    cbn [runningId socket ws_sent]. split; [apply nextId_range, Hr|].
    apply Forall_app. split; [exact Hsent|]. repeat constructor; cbn; lia.
  - rewrite (send_throws type payload c H). split; assumption.
Qed.

Lemma sendDataRequests_idsInRange (c : Client) :
  idsInRange c -> idsInRange (fst (HomeAssistantWebSocketClient.sendDataRequests c)).
Proof.
  intros [Hr Hsent]. destruct (socket c) as [sock|] eqn:H.
  - rewrite (sendDataRequests_run c sock H). cbv zeta. cbn [fst].
    destruct (four_ids (runningId c) Hr) as (_ & Hrange & Hnext & _).
    cbv zeta in Hrange, Hnext.
    unfold idsInRange, sentFrames in *. rewrite H in Hsent.
    cbn [runningId socket ws_sent]. split; [exact Hnext|].
    apply Forall_app. split; [exact Hsent|].
    apply Forall_cons in Hrange as [H1 Hrange].
    apply Forall_cons in Hrange as [H2 Hrange].
    apply Forall_cons in Hrange as [H3 Hrange].
    apply Forall_cons in Hrange as [H4 _].
    constructor; [exact H1|]. constructor; [exact H2|].
    constructor; [exact H3|]. constructor; [exact H4|]. constructor.
  - rewrite (sendDataRequests_throws c H). split; assumption.
Qed.

Lemma liftSend_idsInRange (type : ClientMessageType) (payload : option ServiceCall)
    (c : Client) :
  idsInRange c ->
  idsInRange (fst ((exec HomeAssistantWebSocketClient.send type payload; ret tt) c)).
Proof.
  intros Hc. pose proof (send_idsInRange type payload c Hc) as H.
  unfold bind. destruct (HomeAssistantWebSocketClient.send type payload c)
    as [c' [i|e]]; exact H.
Qed.

Lemma close_frames (c : Client) :
  runningId (fst (HomeAssistantWebSocketClient.close c)) = runningId c
  /\ sentFrames (fst (HomeAssistantWebSocketClient.close c)) = sentFrames c.
Proof. destruct c as [u t [sock|] r [iv|] i]; split; reflexivity. Qed.

Lemma call_idsInRange {P} (op : ClientCall P) (c : Client) :
  idsInRange c -> idsInRange (fst (call op c)).
Proof.
  intros Hc. destruct op as [| |e|e b|e|data|]; cbn [call].
  - unfold HomeAssistantWebSocketClient.connect, bind, getState.
    destruct (socket c); [exact Hc|]. cbn [fst].
    split; [split; [discriminate|reflexivity]|constructor].
  - destruct (close_frames c) as [Hr Hs]. unfold idsInRange. rewrite Hr, Hs.
    exact Hc.
  - apply liftSend_idsInRange, Hc.
  - apply liftSend_idsInRange, Hc.
  - apply liftSend_idsInRange, Hc.
  - assert (Hm : idsInRange (fst (onmessage data c))).
    { apply (onmessage_cases idsInRange); [exact Hc| |].
      - destruct c as [u t [sock|] r iv i]; exact Hc.
      - apply sendDataRequests_idsInRange, Hc. }
    unfold bind. destruct (onmessage data c) as [c' [o|e]]; exact Hm.
  - unfold onInterval, bind, getState.
    destruct (socket c) as [sock|] eqn:H.
    + apply sendDataRequests_idsInRange, Hc.
    + destruct c as [u t s r [iv|] i]; cbn in H; subst s; exact Hc.
Qed.

(** X23.  The ids of the frames stay in range: on a client created by the
    constructor, whatever is called and whatever arrives, the running id
    and the id of every frame handed to [send] are between 1 and
    [Number.MAX_SAFE_INTEGER - 1]; the running id never reaches
    [Number.MAX_SAFE_INTEGER]. *)
Theorem ids_stay_in_range {P} (ops : list (ClientCall P)) :
  forall c : Client, idsInRange c -> idsInRange (calls ops c).
Proof.
  induction ops as [|op rest IH]; intros c Hc; [exact Hc|].
  cbn [calls]. apply IH, call_idsInRange, Hc.
Qed.

Lemma ids_stay_in_range_witness :
  idsInRange (calls [CallConnect; CallTurnOnLight "light.desk" None;
                     CallMessage (mkServerMessage (P := unit) "auth_ok" false None
                                    None None);
                     CallInterval]
                (HomeAssistantWebSocketClient.new "hub.local:8123" "token" false)).
Proof.
  apply (ids_stay_in_range
           [CallConnect; CallTurnOnLight "light.desk" None;
            CallMessage (mkServerMessage (P := unit) "auth_ok" false None None None);
            CallInterval]).
  split; [split; [discriminate|reflexivity]|constructor].
Defined.

(** ** The sensors a rebuild installs (data-manager.ts) *)

Lemma assignSensors_omap (devices : list HassDevice) (entities : list HassEntity)
    (entityStates : Dict.t HassEntityState) (base : list Area) :
  forall (pairs : list (string * DashboardConfig)) (areas : list Area),
    map frame areas = map frame base ->
    snd (assignSensors (fun areas => deriveSensor areas devices entities entityStates)
           pairs areas) = Ok tt ->
    fst (assignSensors (fun areas => deriveSensor areas devices entities entityStates)
           pairs areas)
    = applyOps (omap (opOf base devices entities entityStates) pairs) areas.
Proof.
  induction pairs as [|visit rest IH]; intros areas Hframe Hok; [reflexivity|].
  cbn [assignSensors] in *.
  change (omap (opOf base devices entities entityStates) (visit :: rest))
    with (match opOf base devices entities entityStates visit with
          | Some op => op :: omap (opOf base devices entities entityStates) rest
          | None => omap (opOf base devices entities entityStates) rest
          end).
  unfold opOf at 1.
  rewrite <- (deriveSensor_frame areas base _ _ _ visit Hframe).
  destruct (deriveSensor areas devices entities entityStates visit)
    as [[op|]|e]; [| |discriminate Hok].
  - cbn [applyOps fold_left]. apply IH; [|exact Hok].
    rewrite runOp_frame. exact Hframe.
  - apply IH; assumption.
Qed.

Lemma runOp_installed (op : SensorOp) (areas : list Area) (i : nat)
    (kind : SensorKind) :
  installed kind <$> (runOp op areas !! i)
  = if decide (opIndex op = i /\ opKind op = kind)
    then (fun _ => Some (opGauge op)) <$> (areas !! i)
    else installed kind <$> (areas !! i).
Proof.
  destruct op as [j s|j s|j s]; cbn [runOp opIndex opKind opGauge];
    (destruct (decide (j = i)) as [->|Hne];
     [rewrite list_lookup_alter_eq
     |rewrite list_lookup_alter_ne by exact Hne;
      case_decide as H; [destruct H; congruence|reflexivity]]);
    destruct (areas !! i) as [area|]; cbn;
    case_decide as H; try reflexivity;
    destruct kind; try reflexivity;
    first [destruct H as [_ H]; discriminate H | exfalso; apply H; split; reflexivity].
Qed.

Lemma runOp_length (op : SensorOp) (areas : list Area) :
  length (runOp op areas) = length areas.
Proof. destruct op; cbn [runOp]; apply length_alter. Qed.

(** The field of a kind at a position after the assignments of a list, all
    of whose assignments to that field carry the same gauge. *)
Lemma applyOps_installed (i : nat) (kind : SensorKind) (g : Gauge) :
  forall (ops : list SensorOp) (areas : list Area),
    (forall op, op ∈ ops -> opIndex op = i -> opKind op = kind -> opGauge op = g) ->
    (i < length areas)%nat ->
    ((exists op, op ∈ ops /\ opIndex op = i /\ opKind op = kind)
     \/ installed kind <$> (areas !! i) = Some (Some g)) ->
    installed kind <$> (applyOps ops areas !! i) = Some (Some g).
Proof.
  induction ops as [|op rest IH]; intros areas Hsame Hlt Hsome.
  - destruct Hsome as [(op & Hin & _)|H]; [|exact H].
    apply elem_of_nil in Hin. destruct Hin.
  - cbn [applyOps fold_left]. apply IH.
    + intros op' Hin. apply Hsame. right. exact Hin.
    + rewrite runOp_length. exact Hlt.
    + destruct (decide (opIndex op = i /\ opKind op = kind)) as [[Hi Hk]|Hno].
      * right. rewrite runOp_installed.
        rewrite decide_True by (split; assumption).
        destruct (lookup_lt_is_Some_2 areas i Hlt) as [area ->]. cbn.
        rewrite (Hsame op); [reflexivity|left|exact Hi|exact Hk].
      * destruct Hsome as [(op' & Hin & Hi & Hk)|H].
        -- apply elem_of_cons in Hin as [->|Hin];
             [exfalso; apply Hno; split; assumption|].
           left. exists op'. split; [exact Hin|]. split; assumption.
        -- right. rewrite runOp_installed, decide_False by exact Hno. exact H.
Qed.

Lemma dashboard_by_area (d d' : DashboardConfig) :
  d ∈ dashboardConfigs -> d' ∈ dashboardConfigs ->
  dc_areaId d = dc_areaId d' -> d = d'.
Proof.
  unfold dashboardConfigs. intros Hd Hd'.
  repeat (apply elem_of_cons in Hd as [->|Hd]);
    [| | | |apply elem_of_nil in Hd; destruct Hd];
    repeat (apply elem_of_cons in Hd' as [->|Hd']);
    try (apply elem_of_nil in Hd'; destruct Hd');
    intros H; first [reflexivity|discriminate H].
Qed.

(** An assignment of a visit: the kind it has is the kind its key is
    configured for, and the area at its position is the dashboard's. *)
(** The assignment of the visit of a configured sensor. *)
Lemma deriveSensor_configured (areas : list Area) (devices : list HassDevice)
    (entities : list HassEntity) (entityStates : Dict.t HassEntityState)
    (kind : SensorKind) (key : string) (dashboard : DashboardConfig)
    (o : option SensorOp) :
  dashboard ∈ dashboardConfigs ->
  configured kind dashboard = Some key ->
  deriveSensor areas devices entities entityStates (key, dashboard) = Ok o ->
  exists state entity device i area op,
    getStateEntityDeviceForEntityId key devices entities entityStates
    = Ok (Some state, entity, device)
    /\ findArea (Some (dc_areaId dashboard)) areas = Some (i, area)
    /\ o = Some op /\ opIndex op = i /\ opKind op = kind
    /\ opGauge op
       = ((a_id area, a_name area, Some (hd_id device), hd_name device, key),
          fst (sensed kind dashboard state), snd (sensed kind dashboard state)).
Proof.
  intros Hdash Hconf. unfold dashboardConfigs in Hdash.
  repeat (apply elem_of_cons in Hdash as [->|Hdash]);
    [| | | |apply elem_of_nil in Hdash; destruct Hdash];
    destruct kind; cbn in Hconf; try discriminate Hconf;
    injection Hconf as <-;
    unfold deriveSensor;
    (destruct (findArea _ areas) as [[i area]|] eqn:Harea; [|discriminate]);
    (destruct (getStateEntityDeviceForEntityId _ _ _ _)
       as [[[[state|] entity] device]|e] eqn:Hfound);
    cbn [dc_humiditySensorEntityId dc_temperatureSensorEntityId
         dc_carbonDioxideSensorEntityId];
    repeat (case_decide; try discriminate; try (exfalso; congruence));
    intros Hop; injection Hop as <-;
    exists state, entity, device, i, area; eexists;
    (split; [reflexivity|]); (split; [reflexivity|]); (split; [reflexivity|]);
    (split; [reflexivity|]); (split; reflexivity).
Qed.

(** X24.  After a completed rebuild, each sensor the dashboard table
    configures and the entity states hold is installed in the area of its
    dashboard: the field of its kind holds a sensor with the id and the name
    of the area, the id and the name of the device, the entity id, and the
    unit [updateSensors] stores (for a temperature the unit of the snapshot,
    not the unit of the dashboard the value was converted to).  No other
    visit of the two loops overwrites it. *)
Theorem rebuild_sensors_land (areas : list HassArea) (devices : list HassDevice)
    (entities : list HassEntity) (entityStates : Dict.t HassEntityState)
    (dm dm' : DataManager) (kind : SensorKind) (key : string)
    (dashboard : DashboardConfig) :
  rebuild areas devices entities entityStates dm = (dm', Ok tt) ->
  dashboard ∈ dashboardConfigs ->
  configured kind dashboard = Some key ->
  key ∈ Dict.keys entityStates ->
  exists state entity device i area reading,
    getStateEntityDeviceForEntityId key devices entities entityStates
    = Ok (Some state, entity, device)
    /\ findArea (Some (dc_areaId dashboard)) (data_areas dm') = Some (i, area)
    /\ installed kind area
       = Some ((a_id area, a_name area, Some (hd_id device), hd_name device, key),
               reading, storedUnit kind dashboard state).
Proof.
  intros Hrun Hdash Hconf Hkey.
  assert (Hok : snd (rebuild areas devices entities entityStates dm) = Ok tt)
    by (rewrite Hrun; reflexivity).
  destruct (rebuild_outcome areas devices entities entityStates dm)
    as (Hframe & _ & Hdone).
  destruct (Hdone Hok) as [Hlit Hsensed]. clear Hdone.
  set (merged := mergedAreas (data_areas dm) (length (store dm)) areas) in *.
  set (pairs := sensorPairs (Dict.keys entityStates)) in *.
  assert (Hareas : data_areas dm'
                   = applyOps (omap (opOf merged devices entities entityStates) pairs)
                       merged).
  { rewrite <- (assignSensors_omap devices entities entityStates merged pairs merged
                  eq_refl Hsensed).
    rewrite rebuild_run in Hrun. cbv zeta in Hrun. fold merged pairs in Hrun.
    rewrite Hlit, Hsensed in Hrun. injection Hrun as <-. reflexivity. }
  rewrite Hrun in Hframe. cbn [fst] in Hframe.
  assert (Hvisit : (key, dashboard) ∈ pairs)
    by (apply sensorPairs_visits; assumption).
  destruct (assignSensors_ok _ _ _ _ _ Hsensed _ Hvisit) as [o Ho].
  destruct (deriveSensor_configured _ _ _ _ kind key dashboard o Hdash Hconf Ho)
    as (state & entity & device & i & area & op & Hfound & Harea & -> & Hi & Hk & Hg).
  pose proof (findArea_frame (Some (dc_areaId dashboard)) _ _ Hframe) as Hsame.
  rewrite Harea in Hsame.
  destruct (findArea (Some (dc_areaId dashboard)) (data_areas dm'))
    as [[j area']|] eqn:Harea'; [|destruct Hsame].
  destruct Hsame as [-> Hf]. unfold frame in Hf. injection Hf as Hid Hname _ _.
  exists state, entity, device, i, area', (fst (sensed kind dashboard state)).
  split; [exact Hfound|]. split; [reflexivity|].
  replace (storedUnit kind dashboard state) with (snd (sensed kind dashboard state))
    by (destruct kind; reflexivity).
  rewrite Hid, Hname, <- Hg.
  apply findArea_lookup in Harea' as [Hlookup' _].
  apply findArea_lookup in Harea as [Hlookup Hareaid].
  assert (Hshown : installed kind <$> (data_areas dm' !! i) = Some (Some (opGauge op))).
  { rewrite Hareas. apply applyOps_installed.
    - intros op' Hin Hi' Hk'.
      apply list_elem_of_omap in Hin as ([key' d'] & Hin & Hop).
      unfold opOf in Hop.
      destruct (deriveSensor merged devices entities entityStates (key', d'))
        as [[op''|]|e] eqn:Hd'; try discriminate Hop.
      injection Hop as ->.
      destruct (deriveSensor_slot _ _ _ _ _ _ _ Hd') as (Hconf' & area'' & Hl'' & Hid'').
      destruct (sensorPairs_elem _ _ _ Hin) as [_ Hdash'].
      rewrite Hi' in Hl''. rewrite Hlookup in Hl''. injection Hl'' as <-.
      assert (d' = dashboard) as ->.
      { apply dashboard_by_area; [exact Hdash'|exact Hdash|]. congruence. }
      rewrite Hk' in Hconf'. assert (key' = key) as -> by congruence.
      rewrite Ho in Hd'. injection Hd' as <-. reflexivity.
    - eapply lookup_lt_Some, Hlookup.
    - left. exists op. split; [|split; assumption].
      apply list_elem_of_omap. exists (key, dashboard). split; [exact Hvisit|].
      unfold opOf. rewrite Ho. reflexivity. }
  rewrite Hlookup' in Hshown. cbn in Hshown. injection Hshown as ->. reflexivity.
Qed.

Lemma rebuild_sensors_land_witness :
  let dm' := deliver (climateQuartet "68" Fahrenheit) started in
  exists i area reading,
    findArea (Some "living_room") (data_areas dm') = Some (i, area)
    /\ installed KTemperature area
       = Some (("living_room", "Living room", Some "d2", "Aranet4",
                "sensor.aranet4_23eff_temperature"),
               reading, temperatureUnitString Fahrenheit).
Proof.
  cbv zeta.
  destruct (rebuild_sensors_land sampleAreas sensorDevices climateEntities
              (climateStates "68" Fahrenheit)
              (deliver [EvAreas sampleAreas; EvDevices sensorDevices;
                        EvEntities climateEntities] started)
              (deliver (climateQuartet "68" Fahrenheit) started)
              KTemperature "sensor.aranet4_23eff_temperature"
              (mkDashboardConfig "living_room" Celsius
                 (Some "sensor.aranet4_23eff_temperature")
                 (Some "sensor.aranet4_23eff_humidity")
                 (Some "sensor.aranet4_23eff_carbon_dioxide")))
    as (state & entity & device & i & area & reading & Hfound & Harea & Hshown).
  - vm_compute. reflexivity.
  - vm_compute. repeat constructor.
  - reflexivity.
  - vm_compute. repeat constructor.
  - vm_compute in Hfound. injection Hfound as <- <- <-.
    exists i, area, reading. split; [exact Harea|].
    assert (Hid : a_id area = "living_room" /\ a_name area = "Living room").
    { vm_compute in Harea. injection Harea as _ <-. split; reflexivity. }
    destruct Hid as [Hid Hname]. rewrite Hid, Hname in Hshown. exact Hshown.
Defined.

(** ** Frames, the timer and [close] (client.ts) *)

(** X25.  [close] sends nothing and keeps the running id and the recorded
    ids; a second [close] changes nothing more; on a client that never
    connected it does nothing; it never throws. *)
Theorem close_is_idempotent (c : Client) :
  let c1 := fst (HomeAssistantWebSocketClient.close c) in
  snd (HomeAssistantWebSocketClient.close c) = Ok tt
  /\ HomeAssistantWebSocketClient.close c1 = (c1, Ok tt)
  /\ sentFrames c1 = sentFrames c
  /\ runningId c1 = runningId c
  /\ ids c1 = ids c
  /\ (socket c = None -> c1 = c).
Proof.
  destruct c as [u t [sock|] r [iv|] i]; cbv zeta; repeat split; try reflexivity;
    intros H; discriminate H.
Qed.

Ltac frame_done :=
  cbn; split;
  [intros _ _; reflexivity
  |first [apply le_n | apply le_S, le_n | left; split; [reflexivity|auto]]].

Lemma onmessage_branches {P} (data : ServerMessage P) (c : Client) :
  let c' := fst (onmessage data c) in
  (sm_type data <> "auth_ok" -> sm_type data <> "auth_invalid" -> c' = c)
  /\ match snd (onmessage data c) with
     | Ok outputs => (length outputs <= 1)%nat
     | Throw e =>
         (e = TypeError
          /\ ((sm_type data = "result" /\ sm_result data = None)
              \/ sm_type data = "event"))
         \/ (e = SendDataRequestsNotConnected
             /\ sm_type data = "auth_ok" /\ socket c = None)
     end.
Proof.
  cbv zeta. unfold onmessage, bind, getState, emitResult, emitEvent.
  destruct (String.eqb _ "auth_required") eqn:H1; [frame_done|].
  destruct (String.eqb _ "auth_invalid") eqn:H2.
  { apply String.eqb_eq in H2. cbn. split; [congruence|apply le_S, le_n]. }
  destruct (String.eqb _ "auth_ok") eqn:H3.
  { apply String.eqb_eq in H3. split; [congruence|].
    destruct (socket c) as [sock|] eqn:Hsock.
    - rewrite (sendDataRequests_run c sock Hsock). cbn. apply le_S, le_n.
    - rewrite (sendDataRequests_throws c Hsock). cbn. right. auto. }
  destruct (String.eqb _ "result") eqn:H4.
  { apply String.eqb_eq in H4. destruct (sm_error data); [frame_done|].
    repeat case_decide; try frame_done;
      (destruct (sm_result data) eqn:Hres; frame_done). }
  destruct (String.eqb _ "event") eqn:H5; [|frame_done].
  apply String.eqb_eq in H5.
  destruct (sm_event data) as [event|]; [|frame_done].
  destruct (se_a event) as [[a|]|]; try frame_done.
  destruct (se_c event) as [[x|]|]; frame_done.
Qed.

(** X26.  What a frame can do, from the text on.  A frame emits at most one
    event.  Only an [auth_ok] frame (the four requests) and an
    [auth_invalid] frame (the socket is closed) change the client; every
    other frame, parsed or not, leaves it as it was.  The statements of the
    handler throw only: the [SyntaxError] of [JSON.parse] on a text that is
    not JSON; a [TypeError] on the frame [null], on a [result] frame without
    a result and on an [event] frame; and, when the client has no socket,
    the error of [sendDataRequests] on an [auth_ok] frame.  The events are
    the outputs of the handler: what a listener throws inside [emit] is not
    counted here. *)
Theorem onmessage_effects {P} (event : Parsed P) (c : Client) :
  let c' := fst (socket_onmessage event c) in
  (c' = c
   \/ exists data, event = JSONObject data
                   /\ (sm_type data = "auth_ok" \/ sm_type data = "auth_invalid"))
  /\ match snd (socket_onmessage event c) with
     | Ok outputs => (length outputs <= 1)%nat
     | Throw e =>
         (e = SyntaxError /\ event = NotJSON)
         \/ (e = TypeError
             /\ (event = JSONNull
                 \/ exists data,
                      event = JSONObject data
                      /\ ((sm_type data = "result" /\ sm_result data = None)
                          \/ sm_type data = "event")))
         \/ (e = SendDataRequestsNotConnected
             /\ socket c = None
             /\ exists data, event = JSONObject data /\ sm_type data = "auth_ok")
     end.
Proof.
  destruct event as [| | |data]; cbv zeta; cbn [socket_onmessage].
  - split; [left; reflexivity|]. cbn. left. split; reflexivity.
  - split; [left; reflexivity|]. cbn. right. left. split; [reflexivity|].
    left. reflexivity.
  - split; [left; reflexivity|]. cbn. apply Nat.le_0_l.
  - destruct (onmessage_branches data c) as [Hsame Hthrows]. split.
    + destruct (String.eqb (sm_type data) "auth_ok") eqn:Hok.
      { apply String.eqb_eq in Hok. right. exists data. auto. }
      destruct (String.eqb (sm_type data) "auth_invalid") eqn:Hinvalid.
      { apply String.eqb_eq in Hinvalid. right. exists data. auto. }
      apply String.eqb_neq in Hok, Hinvalid. left. apply Hsame; assumption.
    + destruct (snd (onmessage data c)) as [outputs|e]; [exact Hthrows|].
      destruct Hthrows as [[-> Hwhere]|(-> & Hok & Hsock)].
      * right. left. split; [reflexivity|]. right. exists data. auto.
      * right. right. split; [reflexivity|]. split; [exact Hsock|].
        exists data. auto.
Qed.

Lemma onmessage_frameOf (ev : Event) (c : Client) :
  NoDup [ids_areas (ids c); ids_devices (ids c); ids_entities (ids c)] ->
  onmessage (frameOf (ids c) ev) c
  = (c, Ok [match ev with
            | EvAreas areas => Emit ChAreas (PAreas areas)
            | EvDevices devices => Emit ChDevices (PDevices devices)
            | EvEntities entities => Emit ChEntities (PEntities entities)
            | EvEntityStates entitiesMap =>
                Emit ChEntityStates (PEntityStates entitiesMap)
            | EvEntityStateChange changes =>
                Emit ChEntityStateChange (PChanges changes)
            end]).
Proof.
  intros Hnodup.
  apply NoDup_cons in Hnodup as [H1 Hnodup].
  apply NoDup_cons in Hnodup as [H2 _].
  rewrite !elem_of_cons, !elem_of_nil in *.
  destruct ev as [a|d|e|s|ch];
    unfold onmessage, bind, getState, emitResult, emitEvent;
    cbn [frameOf sm_type sm_error sm_id sm_result sm_event se_a se_c
         String.eqb Ascii.eqb Bool.eqb];
    repeat case_decide; first [reflexivity | exfalso; intuition congruence].
Qed.

Lemma receive_frameOf (ev : Event) (dm : DataManager) :
  NoDup [ids_areas (ids (wsClient dm)); ids_devices (ids (wsClient dm));
         ids_entities (ids (wsClient dm))] ->
  receive (frameOf (ids (wsClient dm)) ev) dm
  = Some (fst (handle ev dm), snd (handle ev dm)).
Proof.
  intros Hnodup. unfold receive, liftClient.
  rewrite (onmessage_frameOf ev (wsClient dm) Hnodup).
  assert (setWsClient (wsClient dm) dm = dm) as -> by (destruct dm; reflexivity).
  destruct ev as [a|d|e|s|ch]; cbn [dispatch listened];
    destruct (handle _ dm) as [dm' [[]|err]]; reflexivity.
Qed.

(** X27.  Frames act as events.  On a started manager whose client has
    recorded three different ids for its registry requests, as
    [sendDataRequests] leaves them, the answer to a registry request and an
    [event] frame run exactly the listener of the event they carry, and a
    list of such frames, in any order, leaves the manager as the delivery of
    the events does.  What holds of deliveries of events holds of the frames
    that carry them. *)
Theorem frames_act_as_events (evs : list Event) :
  forall dm : DataManager,
    NoDup [ids_areas (ids (wsClient dm)); ids_devices (ids (wsClient dm));
           ids_entities (ids (wsClient dm))] ->
    receiveAll (map (frameOf (ids (wsClient dm))) evs) dm = Some (deliver evs dm)
    /\ forall ev, receive (frameOf (ids (wsClient dm)) ev) dm
                  = Some (fst (handle ev dm), snd (handle ev dm)).
Proof.
  induction evs as [|ev rest IH]; intros dm Hnodup;
    (split; [|intros ev'; apply receive_frameOf, Hnodup]); [reflexivity|].
  cbn [map receiveAll deliver]. rewrite (receive_frameOf ev dm Hnodup).
  assert (Hclient : wsClient (fst (handle ev dm)) = wsClient dm).
  { destruct (kindOf ev) as [k|] eqn:Hk.
    - rewrite (handle_registry ev k dm Hk), syncData_run.
      cbn [incomingData setIncomingData].
      destruct (in_areas _) as [a|]; [|reflexivity].
      destruct (in_devices _) as [d|]; [|reflexivity].
      destruct (in_entities _) as [e|]; [|reflexivity].
      destruct (in_entityStates _) as [s|]; [|reflexivity].
      rewrite rebuild_run. cbv zeta.
      destruct (snd (storeLights _ _ _)); [destruct (snd (assignSensors _ _ _))|];
        reflexivity.
    - destruct ev as [| | | |changes]; try discriminate Hk.
      apply onEntityStateChange_inventory. }
  rewrite <- Hclient. apply IH. rewrite Hclient. exact Hnodup.
Qed.

Lemma frames_act_as_events_witness :
  let dm := fst (liftClient HomeAssistantWebSocketClient.sendDataRequests started) in
  receiveAll (map (frameOf (ids (wsClient dm))) (sampleQuartet "on")) dm
  = Some (deliver (sampleQuartet "on") dm).
Proof.
  cbv zeta.
  apply (frames_act_as_events (sampleQuartet "on")
           (fst (liftClient HomeAssistantWebSocketClient.sendDataRequests started))).
  apply (bool_decide_unpack _). vm_compute. exact I.
Defined.

(** ** Arrays of lights across rebuilds (data-manager.ts) *)

(** X28.  Every area has an array of lights of its own.  From a manager in
    which the areas point to different arrays, as in a fresh one, and along
    events whose area registries list each area id once, no two areas of
    the model ever share an array, although [updateAreas] copies the
    reference of the array from the stale area into the new one; so what a
    patch or a rebuild writes into the array of one area never shows in
    another. *)
Theorem areas_own_their_arrays (evs : list Event) (dm : DataManager) :
  Forall uniqueAreaIds evs ->
  ownArrays dm ->
  let dm' := deliver evs dm in
  NoDup (map a_lights (data_areas dm'))
  /\ allocatedBelow (length (store dm')) (data_areas dm').
Proof.
  intros Hevs Hdm. cbv zeta.
  destruct (deliver_ownArrays evs dm Hevs Hdm) as (Halloc & Hown & _).
  split; assumption.
Qed.

Lemma areas_own_their_arrays_witness :
  let dm' := deliver (sampleQuartet "on" ++ sensorQuartet "800") started in
  NoDup (map a_lights (data_areas dm'))
  /\ allocatedBelow (length (store dm')) (data_areas dm').
Proof.
  cbv zeta.
  apply (areas_own_their_arrays (sampleQuartet "on" ++ sensorQuartet "800") started).
  - repeat constructor; apply (bool_decide_unpack _); vm_compute; exact I.
  - apply started_ownArrays.
Defined.

Lemma storeLights_elsewhere (derive : string -> Result (option (ArrayRef * Light)))
    (r k : nat) (light : Light) :
  forall (keys : list string) (st : list (list Light)),
    (forall key r' light',
        key ∈ keys -> derive key = Ok (Some (r', light')) ->
        r' <> r \/ l_entityId light' <> l_entityId light) ->
    lightsAt st r !! k = Some light ->
    lightsAt (fst (storeLights derive keys st)) r !! k = Some light.
Proof.
  induction keys as [|key rest IH]; intros st Hother Hk; [exact Hk|].
  cbn [storeLights]. destruct (derive key) as [[[r' light']|]|e] eqn:Hkey;
    [| |exact Hk].
  - apply IH; [intros; eapply Hother; [right|]; eassumption|].
    destruct (Hother key r' light') as [Hr|Hid]; [left|exact Hkey| |].
    + unfold upsertLight.
      destruct (list_find _ _) as [[i old]|]; rewrite lightsAt_insert;
        (rewrite decide_False by (intros [H _]; congruence)); exact Hk.
    + apply upsertLight_frame; assumption.
  - apply IH; [intros; eapply Hother; [right|]; eassumption|exact Hk].
Qed.

(** X29.  A light that moves to another area stays behind in the old one.
    When the area registry keeps an area and lists each area id once, the
    areas of the model have arrays of their own, and the snapshot puts the
    device of a light of that area into another area (or into none), a
    rebuild, completed or not, leaves the stale entry of the light where it
    was in the array of the old area, unchanged: [updateLights] only ever
    looks for the light in the array of the area its device has now. *)
Theorem moved_light_stays (areas : list HassArea) (devices : list HassDevice)
    (entities : list HassEntity) (entityStates : Dict.t HassEntityState)
    (dm : DataManager) (j i k : nat) (area : HassArea) (stale : Area)
    (light : Light) (state : option HassEntityState) (entity : HassEntity)
    (device : HassDevice) :
  NoDup (map ha_area_id areas) ->
  NoDup (map a_lights (data_areas dm)) ->
  allocatedBelow (length (store dm)) (data_areas dm) ->
  areas !! j = Some area ->
  list_find (fun x => a_id x = ha_area_id area) (data_areas dm) = Some (i, stale) ->
  lightsAt (store dm) (a_lights stale) !! k = Some light ->
  getStateEntityDeviceForEntityId (l_entityId light) devices entities entityStates
  = Ok (state, entity, device) ->
  hd_area_id device <> Some (ha_area_id area) ->
  let dm' := fst (rebuild areas devices entities entityStates dm) in
  exists x,
    data_areas dm' !! j = Some x
    /\ a_id x = ha_area_id area
    /\ lightsAt (store dm') (a_lights x) !! k = Some light.
Proof.
  intros Hids Hown Halloc Hj Hstale Hk Hfound Hmoved dm'.
  destruct (rebuild_outcome areas devices entities entityStates dm)
    as (Hframe & Hstore & _).
  fold dm' in Hframe, Hstore.
  set (merged := mergedAreas (data_areas dm) (length (store dm)) areas) in *.
  assert (Hmj : merged !! j
                = Some (mergedArea (data_areas dm) (length (store dm) + j)%nat area))
    by (unfold merged; rewrite mergedAreas_lookup, Hj; reflexivity).
  assert (Hx : exists x, data_areas dm' !! j = Some x
                         /\ a_id x = ha_area_id area
                         /\ a_lights x = a_lights stale).
  { apply (f_equal (fun l => l !! j)) in Hframe.
    rewrite !list_lookup_fmap, Hmj in Hframe.
    destruct (data_areas dm' !! j) as [x|]; [|discriminate Hframe].
    exists x. split; [reflexivity|].
    change (Some (frame x)
            = Some (frame (mergedArea (data_areas dm) (length (store dm) + j)%nat area)))
      in Hframe.
    injection Hframe as Hid _ _ Hl.
    unfold mergedArea in Hid, Hl. rewrite Hstale in Hl. cbn in Hid, Hl.
    split; assumption. }
  destruct Hx as (x & Hxj & Hid & Hl). exists x.
  split; [exact Hxj|]. split; [exact Hid|].
  rewrite Hstore, Hl.
  assert (Hmown : NoDup (map a_lights merged))
    by (apply mergedAreas_own; assumption).
  apply storeLights_elsewhere.
  - intros key r' light' _ Hderive.
    destruct (decide (key = l_entityId light)) as [->|Hne].
    + left. destruct (deriveLight_resolved _ _ _ _ _ _ _ Hderive)
        as (state' & entity' & device' & i' & area' & attributes
            & Hfound' & Harea' & _ & -> & _).
      rewrite Hfound in Hfound'. injection Hfound' as _ _ Hdev. subst device'.
      apply findArea_lookup in Harea' as [Hi' Hid'].
      intros Hsame.
      assert (i' = j) as ->.
      { apply (NoDup_lookup _ i' j (a_lights area') Hmown);
          rewrite list_lookup_fmap.
        - rewrite Hi'. reflexivity.
        - rewrite Hmj. cbn. unfold mergedArea. rewrite Hstale. cbn. congruence. }
      rewrite Hmj in Hi'. injection Hi' as <-. cbn in Hid'. congruence.
    + right. rewrite (deriveLight_keyed _ _ _ _ _ _ _ Hderive). exact Hne.
  - rewrite lightsAt_app; [exact Hk|]. eapply lightsAt_lookup_valid, Hk.
Qed.

Lemma moved_light_stays_witness :
  let dm := deliver (sampleQuartet "on") started in
  let moved := [ mkHassDevice (Some "kitchen") "d1" None None "Desk lamp" None ] in
  let dm' := fst (rebuild sampleAreas moved sampleEntities (sampleStates "on") dm) in
  exists x,
    data_areas dm' !! 3%nat = Some x
    /\ a_id x = "office"
    /\ lightsAt (store dm') (a_lights x) !! 0%nat
       = Some (mkLight "office" "Office" (Some "d1") "Desk lamp" "light.desk" On
                 (Some 50%Q) None).
Proof.
  cbv zeta.
  apply (moved_light_stays sampleAreas
           [ mkHassDevice (Some "kitchen") "d1" None None "Desk lamp" None ]
           sampleEntities (sampleStates "on")
           (deliver (sampleQuartet "on") started) 3 3 0
           (mkHassArea "office" None "Office")
           (mkArea "office" "Office" None 3%nat None None None)
           (mkLight "office" "Office" (Some "d1") "Desk lamp" "light.desk" On
              (Some 50%Q) None)
           (Some (mkHassEntityState (Some "on") (Some [("brightness", JsNumber 128%Q)])))
           (mkHassEntity (Some "d1") "light.desk")
           (mkHassDevice (Some "kitchen") "d1" None None "Desk lamp" None)).
  - apply (bool_decide_unpack _). vm_compute. exact I.
  - apply (bool_decide_unpack _). vm_compute. exact I.
  - apply (bool_decide_unpack _). vm_compute. exact I.
  - reflexivity.
  - vm_compute. reflexivity.
  - vm_compute. reflexivity.
  - vm_compute. reflexivity.
  - discriminate.
Defined.

Lemma handle_keeps_array (ev : Event) (dm : DataManager) (areaId : string)
    (i j : nat) (area area' : Area) :
  findArea (Some areaId) (data_areas dm) = Some (i, area) ->
  findArea (Some areaId) (data_areas (fst (handle ev dm))) = Some (j, area') ->
  a_lights area' = a_lights area.
Proof.
  intros Harea Harea'.
  assert (Hsame : forall dm', map frame (data_areas dm') = map frame (data_areas dm) ->
            findArea (Some areaId) (data_areas dm') = Some (j, area') ->
            a_lights area' = a_lights area).
  { intros dm' Hframe Hfound.
    pose proof (findArea_frame (Some areaId) _ _ Hframe) as H.
    rewrite Hfound, Harea in H. destruct H as [_ H].
    unfold frame in H. injection H as _ _ _ H. exact H. }
  destruct (kindOf ev) as [k|] eqn:Hk.
  - rewrite (handle_registry ev k dm Hk), syncData_run in Harea'.
    set (dm0 := setIncomingData (stage ev (incomingData dm)) dm) in *.
    destruct (in_areas (incomingData dm0)) as [areas|];
      [|apply (Hsame dm0 eq_refl Harea')].
    destruct (in_devices (incomingData dm0)) as [devices|];
      [|apply (Hsame dm0 eq_refl Harea')].
    destruct (in_entities (incomingData dm0)) as [entities|];
      [|apply (Hsame dm0 eq_refl Harea')].
    destruct (in_entityStates (incomingData dm0)) as [entityStates|];
      [|apply (Hsame dm0 eq_refl Harea')].
    destruct (rebuild_outcome areas devices entities entityStates dm0) as (Hframe & _).
    cbv zeta in Hframe. cbn [data_areas store dm0 setIncomingData] in Hframe.
    set (merged := mergedAreas (data_areas dm) (length (store dm)) areas) in *.
    pose proof (findArea_frame (Some areaId) _ _ Hframe) as H.
    rewrite Harea' in H.
    destruct (findArea (Some areaId) merged) as [[j' m]|] eqn:Hm; [|destruct H].
    destruct H as [<- H]. unfold frame in H. injection H as _ _ _ ->.
    apply findArea_lookup in Hm as [Hm Hid].
    unfold merged in Hm. rewrite mergedAreas_lookup in Hm.
    destruct (areas !! j) as [registered|]; [|discriminate Hm].
    cbn in Hm. injection Hm as <-. cbn in Hid. injection Hid as Hid.
    unfold mergedArea. cbn [a_lights].
    rewrite <- (list_find_ext (fun x => Some (a_id x) = Some areaId)
                  (fun x => a_id x = ha_area_id registered) (data_areas dm))
      by (intros x; rewrite Hid; split; congruence).
    unfold findArea in Harea. rewrite Harea. reflexivity.
  - destruct ev as [| | | |changes]; try discriminate Hk.
    destruct (onEntityStateChange_inventory changes dm) as [Hinv _].
    apply (Hsame (fst (handle (EvEntityStateChange changes) dm))); [|exact Harea'].
    unfold inventory in Hinv. injection Hinv as Hinv _.
    apply (f_equal (map fst)) in Hinv. rewrite !map_map in Hinv.
    apply (f_equal (map fst)) in Hinv. rewrite !map_map in Hinv.
    apply (f_equal (map fst)) in Hinv. rewrite !map_map in Hinv.
    exact Hinv.
Qed.

(** X14.  No event removes a light from the list of an area or moves it
    within the list, as long as the model keeps holding an area with that
    id: along such a delivery of events the area keeps its array, and the
    entity ids it lists at the start are a prefix of those it lists at the
    end.  A light that Home Assistant no longer reports stays listed where
    it was. *)
Theorem lights_never_removed (evs : list Event) :
  forall (dm : DataManager) (areaId : string) (i j : nat) (area area' : Area),
    keepsArea areaId evs dm ->
    findArea (Some areaId) (data_areas dm) = Some (i, area) ->
    findArea (Some areaId) (data_areas (deliver evs dm)) = Some (j, area') ->
    a_lights area' = a_lights area
    /\ map l_entityId (lightsAt (store dm) (a_lights area))
       `prefix_of`
       map l_entityId (lightsAt (store (deliver evs dm)) (a_lights area')).
Proof.
  induction evs as [|ev rest IH]; intros dm areaId i j area area' Hkept Harea Harea'.
  - cbn [deliver] in *. rewrite Harea in Harea'. injection Harea' as <- <-.
    split; reflexivity.
  - cbn [deliver keepsArea] in *. destruct Hkept as [_ Hkept].
    assert (Hmid : is_Some (findArea (Some areaId) (data_areas (fst (handle ev dm)))))
      by (destruct rest; apply Hkept).
    destruct Hmid as [[k mid] Hmid].
    pose proof (handle_keeps_array ev dm areaId i k area mid Harea Hmid) as Hstep.
    destruct (IH _ areaId k j mid area' Hkept Hmid Harea') as [Hrest Hprefix].
    split; [congruence|].
    rewrite <- Hstep. etransitivity; [|exact Hprefix].
    apply (deliver_store_prefix [ev] dm).
Qed.

Lemma lights_never_removed_witness :
  let dm := deliver (sampleQuartet "on") started in
  let evs := [ EvAreas sampleAreas; EvDevices []; EvEntities [];
               EvEntityStates [] ] in
  exists j area',
    findArea (Some "office") (data_areas (deliver evs dm)) = Some (j, area')
    /\ [ "light.desk" ]
       `prefix_of` map l_entityId (lightsAt (store (deliver evs dm)) (a_lights area')).
Proof.
  cbv zeta.
  destruct (lights_never_removed
              [ EvAreas sampleAreas; EvDevices []; EvEntities []; EvEntityStates [] ]
              (deliver (sampleQuartet "on") started) "office" 3%nat 3%nat
              (mkArea "office" "Office" None 3%nat None None None)
              (mkArea "office" "Office" None 3%nat None None None))
    as [_ Hprefix].
  - cbn [keepsArea]. repeat (split; [eexists; vm_compute; reflexivity|]). exact I.
  - vm_compute. reflexivity.
  - vm_compute. reflexivity.
  - eexists _, _. split; [vm_compute; reflexivity|]. exact Hprefix.
Defined.
